(** * The subscription connection engine of go-graphql-client

    A shallow embedding of [SubscriptionClient] (subscription.go): the
    registry of subscriptions, the connection lifecycle ([init]), the
    message pump ([Run]) and the teardown procedures ([Reset], [Close]).

    The engine is stateful and talks to the outside world (the websocket,
    the clock, the uuid generator, the Go scheduler).  Every method is a
    computation in a state monad over [State]; the outside world is an
    oracle [Env] that scripts the outcome of every interaction, and every
    effect the engine performs is appended to a trace of [Event]s.  A nil
    dereference of the Go code is the result [Panic].

    What the model takes for granted: the methods of the engine run one at
    a time; the callbacks, the error policy and the handlers are functions
    of their argument that do not call the engine back; durations and
    instants are integers (nanoseconds) without overflow.  The choices Go
    leaves open (the order of a range over a map, the case a select takes
    among ready ones, the progress of goroutines) are answers of the
    oracle.  The loops of [init] and [Run] take fuel. *)

From Stdlib Require Import ZArith Lia.
From stdpp Require Import gmap strings list fin_maps.

(** ** Wire-level data *)

(** [OperationMessageType] is a Go string type; inbound frames may carry
    any string, so the constants are strings here too. *)
Definition OperationMessageType := string.

Definition GqlConnectionInit : OperationMessageType := "connection_init".
Definition GqlConnectionError : OperationMessageType := "conn_err".
Definition GqlStart : OperationMessageType := "start".
Definition GqlStop : OperationMessageType := "stop".
Definition GqlError : OperationMessageType := "error".
Definition GqlData : OperationMessageType := "data".
Definition GqlComplete : OperationMessageType := "complete".
Definition GqlConnectionKeepAlive : OperationMessageType := "ka".
Definition GqlConnectionAck : OperationMessageType := "connection_ack".
Definition GqlConnectionTerminate : OperationMessageType := "connection_terminate".
Definition GqlUnknown : OperationMessageType := "unknown".
Definition GqlInternal : OperationMessageType := "internal".

(** [json.RawMessage]: a byte slice; the nil slice is the empty list. *)
Definition RawMessage := list Byte.byte.

Record OperationMessage := {
  ID : string;
  Type_ : OperationMessageType;
  Payload : RawMessage
}.

(** A Go [error] value, as far as the engine inspects it: the text of
    [err.Error()] and the result of [websocket.CloseStatus(err)], which is
    [-1] for an error that carries no close frame. *)
Record GoError := {
  err_text : string;
  err_close : Z
}.

#[global] Instance GoError_eq_dec : EqDecision GoError.
Proof. solve_decision. Defined.

Definition errorf (text : string) : GoError :=
  {| err_text := text; err_close := (-1)%Z |}.

Definition io_EOF : GoError := errorf "EOF".

Definition StatusNormalClosure : Z := 1000%Z.

(** [time.Second], in nanoseconds. *)
Definition time_Second : Z := 1000000000%Z.

(** [strings.Contains]. *)
Fixpoint strings_Contains (s substr : string) : bool :=
  if String.prefix substr s then true
  else match s with
       | EmptyString => false
       | String _ s' => strings_Contains s' substr
       end.

(** Connections are told apart by a number. *)
Definition ConnId := nat.

(** What is passed to the logging sink. *)
Inductive LogArg :=
| LogMsg (m : OperationMessage)
| LogStr (s : string).

(** The effects of the engine on the outside world, in the order they
    happen. *)
Inductive Event :=
| EvNow (t : Z)
| EvSleep (d : Z)
| EvNewContext
| EvCancel
| EvDial (r : GoError + ConnId)
| EvSetReadLimit (c : ConnId) (limit : Z)
| EvWrite (c : ConnId) (m : OperationMessage) (r : option GoError)
| EvRead (c : ConnId) (r : GoError + OperationMessage)
| EvClose (c : ConnId) (r : option GoError)
| EvLog (a : LogArg) (ty : OperationMessageType)
| EvConnected
| EvDisconnected
| EvOnError (e : GoError) (r : option GoError)
| EvGo (m : OperationMessage).

Section Engine.

(** The values of [map[string]interface{}] (subscription variables and
    connection parameters) are opaque to the engine. *)
Context {Variables : Type}.

(** ** The registry entry and the engine state *)

Record subscription := {
  query : string;
  variables : Variables;
  handler : OperationMessage -> option GoError;
  started : bool;
  restarting : bool
}.

(** The configuration fields of [SubscriptionClient]; only the [With...]
    and [On...] setters write them. The three callbacks and the logging
    sink are caller code: a callback that is registered shows as an event
    of the trace, and the error policy is a function from the error to its
    verdict. *)
Record Config := {
  url : string;
  connectionParams : option Variables;
  timeout : Z;
  readLimit : Z;
  log : bool;
  retryTimeout : Z;
  onConnected : bool;
  onDisconnected : bool;
  onError : option (GoError -> option GoError);
  disabledLogTypes : list OperationMessageType
}.

(** The mutable fields of [SubscriptionClient], followed by the state of
    the world around it.  [context] stands for the pair [sc.context] /
    [sc.cancel], which [init] sets together: [None] before the first
    [init], [Some done] afterwards.  [errorChan] lists the errors whose
    senders are blocked on the unbuffered channel, [goroutines] the handler
    calls spawned by [go] that have not reached their end yet. *)
Record State := {
  cfg : Config;
  conn : option ConnId;
  context : option bool;
  subscriptions : gmap string subscription;
  isRunning : bool;
  errorChan : list GoError;
  goroutines : list ((OperationMessage -> option GoError) * OperationMessage);
  clock : Z;
  tick : nat;
  trace : list Event
}.

(** The oracle: what the world answers at each interaction. Interactions
    are numbered by [tick]. *)
Record Env := {
  (* websocket.Dial *)
  e_dial : nat -> option GoError;
  (* conn.WriteJSON *)
  e_write : nat -> ConnId -> OperationMessage -> option GoError;
  (* conn.ReadJSON *)
  e_read : nat -> ConnId -> GoError + OperationMessage;
  (* conn.Close *)
  e_close : nat -> ConnId -> option GoError;
  (* time that passes during an interaction, in nanoseconds *)
  e_lat : nat -> Z;
  (* uuid.New().String() *)
  e_uuid : nat -> string;
  (* uuid.Parse(s) followed by .String(): the canonical form, if any *)
  e_uuid_parse : string -> option string;
  (* json.Marshal of the start payload and of the connection parameters *)
  e_marshal_start : string -> Variables -> GoError + RawMessage;
  e_marshal_params : Variables -> GoError + RawMessage;
  (* the order in which a range statement visits the keys of a map *)
  e_range : nat -> list string -> list string;
  (* which ready case a select statement picks when both are ready:
     true for the first one *)
  e_select : nat -> bool;
  (* how many spawned handler calls finish before the next select *)
  e_sched : nat -> nat
}.

Variable E : Env.

(** ** The monad *)

Inductive Res (A : Type) : Type :=
| Ok (a : A) (s : State)
| Panic (s : State)
| OutOfFuel.
Arguments Ok {A} a s.
Arguments Panic {A} s.
Arguments OutOfFuel {A}.

Definition M (A : Type) : Type := State -> Res A.

#[global] Instance M_ret : MRet M := fun A a s => Ok a s.
#[global] Instance M_bind : MBind M := fun A B k m s =>
  match m s with
  | Ok a s' => k a s'
  | Panic s' => Panic s'
  | OutOfFuel => OutOfFuel
  end.

Definition get {A} (f : State -> A) : M A := fun s => Ok (f s) s.
Definition modify (f : State -> State) : M unit := fun s => Ok tt (f s).
Definition panic {A} : M A := fun s => Panic s.
Definition out_of_fuel {A} : M A := fun _ => OutOfFuel.

Definition set_conn (c : option ConnId) (s : State) : State :=
  {| cfg := cfg s; conn := c; context := context s;
     subscriptions := subscriptions s; isRunning := isRunning s;
     errorChan := errorChan s; goroutines := goroutines s;
     clock := clock s; tick := tick s; trace := trace s |}.

Definition set_context (c : option bool) (s : State) : State :=
  {| cfg := cfg s; conn := conn s; context := c;
     subscriptions := subscriptions s; isRunning := isRunning s;
     errorChan := errorChan s; goroutines := goroutines s;
     clock := clock s; tick := tick s; trace := trace s |}.

Definition set_subscriptions (m : gmap string subscription) (s : State) : State :=
  {| cfg := cfg s; conn := conn s; context := context s;
     subscriptions := m; isRunning := isRunning s;
     errorChan := errorChan s; goroutines := goroutines s;
     clock := clock s; tick := tick s; trace := trace s |}.

Definition set_isRunning (b : bool) (s : State) : State :=
  {| cfg := cfg s; conn := conn s; context := context s;
     subscriptions := subscriptions s; isRunning := b;
     errorChan := errorChan s; goroutines := goroutines s;
     clock := clock s; tick := tick s; trace := trace s |}.

Definition set_errorChan (q : list GoError) (s : State) : State :=
  {| cfg := cfg s; conn := conn s; context := context s;
     subscriptions := subscriptions s; isRunning := isRunning s;
     errorChan := q; goroutines := goroutines s;
     clock := clock s; tick := tick s; trace := trace s |}.

Definition set_goroutines
    (g : list ((OperationMessage -> option GoError) * OperationMessage))
    (s : State) : State :=
  {| cfg := cfg s; conn := conn s; context := context s;
     subscriptions := subscriptions s; isRunning := isRunning s;
     errorChan := errorChan s; goroutines := g;
     clock := clock s; tick := tick s; trace := trace s |}.

Definition add_event (e : Event) (s : State) : State :=
  {| cfg := cfg s; conn := conn s; context := context s;
     subscriptions := subscriptions s; isRunning := isRunning s;
     errorChan := errorChan s; goroutines := goroutines s;
     clock := clock s; tick := tick s; trace := trace s ++ [e] |}.

(** Time passes. *)
Definition advance (d : Z) (s : State) : State :=
  {| cfg := cfg s; conn := conn s; context := context s;
     subscriptions := subscriptions s; isRunning := isRunning s;
     errorChan := errorChan s; goroutines := goroutines s;
     clock := (clock s + d)%Z; tick := tick s; trace := trace s |}.

Definition next_tick (s : State) : State :=
  {| cfg := cfg s; conn := conn s; context := context s;
     subscriptions := subscriptions s; isRunning := isRunning s;
     errorChan := errorChan s; goroutines := goroutines s;
     clock := clock s; tick := S (tick s); trace := trace s |}.

Definition emit (e : Event) : M unit := modify (add_event e).

(** One interaction with the world: it gets the next number and takes the
    time the oracle says. *)
Definition interact : M nat :=
  fun s => Ok (tick s) (next_tick (advance (e_lat E (tick s)) s)).

(** ** Logging, the clock and the connection capability *)

Definition printLog (message : LogArg) (opType : OperationMessageType) : M unit :=
  l ← get (fun s => log (cfg s));
  if negb l then mret tt
  else
    disabled ← get (fun s => disabledLogTypes (cfg s));
    if existsb (String.eqb opType) disabled then mret tt
    else emit (EvLog message opType).

Definition time_Now : M Z :=
  t ← get clock;
  emit (EvNow t);;
  mret t.

Definition time_Sleep (d : Z) : M unit :=
  n ← interact;
  modify (advance d);;
  emit (EvSleep d).

(** The four methods of [WebsocketConn], called on [sc.conn]; calling a
    method of the nil interface panics. *)
Definition conn_WriteJSON (msg : OperationMessage) : M (option GoError) :=
  c ← get conn;
  match c with
  | None => panic
  | Some c =>
      n ← interact;
      let r := e_write E n c msg in
      emit (EvWrite c msg r);;
      mret r
  end.

Definition conn_ReadJSON : M (GoError + OperationMessage) :=
  c ← get conn;
  match c with
  | None => panic
  | Some c =>
      n ← interact;
      let r := e_read E n c in
      emit (EvRead c r);;
      mret r
  end.

Definition conn_Close : M (option GoError) :=
  c ← get conn;
  match c with
  | None => panic
  | Some c =>
      n ← interact;
      let r := e_close E n c in
      emit (EvClose c r);;
      mret r
  end.

Definition conn_SetReadLimit (limit : Z) : M unit :=
  c ← get conn;
  match c with
  | None => panic
  | Some c => emit (EvSetReadLimit c limit)
  end.

Definition newWebsocketConn : M (GoError + ConnId) :=
  n ← interact;
  let r := match e_dial E n with
           | Some e => inl e
           | None => inr n
           end in
  emit (EvDial r);;
  mret r.

(** [sc.cancel()]: calling the nil function value panics. *)
Definition cancel : M unit :=
  ctx ← get context;
  match ctx with
  | None => panic
  | Some _ => modify (set_context (Some true));; emit EvCancel
  end.

Definition setIsRunning (value : bool) : M unit :=
  modify (set_isRunning value).

(** The snapshot of keys a [for ... range sc.subscriptions] visits. *)
Definition range_keys : M (list string) :=
  n ← interact;
  m ← get subscriptions;
  mret (e_range E n (elements (dom m))).

(** ** Connection lifecycle *)

Definition sendConnectionInit : M (option GoError) :=
  params ← get (fun s => connectionParams (cfg s));
  match (match params with
         | None => inr []
         | Some p => e_marshal_params E p
         end) with
  | inl e => mret (Some e)
  | inr bParams =>
      let msg := {| ID := ""; Type_ := GqlConnectionInit; Payload := bParams |} in
      printLog (LogMsg msg) GqlConnectionInit;;
      conn_WriteJSON msg
  end.

(** The body of the [for] loop of [init] up to the test of [err]. *)
Definition connect_attempt : M (option GoError) :=
  c ← get conn;
  err ← match c with
        | None =>
            r ← newWebsocketConn;
            match r with
            | inl e => mret (Some e)
            | inr c' => modify (set_conn (Some c'));; mret None
            end
        | Some _ => mret None
        end;
  match err with
  | None =>
      limit ← get (fun s => readLimit (cfg s));
      conn_SetReadLimit limit;;
      sendConnectionInit
  | Some e => mret (Some e)
  end.

Fixpoint init_loop (fuel : nat) (now : Z) : M (option GoError) :=
  match fuel with
  | O => out_of_fuel
  | S fuel' =>
      err ← connect_attempt;
      match err with
      | None => mret None
      | Some e =>
          t ← time_Now;
          budget ← get (fun s => retryTimeout (cfg s));
          if (now + budget <? t)%Z then
            cb ← get (fun s => onDisconnected (cfg s));
            (if cb : bool then emit EvDisconnected else mret tt);;
            mret (Some e)
          else
            printLog (LogStr (err_text e +:+ ". retry in second....")) GqlInternal;;
            time_Sleep time_Second;;
            init_loop fuel' now
      end
  end.

Definition init (fuel : nat) : M (option GoError) :=
  now ← time_Now;
  modify (set_context (Some false));;
  emit EvNewContext;;
  init_loop fuel now.

(** ** The registry *)

Definition set_started (st rs : bool) (sub : subscription) : subscription :=
  {| query := query sub; variables := variables sub; handler := handler sub;
     started := st; restarting := rs |}.

(** [startSubscription] writes through the pointer [sub]; here it returns
    the record as it is afterwards. *)
Definition startSubscription (id : string) (sub : subscription)
    : M (option GoError * subscription) :=
  if started sub then mret (None, sub)
  else
    match e_marshal_start E (query sub) (variables sub) with
    | inl e => mret (Some e, sub)
    | inr payload =>
        let msg := {| ID := id; Type_ := GqlStart; Payload := payload |} in
        printLog (LogMsg msg) GqlStart;;
        err ← conn_WriteJSON msg;
        match err with
        | Some e => mret (Some e, sub)
        | None => mret (None, set_started true false sub)
        end
    end.

Definition createSubscription (q : string) (vars : Variables)
    (h : OperationMessage -> option GoError) : M (string * option GoError) :=
  n ← interact;
  let id := e_uuid E n in
  let sub := {| query := q; variables := vars; handler := h;
                started := false; restarting := false |} in
  running ← get isRunning;
  c ← get conn;
  r ← (if running && bool_decide (c ≠ None)
       then startSubscription id sub
       else mret (None, sub));
  match r.1 with
  | Some e => mret (""%string, Some e)
  | None =>
      modify (fun s => set_subscriptions (<[id := r.2]> (subscriptions s)) s);;
      mret (id, None)
  end.

Definition stopSubscription (id : string) : M (option GoError) :=
  c ← get conn;
  match c with
  | Some _ =>
      let msg := {| ID := id; Type_ := GqlStop; Payload := [] |} in
      printLog (LogMsg msg) GqlStop;;
      conn_WriteJSON msg
  | None => mret None
  end.

Definition Unsubscribe (id : string) : M (option GoError) :=
  m ← get subscriptions;
  match m !! id with
  | None =>
      mret (Some (errorf ("subscription id " +:+ id +:+ " doesn't not exist")))
  | Some _ =>
      err ← stopSubscription id;
      modify (fun s => set_subscriptions (delete id (subscriptions s)) s);;
      mret err
  end.

Definition findSubscription (ID : string) : M (option subscription) :=
  match e_uuid_parse E ID with
  | None => mret None
  | Some id =>
      m ← get subscriptions;
      mret (m !! id)
  end.

Definition terminate : M (option GoError) :=
  c ← get conn;
  match c with
  | Some _ =>
      let msg := {| ID := ""; Type_ := GqlConnectionTerminate; Payload := [] |} in
      printLog (LogMsg msg) GqlConnectionTerminate;;
      conn_WriteJSON msg
  | None => mret None
  end.

(** [go sub.handler(message)]: the goroutine is only spawned; it runs
    [wrapHandler]'s closure when the scheduler lets it ([schedule]). *)
Definition runSubHandler (message : OperationMessage) : M unit :=
  sub ← findSubscription (ID message);
  match sub with
  | None => mret tt
  | Some sub =>
      modify (fun s => set_goroutines (goroutines s ++ [(handler sub, message)]) s);;
      emit (EvGo message)
  end.

(** The closure of [wrapHandler]: an error of the handler is sent on
    [errorChan], where the sender blocks until the pump receives it. *)
Definition wrapHandler_run
    (g : (OperationMessage -> option GoError) * OperationMessage)
    (q : list GoError) : list GoError :=
  match g.1 g.2 with
  | Some errValue => q ++ [errValue]
  | None => q
  end.

Definition schedule : M unit :=
  n ← interact;
  modify (fun s =>
    let k := e_sched E n in
    set_goroutines (drop k (goroutines s))
      (set_errorChan (foldl (fun q g => wrapHandler_run g q) (errorChan s)
                        (take k (goroutines s))) s)).
(** ** Reset and Close *)

Fixpoint Reset_loop (ks : list string) : M unit :=
  match ks with
  | [] => mret tt
  | id :: ks' =>
      m ← get subscriptions;
      match m !! id with
      | None => Reset_loop ks'
      | Some _ =>
          stopSubscription id;;
          modify (fun s =>
            set_subscriptions (alter (set_started false true) id (subscriptions s)) s);;
          Reset_loop ks'
      end
  end.

(** [Reset] up to its last statement, [return sc.Run()]. *)
Definition Reset_teardown : M unit :=
  ks ← range_keys;
  Reset_loop ks;;
  c ← get conn;
  match c with
  | Some _ => terminate;; conn_Close;; modify (set_conn None)
  | None => mret tt
  end;;
  cancel.

(** [Reset], with the [Run] it calls as a parameter. *)
Definition Reset_with (run : M (option GoError)) : M (option GoError) :=
  running ← get isRunning;
  if negb running then mret None
  else Reset_teardown;; run.

Fixpoint Close_loop (ks : list string) : M (option GoError) :=
  match ks with
  | [] => mret None
  | id :: ks' =>
      m ← get subscriptions;
      match m !! id with
      | None => Close_loop ks'
      | Some _ =>
          err ← Unsubscribe id;
          match err with
          | Some e => cancel;; mret (Some e)
          | None => Close_loop ks'
          end
      end
  end.

Definition Close : M (option GoError) :=
  setIsRunning false;;
  ks ← range_keys;
  err ← Close_loop ks;
  match err with
  | Some e => mret (Some e)
  | None =>
      c ← get conn;
      err ← match c with
            | Some _ =>
                terminate;;
                err ← conn_Close;
                modify (set_conn None);;
                mret err
            | None => mret None
            end;
      cancel;;
      mret err
  end.

(** ** The message pump *)

(** The loop of [Run] that starts the registered subscriptions. *)
Fixpoint startAll_loop (ks : list string) : M (option GoError) :=
  match ks with
  | [] => mret None
  | k :: ks' =>
      m ← get subscriptions;
      match m !! k with
      | None => startAll_loop ks'
      | Some v =>
          r ← startSubscription k v;
          modify (fun s => set_subscriptions (<[k := r.2]> (subscriptions s)) s);;
          match r.1 with
          | Some e => Unsubscribe k;; mret (Some e)
          | None => startAll_loop ks'
          end
      end
  end.

(** [if sc.onError != nil { if err := sc.onError(sc, e); err != nil
    { return err } }]: [Some r] stands for [return r], [None] for going on. *)
Definition apply_onError (e : GoError) : M (option (option GoError)) :=
  policy ← get (fun s => onError (cfg s));
  match policy with
  | None => mret None
  | Some f =>
      emit (EvOnError e (f e));;
      match f e with
      | Some err => mret (Some (Some err))
      | None => mret None
      end
  end.

(** The [switch message.Type] of [Run]. *)
Definition dispatch (message : OperationMessage) : M unit :=
  if bool_decide (Type_ message = GqlError) || bool_decide (Type_ message = GqlData)
  then runSubHandler message
  else if bool_decide (Type_ message = GqlComplete)
  then Unsubscribe (ID message);; mret tt
  else if bool_decide (Type_ message = GqlConnectionAck)
  then
    cb ← get (fun s => onConnected (cfg s));
    if cb : bool then emit EvConnected else mret tt
  else mret tt.

(** The [default] case of the select: one socket read. *)
Definition read_case (reset : M (option GoError)) : M (option (option GoError)) :=
  r ← conn_ReadJSON;
  match r with
  | inl err =>
      if bool_decide (err = io_EOF) || strings_Contains (err_text err) "EOF"
      then res ← reset; mret (Some res)
      else
        let closeStatus := err_close err in
        if bool_decide (closeStatus = StatusNormalClosure) then mret (Some None)
        else if negb (bool_decide (closeStatus = (-1)%Z)) then
          printLog (LogStr (err_text err +:+ ". Retry connecting...")) GqlInternal;;
          res ← reset;
          mret (Some res)
        else apply_onError err
  | inr message => dispatch message;; mret None
  end.

(** The select statement of [Run]: which case runs, the receive from
    [errorChan] included.  A select with several ready cases picks one of
    them, not the first; its [default] runs only when no case is ready. *)
Inductive SelectCase :=
| CaseDone
| CaseError (e : GoError)
| CaseDefault.

Definition select_case : M SelectCase :=
  ctx ← get context;
  match ctx with
  | None => panic
  | Some done =>
      q ← get errorChan;
      match done, q with
      | true, e :: q' =>
          n ← interact;
          if e_select E n then mret CaseDone
          else modify (set_errorChan q');; mret (CaseError e)
      | true, [] => mret CaseDone
      | false, e :: q' => modify (set_errorChan q');; mret (CaseError e)
      | false, [] => mret CaseDefault
      end
  end.

(** One pass through the body of [for sc.isRunning { select { ... } }]:
    [Some r] stands for [return r], [None] for the next pass. *)
Definition Run_iteration (reset : M (option GoError)) : M (option (option GoError)) :=
  c ← select_case;
  match c with
  | CaseDone => mret (Some None)
  | CaseError e => apply_onError e
  | CaseDefault => read_case reset
  end.

(** The [for k, v := range sc.subscriptions] of [Run]. *)
Definition startAll : M (option GoError) :=
  ks ← range_keys;
  startAll_loop ks.

Fixpoint Run_loop (reset : M (option GoError)) (fuel : nat) : M (option GoError) :=
  match fuel with
  | O => out_of_fuel
  | S fuel' =>
      running ← get isRunning;
      if running : bool then
        schedule;;
        r ← Run_iteration reset;
        match r with
        | Some res => mret res
        | None => Run_loop reset fuel'
        end
      else
        running' ← get isRunning;
        if negb running' then mret None else reset
  end.

Fixpoint Run (fuel : nat) : M (option GoError) :=
  match fuel with
  | O => out_of_fuel
  | S fuel' =>
      err ← init fuel';
      match err with
      | Some _ => mret (Some (errorf "retry timeout. exiting"))
      | None =>
          err ← startAll;
          match err with
          | Some e => mret (Some e)
          | None =>
              setIsRunning true;;
              Run_loop (Reset_with (Run fuel')) fuel'
          end
      end
  end.

Definition Reset (fuel : nat) : M (option GoError) := Reset_with (Run fuel).

End Engine.

Arguments Ok {Variables A} a s.
Arguments Panic {Variables A} s.
Arguments OutOfFuel {Variables A}.

(** ** Vocabulary of the statements *)

Definition stop_frame (id : string) : OperationMessage :=
  {| ID := id; Type_ := GqlStop; Payload := [] |}.

Definition start_frame (id : string) (payload : RawMessage) : OperationMessage :=
  {| ID := id; Type_ := GqlStart; Payload := payload |}.

Definition terminate_frame : OperationMessage :=
  {| ID := ""; Type_ := GqlConnectionTerminate; Payload := [] |}.

Definition not_found (id : string) : GoError :=
  errorf ("subscription id " +:+ id +:+ " doesn't not exist").

(** The frames written to the socket, whatever the outcome of the write. *)
Definition frame_of (e : Event) : option (ConnId * OperationMessage) :=
  match e with
  | EvWrite c m _ => Some (c, m)
  | _ => None
  end.

Definition frames (t : list Event) : list (ConnId * OperationMessage) :=
  omap frame_of t.

(** [printLog] reaches the sink. *)
Definition should_log {Variables} (c : @Config Variables)
    (ty : OperationMessageType) : bool :=
  log c && negb (existsb (String.eqb ty) (disabledLogTypes c)).

Definition log_to {Variables} (a : LogArg) (ty : OperationMessageType)
    (s : @State Variables) : State :=
  if should_log (cfg s) ty then add_event (EvLog a ty) s else s.

(** The state right after one interaction with the world. *)
Definition after_interaction {Variables} (E : @Env Variables)
    (s : @State Variables) : State :=
  next_tick (advance (e_lat E (tick s)) s).

(** The record [createSubscription] builds. *)
Definition new_sub {Variables} (q : string) (vars : Variables)
    (h : OperationMessage -> option GoError) : subscription :=
  {| query := q; variables := vars; handler := h;
     started := false; restarting := false |}.

(** The outcome of sending the start frame of a subscription, when the
    write is the interaction number [t] on connection [c]. *)
Definition start_result {Variables} (E : @Env Variables) (q : string)
    (vars : Variables) (t : nat) (c : ConnId) (id : string) : option GoError :=
  match e_marshal_start E q vars with
  | inl e => Some e
  | inr p => e_write E t c (start_frame id p)
  end.

(** No start frame fails to be sent. *)
Definition starts_succeed {Variables} (E : @Env Variables) : Prop :=
  (forall q vars, exists p, e_marshal_start E q vars = inr p)
  /\ (forall t c m, Type_ m = GqlStart -> e_write E t c m = None).

(** A range statement visits every key once. *)
Definition range_ok {Variables} (E : @Env Variables) : Prop :=
  forall n l, e_range E n l ≡ₚ l.

(** What a successful [startSubscription] leaves in the record. *)
Definition mark_started {Variables} (sub : @subscription Variables) : subscription :=
  if started sub then sub else set_started true false sub.

(** The start frames [Run] writes for the keys [ks] of the registry [m]. *)
Definition start_frames {Variables} (E : @Env Variables) (c : ConnId)
    (m : gmap string (@subscription Variables)) (ks : list string)
    : list (ConnId * OperationMessage) :=
  flat_map (fun k =>
    match m !! k with
    | Some sub =>
        if started sub then []
        else match e_marshal_start E (query sub) (variables sub) with
             | inr p => [(c, start_frame k p)]
             | inl _ => []
             end
    | None => []
    end) ks.
Arguments start_frames : simpl never.

(** [return m()] inside the loop of [Run]. *)
Definition returning {Variables} (m : @M Variables (option GoError))
    : M (option (option GoError)) :=
  fun s => match m s with
           | Ok res s' => Ok (Some res) s'
           | Panic s' => Panic s'
           | OutOfFuel => OutOfFuel
           end.

(** The events that show the retry schedule of [init]: the readings of
    the clock, the sleeps and the disconnect notification. *)
Definition is_schedule_event (e : Event) : bool :=
  match e with
  | EvNow _ | EvSleep _ | EvDisconnected => true
  | _ => false
  end.

Definition is_disconnected (e : Event) : bool :=
  match e with
  | EvDisconnected => true
  | _ => false
  end.

Definition schedule_of (t : list Event) : list Event :=
  List.filter is_schedule_event t.

Definition count_disconnected (t : list Event) : nat :=
  length (List.filter is_disconnected t).

(** The schedule of [init] after its first reading of the clock, for the
    result [r] of [init]: every failed attempt is followed by a reading
    [t] of the clock; while [t] is not after the deadline there is a sleep
    of one second and one more attempt; the first reading after the
    deadline ends the schedule, with the disconnect notification if one
    is registered ([cb]); an attempt that succeeds ends it with nothing. *)
Inductive retry_schedule (deadline : Z) (cb : bool)
    : option GoError -> list Event -> Prop :=
| rs_success : retry_schedule deadline cb None []
| rs_give_up t e :
    (deadline < t)%Z ->
    retry_schedule deadline cb (Some e)
      (EvNow t :: if cb then [EvDisconnected] else [])
| rs_retry t r l :
    (t <= deadline)%Z ->
    retry_schedule deadline cb r l ->
    retry_schedule deadline cb r (EvNow t :: EvSleep time_Second :: l).

(** Every connect attempt fails: the handshake can never be written, or
    there is no connection and none can be dialled. *)
Definition attempts_fail {Variables} (E : @Env Variables)
    (s : @State Variables) : Prop :=
  (forall t c m, e_write E t c m <> None)
  \/ (conn s = None /\ forall t, e_dial E t <> None).

(** The fields of the engine that connecting does not touch. *)
Definition keeps_engine {Variables} (s s' : @State Variables) : Prop :=
  cfg s' = cfg s /\ subscriptions s' = subscriptions s
  /\ isRunning s' = isRunning s /\ context s' = context s
  /\ errorChan s' = errorChan s /\ goroutines s' = goroutines s.

(** The frame [sendConnectionInit] writes. *)
Definition connection_init_frame (payload : RawMessage) : OperationMessage :=
  {| ID := ""; Type_ := GqlConnectionInit; Payload := payload |}.

(** The handshake of one attempt of [init] on the connection [c], when
    the next interaction has the number [t]: its events, its result and
    the number of the interaction that follows.  Either the connection
    parameters cannot be marshalled and nothing is written, or the
    connection_init frame is written and the result is that of the
    write. *)
Inductive handshake_events {Variables} (E : @Env Variables)
    (cf : @Config Variables) (c : ConnId) (t : nat)
    : list Event -> option GoError -> nat -> Prop :=
| he_not_marshalled p e :
    connectionParams cf = Some p -> e_marshal_params E p = inl e ->
    handshake_events E cf c t [] (Some e) t
| he_written payload :
    match connectionParams cf with
    | Some p => e_marshal_params E p = inr payload
    | None => payload = []
    end ->
    handshake_events E cf c t
      ((if should_log cf GqlConnectionInit
        then [EvLog (LogMsg (connection_init_frame payload)) GqlConnectionInit]
        else [])
       ++ [EvWrite c (connection_init_frame payload)
             (e_write E t c (connection_init_frame payload))])
      (e_write E t c (connection_init_frame payload)) (S t).

(** One pass through the body of the loop of [init] up to the test of
    [err], from the connection held before to the connection held after:
    with no connection it dials, and a failed dial is the result of the
    attempt; with a connection (just dialled or held already) it sets the
    read limit and does the handshake. *)
Inductive attempt_events {Variables} (E : @Env Variables)
    (cf : @Config Variables)
    : option ConnId -> nat -> list Event -> option GoError
      -> option ConnId -> nat -> Prop :=
| ae_dial_failed t e :
    e_dial E t = Some e ->
    attempt_events E cf None t [EvDial (inl e)] (Some e) None (S t)
| ae_dialled t l r t' :
    e_dial E t = None ->
    handshake_events E cf t (S t) l r t' ->
    attempt_events E cf None t
      (EvDial (inr t) :: EvSetReadLimit t (readLimit cf) :: l) r (Some t) t'
| ae_connected c t l r t' :
    handshake_events E cf c t l r t' ->
    attempt_events E cf (Some c) t (EvSetReadLimit c (readLimit cf) :: l) r
      (Some c) t'.

(** The loop of [init]: an attempt that succeeds ends it with nil; after
    an attempt that fails the clock is read, and either the reading is
    after the deadline, the disconnect callback is called if there is one
    and the error of that attempt is returned, or the error is logged, a
    second is slept (one interaction) and the loop goes round. *)
Inductive retry_trace {Variables} (E : @Env Variables)
    (cf : @Config Variables) (deadline : Z)
    : option ConnId -> nat -> list Event -> option GoError
      -> option ConnId -> Prop :=
| rt_success c0 t l c1 t1 :
    attempt_events E cf c0 t l None c1 t1 ->
    retry_trace E cf deadline c0 t l None c1
| rt_give_up c0 t l e c1 t1 now :
    attempt_events E cf c0 t l (Some e) c1 t1 ->
    (deadline < now)%Z ->
    retry_trace E cf deadline c0 t
      (l ++ EvNow now :: if onDisconnected cf then [EvDisconnected] else [])
      (Some e) c1
| rt_retry c0 t l e c1 t1 now l' r c2 :
    attempt_events E cf c0 t l (Some e) c1 t1 ->
    (now <= deadline)%Z ->
    retry_trace E cf deadline c1 (S t1) l' r c2 ->
    retry_trace E cf deadline c0 t
      (l ++ EvNow now
         :: (if should_log cf GqlInternal
             then [EvLog (LogStr (err_text e +:+ ". retry in second....")) GqlInternal]
             else [])
         ++ EvSleep time_Second :: l')
      r c2.

(** The reading of C1 in which [Close] tears everything down from every
    state, whatever the stop-frame writes return. *)
Definition close_tears_down {Variables} (E : @Env Variables) : Prop :=
  forall s : State,
    exists r s',
      Close E s = Ok r s'
      /\ isRunning s' = false /\ subscriptions s' = ∅ /\ conn s' = None
      /\ context s' = Some true.

(** The reading of C2 in which every subscription that is registered
    when [Reset] is called, and still is when it returns, has had its
    start frame written again in between. *)
Definition reset_replays_all {Variables} (E : @Env Variables) : Prop :=
  forall fuel (s : @State Variables) r s',
    isRunning s = true ->
    Reset E fuel s = Ok r s' ->
    forall id,
      is_Some (subscriptions s !! id) -> is_Some (subscriptions s' !! id) ->
      exists c p,
        (c, start_frame id p) ∈ frames (drop (length (trace s)) (trace s')).

(** The reading of C4 in which every normal closure ends the loop: the
    pass returns nil and nothing happened but the read. *)
Definition graceful_closure_is_clean {Variables} (E : @Env Variables) : Prop :=
  forall reset (s : State) c err,
    conn s = Some c -> e_read E (tick s) c = inl err ->
    err_close err = StatusNormalClosure ->
    read_case E reset s
    = Ok (Some None) (add_event (EvRead c (inl err)) (after_interaction E s)).

(** The reading of C8 in which a cancelled context always wins over a
    pending error. *)
Definition cancellation_first {Variables} (E : @Env Variables) : Prop :=
  forall (s : State) e q,
    context s = Some true -> errorChan s = e :: q ->
    exists s', select_case E s = Ok CaseDone s' /\ errorChan s' = e :: q.

Definition is_read (e : Event) : bool :=
  match e with
  | EvRead _ _ => true
  | _ => false
  end.

Definition is_close (e : Event) : bool :=
  match e with
  | EvClose _ _ => true
  | _ => false
  end.

(** The "end of stream" test of [Run]. *)
Definition is_EOF (err : GoError) : bool :=
  bool_decide (err = io_EOF) || strings_Contains (err_text err) "EOF".

(** ** Concrete scenarios

    Small engines and worlds on which the statements below are run. *)

Definition handler_ok : OperationMessage -> option GoError := fun _ => None.

Definition sub0 (st rs : bool) : @subscription unit :=
  {| query := "subscription { tick }"; variables := tt; handler := handler_ok;
     started := st; restarting := rs |}.

Definition cfg0 : @Config unit :=
  {| url := "ws://localhost:8080/graphql"; connectionParams := None;
     timeout := 60 * time_Second; readLimit := 10485760; log := false;
     retryTimeout := 2 * time_Second; onConnected := true;
     onDisconnected := true; onError := None; disabledLogTypes := [] |}.

Definition write_failed : GoError := errorf "write: broken pipe".
Definition dial_failed : GoError := errorf "dial: connection refused".

(** A world in which every interaction succeeds at once; reads deliver a
    keep-alive frame. *)
Definition env_ok : @Env unit :=
  {| e_dial := fun _ => None;
     e_write := fun _ _ _ => None;
     e_read := fun _ _ =>
       inr {| ID := ""; Type_ := GqlConnectionKeepAlive; Payload := [] |};
     e_close := fun _ _ => None;
     e_lat := fun _ => 0%Z;
     e_uuid := fun _ => "6ba7b810-9dad-11d1-80b4-00c04fd430c8";
     e_uuid_parse := fun s =>
       if String.eqb s "6ba7b810-9dad-11d1-80b4-00c04fd430c8" then Some s else None;
     e_marshal_start := fun _ _ => inr [];
     e_marshal_params := fun _ => inr [];
     e_range := fun _ l => l;
     e_select := fun _ => true;
     e_sched := fun _ => 0 |}.

(** The same world, except that every stop frame fails to be written. *)
Definition env_stop_fails : @Env unit :=
  {| e_dial := e_dial env_ok;
     e_write := fun _ _ m =>
       if String.eqb (Type_ m) GqlStop then Some write_failed else None;
     e_read := e_read env_ok; e_close := e_close env_ok; e_lat := e_lat env_ok;
     e_uuid := e_uuid env_ok; e_uuid_parse := e_uuid_parse env_ok;
     e_marshal_start := e_marshal_start env_ok;
     e_marshal_params := e_marshal_params env_ok;
     e_range := e_range env_ok; e_select := e_select env_ok;
     e_sched := e_sched env_ok |}.

(** The same world, except that every start frame fails to be written. *)
Definition env_start_fails : @Env unit :=
  {| e_dial := e_dial env_ok;
     e_write := fun _ _ m =>
       if String.eqb (Type_ m) GqlStart then Some write_failed else None;
     e_read := e_read env_ok; e_close := e_close env_ok; e_lat := e_lat env_ok;
     e_uuid := e_uuid env_ok; e_uuid_parse := e_uuid_parse env_ok;
     e_marshal_start := e_marshal_start env_ok;
     e_marshal_params := e_marshal_params env_ok;
     e_range := e_range env_ok; e_select := e_select env_ok;
     e_sched := e_sched env_ok |}.

(** A close frame with status 1000 (normal closure) whose reason, chosen
    by the server, is the word EOF, as [err.Error()] prints it. *)
Definition normal_closure_EOF : GoError :=
  {| err_text := "failed to get reader: received close frame: status = StatusNormalClosure and reason = 'EOF'";
     err_close := StatusNormalClosure |}.

(** A close frame with status 1000 and no reason. *)
Definition normal_closure : GoError :=
  {| err_text := "failed to get reader: received close frame: status = StatusNormalClosure and reason = ''";
     err_close := StatusNormalClosure |}.

(** A world in which the server is gone: every read yields [err], every
    dial fails, and nothing takes time but sleeping. *)
Definition env_gone (err : GoError) : @Env unit :=
  {| e_dial := fun _ => Some dial_failed;
     e_write := e_write env_ok;
     e_read := fun _ _ => inl err;
     e_close := e_close env_ok; e_lat := e_lat env_ok;
     e_uuid := e_uuid env_ok; e_uuid_parse := e_uuid_parse env_ok;
     e_marshal_start := e_marshal_start env_ok;
     e_marshal_params := e_marshal_params env_ok;
     e_range := e_range env_ok; e_select := e_select env_ok;
     e_sched := e_sched env_ok |}.

(** The world of [env_ok] with a scheduler whose select takes the receive
    from the error channel when both cases are ready. *)
Definition env_pick_error : @Env unit :=
  {| e_dial := e_dial env_ok; e_write := e_write env_ok;
     e_read := e_read env_ok; e_close := e_close env_ok; e_lat := e_lat env_ok;
     e_uuid := e_uuid env_ok; e_uuid_parse := e_uuid_parse env_ok;
     e_marshal_start := e_marshal_start env_ok;
     e_marshal_params := e_marshal_params env_ok;
     e_range := e_range env_ok; e_select := fun _ => false;
     e_sched := e_sched env_ok |}.

Definition handler_failed : GoError := errorf "handler: cannot decode".

(** A running engine, connected on connection 0, with the registry [m]. *)
Definition st_running (m : gmap string (@subscription unit)) : @State unit :=
  {| cfg := cfg0; conn := Some 0; context := Some false; subscriptions := m;
     isRunning := true; errorChan := []; goroutines := [];
     clock := 0%Z; tick := 1; trace := [] |}.

(** An engine as [NewSubscriptionClient] makes it, with the registry [m]. *)
Definition st_new (m : gmap string (@subscription unit)) : @State unit :=
  {| cfg := cfg0; conn := None; context := None; subscriptions := m;
     isRunning := false; errorChan := []; goroutines := [];
     clock := 0%Z; tick := 0; trace := [] |}.

Definition two_subs : gmap string (@subscription unit) :=
  <["A" := sub0 true false]> (<["B" := sub0 true false]> ∅).

(** [cfg0] with an error policy that makes every error fatal. *)
Definition cfg_strict : @Config unit :=
  {| url := url cfg0; connectionParams := None; timeout := timeout cfg0;
     readLimit := readLimit cfg0; log := false; retryTimeout := retryTimeout cfg0;
     onConnected := true; onDisconnected := true;
     onError := Some (fun e => Some e); disabledLogTypes := [] |}.

(** A running engine whose context has been cancelled while a handler is
    blocked sending its error. *)
Definition st_cancelled_with_error : @State unit :=
  {| cfg := cfg_strict; conn := Some 0; context := Some true;
     subscriptions := two_subs; isRunning := true;
     errorChan := [handler_failed]; goroutines := [];
     clock := 0%Z; tick := 1; trace := [] |}.

(** ** The rest of the engine's surface *)

(** [NewSubscriptionClient]: the defaults of a new engine, at the instant
    [now] of a world that has not been touched yet. *)
Definition time_Minute : Z := (60 * time_Second)%Z.

Definition NewSubscriptionClient {Variables} (u : string) (now : Z)
    : @State Variables :=
  {| cfg := {| url := u; connectionParams := None; timeout := time_Minute;
               readLimit := 10 * 1024 * 1024; log := false;
               retryTimeout := time_Minute; onConnected := false;
               onDisconnected := false; onError := None;
               disabledLogTypes := [] |};
     conn := None; context := None; subscriptions := ∅; isRunning := false;
     errorChan := []; goroutines := []; clock := now; tick := 0; trace := [] |}.

(** Several registrations in a row, as a caller makes them. *)
Fixpoint Subscribe_many {Variables} (E : @Env Variables)
    (l : list (string * Variables * (OperationMessage -> option GoError)))
    : M (list (string * option GoError)) :=
  match l with
  | [] => mret []
  | (q, vars, h) :: l' =>
      r ← createSubscription E q vars h;
      rs ← Subscribe_many E l';
      mret (r :: rs)
  end.

(** The state in which [runSubHandler] leaves the engine when it spawns
    the handler [h] for [message]. *)
Definition spawned {Variables} (h : OperationMessage -> option GoError)
    (message : OperationMessage) (s : @State Variables) : State :=
  add_event (EvGo message) (set_goroutines (goroutines s ++ [(h, message)]) s).

(** The frame types the switch of [Run] has a case for. *)
Definition handled_type (ty : OperationMessageType) : Prop :=
  ty = GqlError \/ ty = GqlData \/ ty = GqlComplete \/ ty = GqlConnectionAck.

Definition is_dial (e : Event) : bool :=
  match e with
  | EvDial _ => true
  | _ => false
  end.

Definition is_write (e : Event) : bool :=
  match e with
  | EvWrite _ _ _ => true
  | _ => false
  end.

(** The frames of a list that carry the id [k]. *)
Definition frames_for (k : string) (l : list (ConnId * OperationMessage))
    : list (ConnId * OperationMessage) :=
  List.filter (fun f => String.eqb (ID f.2) k) l.

(** The world of [env_ok] with a uuid parser that also takes the
    upper-case form of the one id it knows. *)
Definition env_upper : @Env unit :=
  {| e_dial := e_dial env_ok; e_write := e_write env_ok;
     e_read := e_read env_ok; e_close := e_close env_ok; e_lat := e_lat env_ok;
     e_uuid := e_uuid env_ok;
     e_uuid_parse := fun s =>
       if String.eqb s "6ba7b810-9dad-11d1-80b4-00c04fd430c8"
          || String.eqb s "6BA7B810-9DAD-11D1-80B4-00C04FD430C8"
       then Some "6ba7b810-9dad-11d1-80b4-00c04fd430c8"%string else None;
     e_marshal_start := e_marshal_start env_ok;
     e_marshal_params := e_marshal_params env_ok;
     e_range := e_range env_ok; e_select := e_select env_ok;
     e_sched := e_sched env_ok |}.

Definition one_sub : gmap string (@subscription unit) :=
  <["6ba7b810-9dad-11d1-80b4-00c04fd430c8" := sub0 true false]> ∅.

(** The ids the generator hands out to [n] registrations in a row that
    begin at the interaction number [t]. *)
Definition new_ids {Variables} (E : @Env Variables) (t n : nat) : list string :=
  (fun i => e_uuid E (t + i)) <$> seq 0 n.

(** A world whose uuid generator counts: a, aa, aaa, ... *)
Definition env_count : @Env unit :=
  {| e_dial := e_dial env_ok; e_write := e_write env_ok;
     e_read := e_read env_ok; e_close := e_close env_ok; e_lat := e_lat env_ok;
     e_uuid := fun n => String.concat "" (replicate (S n) "a"%string);
     e_uuid_parse := fun s => Some s;
     e_marshal_start := e_marshal_start env_ok;
     e_marshal_params := e_marshal_params env_ok;
     e_range := e_range env_ok; e_select := e_select env_ok;
     e_sched := e_sched env_ok |}.

(** The outcomes of the dials in a trace, in order. *)
Definition dial_of (e : Event) : option (GoError + ConnId) :=
  match e with
  | EvDial r => Some r
  | _ => None
  end.

Definition dials_of (t : list Event) : list (GoError + ConnId) :=
  omap dial_of t.

(** Failed dials only, except possibly the last one. *)
Definition dials_until_success (l : list (GoError + ConnId)) : Prop :=
  exists errs tl,
    l = (inl <$> errs) ++ tl /\ (tl = [] \/ exists c, tl = [inr c]).

(** A world in which the connection parameters cannot be marshalled. *)
Definition marshal_failed : GoError := errorf "json: unsupported type: chan int".

Definition env_bad_params : @Env unit :=
  {| e_dial := e_dial env_ok; e_write := e_write env_ok;
     e_read := e_read env_ok; e_close := e_close env_ok; e_lat := e_lat env_ok;
     e_uuid := e_uuid env_ok; e_uuid_parse := e_uuid_parse env_ok;
     e_marshal_start := e_marshal_start env_ok;
     e_marshal_params := fun _ => inl marshal_failed;
     e_range := e_range env_ok; e_select := e_select env_ok;
     e_sched := e_sched env_ok |}.

Definition cfg_params : @Config unit :=
  {| url := url cfg0; connectionParams := Some tt; timeout := timeout cfg0;
     readLimit := readLimit cfg0; log := false; retryTimeout := retryTimeout cfg0;
     onConnected := true; onDisconnected := true;
     onError := None; disabledLogTypes := [] |}.

Definition st_params : @State unit :=
  {| cfg := cfg_params; conn := None; context := None; subscriptions := two_subs;
     isRunning := false; errorChan := []; goroutines := [];
     clock := 0%Z; tick := 0; trace := [] |}.

(** The world of [env_ok], except that the first dial (interaction 0)
    is refused. *)
Definition env_dial_later : @Env unit :=
  {| e_dial := fun n => if Nat.eqb n 0 then Some dial_failed else None;
     e_write := e_write env_ok;
     e_read := e_read env_ok; e_close := e_close env_ok; e_lat := e_lat env_ok;
     e_uuid := e_uuid env_ok; e_uuid_parse := e_uuid_parse env_ok;
     e_marshal_start := e_marshal_start env_ok;
     e_marshal_params := e_marshal_params env_ok;
     e_range := e_range env_ok; e_select := e_select env_ok;
     e_sched := e_sched env_ok |}.

(** The pump at rest: running, context live, no error pending and no
    handler in flight. *)
Definition idle {Variables} (s : @State Variables) : Prop :=
  isRunning s = true /\ context s = Some false
  /\ errorChan s = [] /\ goroutines s = [].

(** A server that sends two keep-alive frames and then closes normally:
    the reads of an idle pump that starts at interaction 1 are the
    interactions 2, 4 and 6. *)
Definition keep_alive : OperationMessage :=
  {| ID := ""; Type_ := GqlConnectionKeepAlive; Payload := [] |}.

Definition env_two_ka : @Env unit :=
  {| e_dial := e_dial env_ok; e_write := e_write env_ok;
     e_read := fun n _ => if n <? 6 then inr keep_alive else inl normal_closure;
     e_close := e_close env_ok; e_lat := e_lat env_ok;
     e_uuid := e_uuid env_ok; e_uuid_parse := e_uuid_parse env_ok;
     e_marshal_start := e_marshal_start env_ok;
     e_marshal_params := e_marshal_params env_ok;
     e_range := e_range env_ok; e_select := e_select env_ok;
     e_sched := e_sched env_ok |}.

(** A running engine with the strict policy and one handler error
    pending. *)
Definition st_error_pending : @State unit :=
  {| cfg := cfg_strict; conn := Some 0; context := Some false;
     subscriptions := two_subs; isRunning := true;
     errorChan := [handler_failed]; goroutines := [];
     clock := 0%Z; tick := 1; trace := [] |}.

(** ** The request/response client (graphql.go)

    [Client] posts one JSON document per operation and reads one back.
    The query builders ([constructQuery], [constructMutation]), the JSON
    encoder and decoder, the HTTP round trip and [jsonutil.UnmarshalGraphQL]
    are answers of an oracle; the typed query description [v] is a value of
    an opaque type [Q] that unmarshalling rewrites. *)

(** One element of the [errors] slice. *)
Record graphqlError := {
  Message : string;
  Locations : list (Z * Z)
}.

Definition errors := list graphqlError.

Record responseBody := {
  Data : option RawMessage;
  Errors : errors
}.

(** [errors.Error]: [e[0].Message]; indexing the empty slice panics
    ([None]). *)
Definition errors_Error (e : errors) : option string :=
  match e with
  | [] => None
  | first :: _ => Some (Message first)
  end.

(** A value of the interface [error] as [do] and [doRaw] return it: an
    ordinary error or the [errors] slice of the response. *)
Inductive ClientError :=
| PlainError (e : GoError)
| ResponseErrors (es : errors).

Record httpResponse := {
  StatusCode : Z;
  Status : string;
  Body : list Byte.byte
}.

Definition http_StatusOK : Z := 200%Z.

(** [operationType] is a uint8 with two named values. *)
Definition operationType := nat.
Definition queryOperation : operationType := 0.
Definition mutationOperation : operationType := 1.

(** What a call does to the network. *)
Inductive HttpEvent :=
| EvPost (u : string) (body : list Byte.byte)
| EvReadAll
| EvDecode
| EvBodyClose.

Record HttpEnv {Q Variables : Type} := {
  h_constructQuery : Q -> Variables -> string -> string;
  h_constructMutation : Q -> Variables -> string -> string;
  (* json.NewEncoder(&buf).Encode of {query, variables} *)
  h_encode : string -> Variables -> GoError + list Byte.byte;
  (* ctxhttp.Post *)
  h_post : string -> list Byte.byte -> GoError + httpResponse;
  (* the verb %q of fmt on the body *)
  h_quote : list Byte.byte -> string;
  (* json.NewDecoder(resp.Body).Decode *)
  h_decode : list Byte.byte -> GoError + responseBody;
  (* jsonutil.UnmarshalGraphQL: the description afterwards and the error *)
  h_unmarshal : RawMessage -> Q -> Q * option GoError
}.
Arguments HttpEnv : clear implicits.

Section HttpClient.

Context {Q Variables : Type} (H : HttpEnv Q Variables).

(** [createRequest], with the events of the call.  The deferred
    [resp.Body.Close()] runs on every return that follows a successful
    post. *)
Definition Client_createRequest (client_url : string) (query : string)
    (variables : Variables) : (GoError + responseBody) * list HttpEvent :=
  match h_encode H query variables with
  | inl err => (inl err, [])
  | inr buf =>
      match h_post H client_url buf with
      | inl err => (inl err, [EvPost client_url buf])
      | inr resp =>
          if negb (bool_decide (StatusCode resp = http_StatusOK)) then
            (inl (errorf ("non-200 OK status code: " +:+ Status resp
                          +:+ " body: " +:+ h_quote H (Body resp))),
             [EvPost client_url buf; EvReadAll; EvBodyClose])
          else
            match h_decode H (Body resp) with
            | inl err => (inl err, [EvPost client_url buf; EvDecode; EvBodyClose])
            | inr response =>
                (inr response, [EvPost client_url buf; EvDecode; EvBodyClose])
            end
      end
  end.

(** The [switch op] that opens [do] and [doRaw]: [query] keeps its zero
    value for any other operation type. *)
Definition build_query (op : operationType) (v : Q) (variables : Variables)
    (name : string) : string :=
  if bool_decide (op = queryOperation) then h_constructQuery H v variables name
  else if bool_decide (op = mutationOperation)
  then h_constructMutation H v variables name
  else ""%string.

Definition Client_doRaw (client_url : string) (op : operationType) (v : Q)
    (variables : Variables) (name : string)
    : (option RawMessage * option ClientError) * list HttpEvent :=
  let query := build_query op v variables name in
  match Client_createRequest client_url query variables with
  | (inl err, evs) => ((None, Some (PlainError err)), evs)
  | (inr response, evs) =>
      if 0 <? length (Errors response)
      then ((Data response, Some (ResponseErrors (Errors response))), evs)
      else ((Data response, None), evs)
  end.

(** [do] fills [v] through the pointer; here it returns [v] as it is
    afterwards. *)
Definition Client_do (client_url : string) (op : operationType) (v : Q)
    (variables : Variables) (name : string)
    : (Q * option ClientError) * list HttpEvent :=
  let query := build_query op v variables name in
  match Client_createRequest client_url query variables with
  | (inl err, evs) => ((v, Some (PlainError err)), evs)
  | (inr response, evs) =>
      let r := match Data response with
               | Some data => h_unmarshal H data v
               | None => (v, None)
               end in
      match r.2 with
      | Some err => ((r.1, Some (PlainError err)), evs)
      | None =>
          if 0 <? length (Errors response)
          then ((r.1, Some (ResponseErrors (Errors response))), evs)
          else ((r.1, None), evs)
      end
  end.

(** The exported methods. *)
Definition Client_Query (u : string) (q : Q) (variables : Variables) :=
  Client_do u queryOperation q variables "".
Definition Client_NamedQuery (u : string) (name : string) (q : Q)
    (variables : Variables) :=
  Client_do u queryOperation q variables name.
Definition Client_Mutate (u : string) (m : Q) (variables : Variables) :=
  Client_do u mutationOperation m variables "".
Definition Client_NamedMutate (u : string) (name : string) (m : Q)
    (variables : Variables) :=
  Client_do u mutationOperation m variables name.
Definition Client_QueryRaw (u : string) (q : Q) (variables : Variables) :=
  Client_doRaw u queryOperation q variables "".
Definition Client_NamedQueryRaw (u : string) (name : string) (q : Q)
    (variables : Variables) :=
  Client_doRaw u queryOperation q variables name.
Definition Client_MutateRaw (u : string) (m : Q) (variables : Variables) :=
  Client_doRaw u mutationOperation m variables "".
Definition Client_NamedMutateRaw (u : string) (name : string) (m : Q)
    (variables : Variables) :=
  Client_doRaw u mutationOperation m variables name.

End HttpClient.

(** A server that answers 200 with data and one error, and a
    description that unmarshalling fills with the length of the data. *)
Definition http_partial : HttpEnv nat unit :=
  {| h_constructQuery := fun _ _ name => ("query " +:+ name)%string;
     h_constructMutation := fun _ _ name => ("mutation " +:+ name)%string;
     h_encode := fun _ _ => inr [];
     h_post := fun _ _ =>
       inr {| StatusCode := 200; Status := "200 OK"; Body := [] |};
     h_quote := fun _ => "'body'"%string;
     h_decode := fun _ =>
       inr {| Data := Some [Byte.x7b; Byte.x7d];
              Errors := [{| Message := "field deprecated"; Locations := [] |}] |};
     h_unmarshal := fun d _ => (length d, None) |}.

(** A server that answers 503. *)
Definition http_unavailable : HttpEnv nat unit :=
  {| h_constructQuery := h_constructQuery http_partial;
     h_constructMutation := h_constructMutation http_partial;
     h_encode := h_encode http_partial;
     h_post := fun _ _ =>
       inr {| StatusCode := 503; Status := "503 Service Unavailable"; Body := [] |};
     h_quote := h_quote http_partial;
     h_decode := h_decode http_partial;
     h_unmarshal := h_unmarshal http_partial |}.

(** A server that answers 200 with data and one error, and a
    description the data does not fit. *)
Definition unmarshal_failed : GoError :=
  errorf "struct field for todos doesn't exist in any of 1 places to unmarshal".

Definition http_mismatch : HttpEnv nat unit :=
  {| h_constructQuery := h_constructQuery http_partial;
     h_constructMutation := h_constructMutation http_partial;
     h_encode := h_encode http_partial;
     h_post := h_post http_partial;
     h_quote := h_quote http_partial;
     h_decode := h_decode http_partial;
     h_unmarshal := fun _ v => (v, Some unmarshal_failed) |}.

Ltac munfold :=
  unfold setIsRunning, emit in *;
  unfold mbind, mret, M_bind, M_ret, get, modify, interact, panic,
    out_of_fuel in *.

(** Projections of a state built with the setters. *)
Ltac psimpl :=
  cbn [cfg conn context subscriptions isRunning errorChan goroutines clock
       tick trace next_tick advance add_event set_conn set_context
       set_subscriptions set_isRunning set_errorChan set_goroutines
       after_interaction fst snd] in *.

Section Basics.

Context {Variables : Type} (E : @Env Variables).
Implicit Types (s : @State Variables) (id : string) (c : ConnId).

Lemma frames_app (l1 l2 : list Event) : frames (l1 ++ l2) = frames l1 ++ frames l2.
Proof. unfold frames. apply omap_app. Qed.

Lemma printLog_eq a ty s : printLog a ty s = Ok tt (log_to a ty s).
Proof.
  unfold printLog, log_to, should_log. munfold.
  destruct (log (cfg s)); simpl; [|reflexivity].
  destruct (existsb _ _); reflexivity.
Qed.

Lemma log_to_cfg a ty s : cfg (log_to a ty s) = cfg s.
Proof. unfold log_to. destruct (should_log _ _); reflexivity. Qed.
Lemma log_to_conn a ty s : conn (log_to a ty s) = conn s.
Proof. unfold log_to. destruct (should_log _ _); reflexivity. Qed.
Lemma log_to_context a ty s : context (log_to a ty s) = context s.
Proof. unfold log_to. destruct (should_log _ _); reflexivity. Qed.
Lemma log_to_subscriptions a ty s : subscriptions (log_to a ty s) = subscriptions s.
Proof. unfold log_to. destruct (should_log _ _); reflexivity. Qed.
Lemma log_to_isRunning a ty s : isRunning (log_to a ty s) = isRunning s.
Proof. unfold log_to. destruct (should_log _ _); reflexivity. Qed.
Lemma log_to_errorChan a ty s : errorChan (log_to a ty s) = errorChan s.
Proof. unfold log_to. destruct (should_log _ _); reflexivity. Qed.
Lemma log_to_goroutines a ty s : goroutines (log_to a ty s) = goroutines s.
Proof. unfold log_to. destruct (should_log _ _); reflexivity. Qed.
Lemma log_to_clock a ty s : clock (log_to a ty s) = clock s.
Proof. unfold log_to. destruct (should_log _ _); reflexivity. Qed.
Lemma log_to_tick a ty s : tick (log_to a ty s) = tick s.
Proof. unfold log_to. destruct (should_log _ _); reflexivity. Qed.

Lemma log_to_trace a ty s :
  trace (log_to a ty s)
  = trace s ++ (if should_log (cfg s) ty then [EvLog a ty] else []).
Proof.
  unfold log_to. destruct (should_log _ _); simpl; [reflexivity|].
  by rewrite app_nil_r.
Qed.

Lemma log_to_frames a ty s : frames (trace (log_to a ty s)) = frames (trace s).
Proof.
  rewrite log_to_trace, frames_app.
  destruct (should_log _ _); simpl; by rewrite app_nil_r.
Qed.

Lemma conn_WriteJSON_eq msg s c :
  conn s = Some c ->
  conn_WriteJSON E msg s
  = Ok (e_write E (tick s) c msg)
       (add_event (EvWrite c msg (e_write E (tick s) c msg)) (after_interaction E s)).
Proof. intros Hc. unfold conn_WriteJSON. munfold. simpl. by rewrite Hc. Qed.

Lemma stopSubscription_none id s :
  conn s = None -> stopSubscription E id s = Ok None s.
Proof. intros Hc. unfold stopSubscription. munfold. simpl. by rewrite Hc. Qed.

Lemma stopSubscription_some id s c :
  conn s = Some c ->
  stopSubscription E id s
  = Ok (e_write E (tick s) c (stop_frame id))
       (add_event (EvWrite c (stop_frame id) (e_write E (tick s) c (stop_frame id)))
          (after_interaction E (log_to (LogMsg (stop_frame id)) GqlStop s))).
Proof.
  intros Hc. unfold stopSubscription. munfold. cbn beta iota. rewrite Hc.
  rewrite printLog_eq.
  rewrite (conn_WriteJSON_eq _ _ c) by (by rewrite log_to_conn).
  by rewrite log_to_tick.
Qed.

Lemma Unsubscribe_absent id s :
  subscriptions s !! id = None ->
  Unsubscribe E id s = Ok (Some (not_found id)) s.
Proof.
  intros H. unfold Unsubscribe. munfold. cbn beta iota. by rewrite H.
Qed.

Lemma Unsubscribe_no_conn id s :
  is_Some (subscriptions s !! id) -> conn s = None ->
  Unsubscribe E id s
  = Ok None (set_subscriptions (delete id (subscriptions s)) s).
Proof.
  intros [sub H] Hc. unfold Unsubscribe. munfold. cbn beta iota. rewrite H.
  by rewrite stopSubscription_none.
Qed.

Lemma Unsubscribe_conn id s c :
  is_Some (subscriptions s !! id) -> conn s = Some c ->
  Unsubscribe E id s
  = Ok (e_write E (tick s) c (stop_frame id))
       (set_subscriptions (delete id (subscriptions s))
          (add_event (EvWrite c (stop_frame id) (e_write E (tick s) c (stop_frame id)))
             (after_interaction E (log_to (LogMsg (stop_frame id)) GqlStop s)))).
Proof.
  intros [sub H] Hc. unfold Unsubscribe. munfold. cbn beta iota. rewrite H.
  rewrite (stopSubscription_some _ _ c Hc). cbn. by rewrite log_to_subscriptions.
Qed.

End Basics.

(** ** Cancellation *)

(** C6. [Unsubscribe id] on an id that is not registered returns the
    "doesn't not exist" error and changes nothing.  On a registered id it
    writes a stop frame exactly when a connection exists, returns the
    outcome of that write, and removes the entry whatever that outcome
    is; connection, context and running flag are untouched. *)
Theorem Unsubscribe_cancel {Variables} (E : @Env Variables) (s : State) (id : string) :
  (subscriptions s !! id = None ->
     Unsubscribe E id s = Ok (Some (not_found id)) s)
  /\ (is_Some (subscriptions s !! id) ->
      exists s',
        Unsubscribe E id s
        = Ok (match conn s with
              | Some c => e_write E (tick s) c (stop_frame id)
              | None => None
              end) s'
        /\ subscriptions s' = delete id (subscriptions s)
        /\ frames (trace s')
           = frames (trace s) ++ match conn s with
                                 | Some c => [(c, stop_frame id)]
                                 | None => []
                                 end
        /\ conn s' = conn s /\ context s' = context s
        /\ isRunning s' = isRunning s /\ cfg s' = cfg s).
Proof.
  split; [apply Unsubscribe_absent|].
  intros Hin. destruct (conn s) as [c|] eqn:Hc.
  - rewrite (Unsubscribe_conn E id s c Hin Hc). eexists. split; [reflexivity|].
    cbn. rewrite frames_app, log_to_frames, log_to_conn, log_to_context,
      log_to_isRunning, log_to_cfg. by rewrite Hc.
  - rewrite (Unsubscribe_no_conn E id s Hin Hc). eexists. split; [reflexivity|].
    cbn. by rewrite app_nil_r, Hc.
Qed.

Lemma Unsubscribe_cancel_witness :
  Unsubscribe env_stop_fails "Z" (st_running two_subs)
  = Ok (Some (not_found "Z")) (st_running two_subs)
  /\ exists s',
      Unsubscribe env_stop_fails "A" (st_running two_subs) = Ok (Some write_failed) s'
      /\ subscriptions s' = delete "A" two_subs
      /\ frames (trace s') = [(0, stop_frame "A")].
Proof.
  destruct (Unsubscribe_cancel env_stop_fails (st_running two_subs) "Z") as [H _].
  split; [apply H; vm_compute; reflexivity|].
  destruct (Unsubscribe_cancel env_stop_fails (st_running two_subs) "A") as [_ H'].
  destruct H' as (s' & Hs & Hd & Hf & _); [vm_compute; eauto|].
  exists s'. split; [exact Hs|]. split; [exact Hd|exact Hf].
Defined.


(** ** Reset on an engine that is not running *)

Section NotRunning.

Context {Variables : Type} (E : @Env Variables).
Implicit Types (s : @State Variables) (id : string).

Lemma cancel_eq s done :
  context s = Some done ->
  cancel s = Ok tt (add_event EvCancel (set_context (Some true) s)).
Proof. intros H. unfold cancel. munfold. cbn beta iota. by rewrite H. Qed.

Lemma cancel_nil s : context s = None -> cancel s = Panic s.
Proof. intros H. unfold cancel. munfold. cbn beta iota. by rewrite H. Qed.

Lemma Unsubscribe_isRunning id s r s' :
  Unsubscribe E id s = Ok r s' -> isRunning s' = isRunning s.
Proof.
  destruct (subscriptions s !! id) as [sub|] eqn:Hs.
  - destruct (conn s) as [c|] eqn:Hc.
    + rewrite (Unsubscribe_conn E id s c) by eauto. intros [= _ <-]. cbn.
      apply log_to_isRunning.
    + rewrite Unsubscribe_no_conn by eauto. by intros [= _ <-].
  - rewrite Unsubscribe_absent by done. by intros [= _ <-].
Qed.

Lemma cancel_isRunning s u s' : cancel s = Ok u s' -> isRunning s' = isRunning s.
Proof.
  destruct (context s) as [d|] eqn:Hc.
  - rewrite (cancel_eq s d Hc). intros ?. by simplify_eq.
  - by rewrite cancel_nil.
Qed.

Lemma Close_loop_isRunning ks s r s' :
  Close_loop E ks s = Ok r s' -> isRunning s' = isRunning s.
Proof.
  revert s. induction ks as [|k ks IH]; intros s; cbn [Close_loop].
  - by intros [= _ <-].
  - munfold. cbn beta iota. destruct (subscriptions s !! k) as [sub|]; [|apply IH].
    destruct (Unsubscribe E k s) as [[e|] s1| |] eqn:Hu; try done.
    + destruct (cancel s1) as [[] s2| |] eqn:Hcn; try done.
      intros [= _ <-]. rewrite (cancel_isRunning _ _ _ Hcn).
      eapply Unsubscribe_isRunning, Hu.
    + intros H. rewrite (IH _ H). eapply Unsubscribe_isRunning, Hu.
Qed.

Lemma terminate_isRunning s r s' :
  terminate E s = Ok r s' -> isRunning s' = isRunning s.
Proof.
  unfold terminate. munfold. cbn beta iota. destruct (conn s) as [c|] eqn:Hc.
  - rewrite printLog_eq, (conn_WriteJSON_eq _ _ _ c) by (by rewrite log_to_conn).
    intros [= _ <-]. cbn. apply log_to_isRunning.
  - by intros [= _ <-].
Qed.

Lemma conn_Close_isRunning s r s' :
  conn_Close E s = Ok r s' -> isRunning s' = isRunning s.
Proof.
  unfold conn_Close. munfold. cbn beta iota. destruct (conn s); [|done].
  by intros [= _ <-].
Qed.

Lemma Close_not_running s r s' : Close E s = Ok r s' -> isRunning s' = false.
Proof.
  unfold Close, range_keys. munfold. cbn beta iota.
  match goal with |- context [Close_loop E ?ks ?s0] =>
    destruct (Close_loop E ks s0) as [[e|] s1| |] eqn:Hl; try done end.
  - intros [= _ <-]. by rewrite (Close_loop_isRunning _ _ _ _ Hl).
  - pose proof (Close_loop_isRunning _ _ _ _ Hl) as H1. cbn in H1.
    destruct (conn s1) as [c|].
    + destruct (terminate E s1) as [rt s2| |] eqn:Ht; try done.
      destruct (conn_Close E s2) as [rc s3| |] eqn:Hcl; try done.
      destruct (cancel _) as [[] s4| |] eqn:Hcn; try done.
      intros [= _ <-]. rewrite (cancel_isRunning _ _ _ Hcn). cbn.
      rewrite (conn_Close_isRunning _ _ _ Hcl), (terminate_isRunning _ _ _ Ht).
      exact H1.
    + destruct (cancel s1) as [[] s4| |] eqn:Hcn; try done.
      intros [= _ <-]. by rewrite (cancel_isRunning _ _ _ Hcn).
Qed.

End NotRunning.

(** C10. [Reset] on an engine that is not running returns nil and leaves
    the whole state as it is: no frame is written, no flag of a
    subscription changes, the connection is kept, and [Run] is not entered
    (this holds for any fuel, zero included).  Whenever [Close] returns,
    the engine is not running, so a [Reset] that follows is this no-op. *)
Theorem Reset_not_running {Variables} (E : @Env Variables) (fuel : nat) (s : State) :
  (isRunning s = false -> Reset E fuel s = Ok None s)
  /\ (forall r s', Close E s = Ok r s' -> Reset E fuel s' = Ok None s').
Proof.
  assert (Hnr : forall s0 : State, isRunning s0 = false -> Reset E fuel s0 = Ok None s0).
  { intros s0 H. unfold Reset, Reset_with. munfold. cbn beta iota. by rewrite H. }
  split; [apply Hnr|].
  intros r s' H. apply Hnr. eapply Close_not_running, H.
Qed.

Lemma Reset_not_running_witness :
  Reset env_ok 5 (set_isRunning false (st_running two_subs))
  = Ok None (set_isRunning false (st_running two_subs))
  /\ exists r s', Close env_ok (st_running two_subs) = Ok r s'
       /\ Reset env_ok 5 s' = Ok None s'.
Proof.
  destruct (Reset_not_running env_ok 5 (set_isRunning false (st_running two_subs)))
    as [H _].
  split; [apply H; reflexivity|].
  destruct (Close env_ok (st_running two_subs)) as [r s'| |] eqn:Hc;
    [|vm_compute in Hc; discriminate..].
  exists r, s'. split; [reflexivity|].
  destruct (Reset_not_running env_ok 5 (st_running two_subs)) as [_ H'].
  apply (H' r s' Hc).
Defined.

(** ** Dispatch of inbound frames *)

Section Dispatch.

Context {Variables : Type} (E : @Env Variables).
Implicit Types (s : @State Variables) (message : OperationMessage).

Lemma findSubscription_eq ID s :
  findSubscription E ID s
  = Ok (match e_uuid_parse E ID with
        | Some id => subscriptions s !! id
        | None => None
        end) s.
Proof. unfold findSubscription. by destruct (e_uuid_parse E ID). Qed.

Lemma dispatch_data message :
  Type_ message = GqlData \/ Type_ message = GqlError ->
  dispatch E message = runSubHandler E message.
Proof. unfold dispatch. by intros [-> | ->]. Qed.

Lemma dispatch_complete message s :
  Type_ message = GqlComplete ->
  dispatch E message s
  = match Unsubscribe E (ID message) s with
    | Ok _ s' => Ok tt s'
    | Panic s' => Panic s'
    | OutOfFuel => OutOfFuel
    end.
Proof. unfold dispatch. by intros ->. Qed.

Lemma conn_ReadJSON_eq s c :
  conn s = Some c ->
  conn_ReadJSON E s
  = Ok (e_read E (tick s) c)
       (add_event (EvRead c (e_read E (tick s) c)) (after_interaction E s)).
Proof. intros Hc. unfold conn_ReadJSON. munfold. cbn beta iota. by rewrite Hc. Qed.

Lemma read_case_frame reset s c message :
  conn s = Some c -> e_read E (tick s) c = inr message ->
  read_case E reset s
  = match dispatch E message
            (add_event (EvRead c (inr message)) (after_interaction E s)) with
    | Ok _ s' => Ok None s'
    | Panic s' => Panic s'
    | OutOfFuel => OutOfFuel
    end.
Proof.
  intros Hc Hr. unfold read_case. munfold. cbn beta iota.
  by rewrite (conn_ReadJSON_eq s c Hc), Hr.
Qed.

End Dispatch.

(** C9. A [data] or [error] frame whose id [uuid.Parse] rejects is dropped:
    [runSubHandler] spawns no handler and leaves the whole state as it is,
    whatever the registry holds, the raw id as a key included; a pass of
    the pump that reads such a frame goes on to the next pass with nothing
    changed but the record of the read.  [findSubscription] consults the
    registry at the canonical form of the id only. *)
Theorem invalid_uuid_frame_dropped {Variables} (E : @Env Variables)
    (s : State) (message : OperationMessage) :
  e_uuid_parse E (ID message) = None ->
  Type_ message = GqlData \/ Type_ message = GqlError ->
  runSubHandler E message s = Ok tt s
  /\ dispatch E message s = Ok tt s
  /\ (forall reset c,
        conn s = Some c -> e_read E (tick s) c = inr message ->
        read_case E reset s
        = Ok None (add_event (EvRead c (inr message)) (after_interaction E s)))
  /\ (forall raw s0,
        findSubscription E raw s0
        = Ok (match e_uuid_parse E raw with
              | Some id => subscriptions s0 !! id
              | None => None
              end) s0).
Proof.
  intros Hp Hty.
  assert (Hrun : forall s0 : State, runSubHandler E message s0 = Ok tt s0).
  { intros s0. unfold runSubHandler. munfold. cbn beta iota.
    by rewrite findSubscription_eq, Hp. }
  split; [apply Hrun|]. split; [by rewrite dispatch_data|].
  split; [|apply findSubscription_eq].
  intros reset c Hc Hr. rewrite (read_case_frame E reset s c message Hc Hr).
  by rewrite dispatch_data, Hrun.
Qed.

Lemma invalid_uuid_frame_dropped_witness :
  let m := {| ID := "A"; Type_ := GqlData; Payload := [] |} in
  is_Some (subscriptions (st_running two_subs) !! ID m)
  /\ dispatch env_ok m (st_running two_subs) = Ok tt (st_running two_subs).
Proof.
  intros m. split; [vm_compute; eauto|].
  apply (invalid_uuid_frame_dropped env_ok (st_running two_subs) m).
  - reflexivity.
  - left. reflexivity.
Defined.

(** C7. Handling a [complete] frame for X removes X from the registry; a
    stop frame is written exactly when X was still registered (and a
    connection exists).  Handling it once more changes nothing at all.
    A pass of the pump that reads a [complete] frame never returns: it
    goes on to the next pass, whether X was registered or not, and puts
    nothing on the error channel. *)
Theorem complete_frame_idempotent {Variables} (E : @Env Variables)
    (s : State) (message : OperationMessage) :
  Type_ message = GqlComplete ->
  (exists s1,
     dispatch E message s = Ok tt s1
     /\ subscriptions s1 = delete (ID message) (subscriptions s)
     /\ frames (trace s1)
        = frames (trace s)
          ++ match subscriptions s !! ID message, conn s with
             | Some _, Some c => [(c, stop_frame (ID message))]
             | _, _ => []
             end
     /\ errorChan s1 = errorChan s
     /\ dispatch E message s1 = Ok tt s1)
  /\ (forall reset c,
        conn s = Some c -> e_read E (tick s) c = inr message ->
        exists s1,
          read_case E reset s = Ok None s1
          /\ subscriptions s1 = delete (ID message) (subscriptions s)
          /\ errorChan s1 = errorChan s).
Proof.
  intros Hty.
  assert (Hd : forall s0 : State, exists s1,
     dispatch E message s0 = Ok tt s1
     /\ subscriptions s1 = delete (ID message) (subscriptions s0)
     /\ frames (trace s1)
        = frames (trace s0)
          ++ match subscriptions s0 !! ID message, conn s0 with
             | Some _, Some c => [(c, stop_frame (ID message))]
             | _, _ => []
             end
     /\ errorChan s1 = errorChan s0).
  { intros s0. rewrite dispatch_complete by done.
    destruct (subscriptions s0 !! ID message) as [sub|] eqn:Hs.
    - destruct (conn s0) as [c|] eqn:Hc.
      + rewrite (Unsubscribe_conn E _ s0 c) by eauto. eexists.
        split; [reflexivity|]. cbn.
        by rewrite frames_app, log_to_frames, log_to_errorChan.
      + rewrite Unsubscribe_no_conn by eauto. eexists.
        split; [reflexivity|]. cbn. by rewrite app_nil_r.
    - rewrite Unsubscribe_absent by done. exists s0. rewrite app_nil_r.
      by rewrite delete_id. }
  split.
  - destruct (Hd s) as (s1 & H1 & H2 & H3 & H4). exists s1.
    repeat (split; [done|]).
    rewrite dispatch_complete by done.
    rewrite Unsubscribe_absent; [done|]. rewrite H2. apply lookup_delete_eq.
  - intros reset c Hc Hr. rewrite (read_case_frame E reset s c message Hc Hr).
    destruct (Hd (add_event (EvRead c (inr message)) (after_interaction E s)))
      as (s1 & H1 & H2 & _ & H4).
    exists s1. by rewrite H1.
Qed.

Lemma complete_frame_idempotent_witness :
  let m := {| ID := "A"; Type_ := GqlComplete; Payload := [] |} in
  exists s1,
    dispatch env_stop_fails m (st_running two_subs) = Ok tt s1
    /\ subscriptions s1 = delete "A" two_subs
    /\ frames (trace s1) = [(0, stop_frame "A")]
    /\ dispatch env_stop_fails m s1 = Ok tt s1.
Proof.
  intros m.
  destruct (complete_frame_idempotent env_stop_fails (st_running two_subs) m)
    as [(s1 & H1 & H2 & H3 & _ & H5) _]; [reflexivity|].
  exists s1. repeat (split; [assumption|]). assumption.
Defined.

(** ** Registration *)

Section Registration.

Context {Variables : Type} (E : @Env Variables).
Implicit Types (s : @State Variables) (id : string) (sub : @subscription Variables).

Lemma startSubscription_started id sub s :
  started sub = true -> startSubscription E id sub s = Ok (None, sub) s.
Proof. intros H. unfold startSubscription. by rewrite H. Qed.

Lemma startSubscription_marshal_error id sub s e :
  started sub = false -> e_marshal_start E (query sub) (variables sub) = inl e ->
  startSubscription E id sub s = Ok (Some e, sub) s.
Proof. intros H Hm. unfold startSubscription. by rewrite H, Hm. Qed.

Lemma startSubscription_send id sub s c p :
  started sub = false -> e_marshal_start E (query sub) (variables sub) = inr p ->
  conn s = Some c ->
  startSubscription E id sub s
  = Ok (match e_write E (tick s) c (start_frame id p) with
        | Some e => (Some e, sub)
        | None => (None, set_started true false sub)
        end)
       (add_event (EvWrite c (start_frame id p) (e_write E (tick s) c (start_frame id p)))
          (after_interaction E (log_to (LogMsg (start_frame id p)) GqlStart s))).
Proof.
  intros H Hm Hc. unfold startSubscription. rewrite H, Hm. munfold. cbn beta iota.
  rewrite printLog_eq, (conn_WriteJSON_eq _ _ _ c) by (by rewrite log_to_conn).
  rewrite log_to_tick. fold (start_frame id p).
  by destruct (e_write E (tick s) c (start_frame id p)).
Qed.

Lemma start_frames_ext c (m1 m2 : gmap string subscription) ks :
  (forall k, k ∈ ks -> m1 !! k = m2 !! k) ->
  start_frames E c m1 ks = start_frames E c m2 ks.
Proof.
  induction ks as [|k ks IH]; intros H; [done|]. unfold start_frames in *. cbn.
  rewrite (H k) by constructor. f_equal. apply IH. intros j Hj. apply H.
  by constructor.
Qed.

Lemma start_frames_cons c (m : gmap string subscription) k ks :
  start_frames E c m (k :: ks) = start_frames E c m [k] ++ start_frames E c m ks.
Proof. unfold start_frames. cbn. by rewrite app_nil_r. Qed.

Lemma startAll_loop_ok ks : forall s c,
  conn s = Some c -> starts_succeed E -> NoDup ks ->
  exists s' evs,
    startAll_loop E ks s = Ok None s'
    /\ conn s' = Some c /\ cfg s' = cfg s /\ isRunning s' = isRunning s
    /\ context s' = context s
    /\ (forall k, subscriptions s' !! k
                  = if decide (k ∈ ks) then mark_started <$> subscriptions s !! k
                    else subscriptions s !! k)
    /\ trace s' = trace s ++ evs
    /\ frames evs = start_frames E c (subscriptions s) ks
    /\ Forall (fun e => e <> EvNewContext) evs.
Proof.
  induction ks as [|k ks IH]; intros s c Hc Hok Hnd.
  - exists s, []. cbn. rewrite app_nil_r. repeat split; try done.
  - apply NoDup_cons in Hnd as [Hk Hnd]. cbn [startAll_loop]. munfold. cbn beta iota.
    destruct (subscriptions s !! k) as [v|] eqn:Hv.
    + (* the entry is visited *)
      assert (exists s1 evs1,
        startSubscription E k v s = Ok (None, mark_started v) s1
        /\ conn s1 = Some c /\ cfg s1 = cfg s /\ isRunning s1 = isRunning s
        /\ context s1 = context s /\ subscriptions s1 = subscriptions s
        /\ trace s1 = trace s ++ evs1
        /\ frames evs1 = start_frames E c (subscriptions s) [k]
        /\ Forall (fun e => e <> EvNewContext) evs1) as (s1 & evs1 & Hs & H1).
      { unfold mark_started, start_frames. cbn. rewrite Hv, app_nil_r.
        destruct (started v) eqn:Hst.
        - rewrite startSubscription_started by done. exists s, [].
          rewrite app_nil_r. repeat split; done.
        - destruct Hok as [Hm Hw]. destruct (Hm (query v) (variables v)) as [p Hp].
          rewrite (startSubscription_send k v s c p Hst Hp Hc), Hp.
          rewrite (Hw _ _ (start_frame k p)) by done.
          eexists. exists
            ((if should_log (cfg s) GqlStart
              then [EvLog (LogMsg (start_frame k p)) GqlStart] else [])
             ++ [EvWrite c (start_frame k p) None]).
          split; [reflexivity|]. cbn.
          rewrite log_to_conn, log_to_cfg, log_to_isRunning, log_to_context,
            log_to_subscriptions, log_to_trace, frames_app, <- app_assoc.
          repeat split; try done.
          + by destruct (should_log _ _).
          + apply Forall_app. split; [destruct (should_log _ _)|];
              repeat constructor; done. }
      destruct H1 as (Hc1 & Hcfg1 & Hr1 & Hctx1 & Hsub1 & Ht1 & Hf1 & Hn1).
      rewrite Hs. cbn.
      set (s2 := set_subscriptions (<[k:=mark_started v]> (subscriptions s1)) s1).
      destruct (IH s2 c Hc1 Hok Hnd)
        as (s' & evs2 & Hrun & Hc' & Hcfg' & Hr' & Hctx' & Hsub' & Ht' & Hf' & Hn').
      exists s', (evs1 ++ evs2). rewrite Hrun.
      split; [done|]. split; [done|]. split; [by rewrite Hcfg'|].
      split; [by rewrite Hr'|]. split; [by rewrite Hctx'|].
      split; [|split; [|split]].
      * intros j. rewrite Hsub'. subst s2. cbn. rewrite Hsub1.
        destruct (decide (j = k)) as [->|Hne].
        -- rewrite decide_False by done. rewrite decide_True by constructor.
           by rewrite lookup_insert_eq, Hv.
        -- rewrite lookup_insert_ne by done.
           destruct (decide (j ∈ ks)).
           ++ rewrite decide_True; [done|by constructor].
           ++ rewrite decide_False; [done|].
              intros [?|?]%elem_of_cons; done.
      * rewrite Ht'. subst s2. cbn. by rewrite Ht1, app_assoc.
      * rewrite frames_app, Hf1, Hf', (start_frames_cons c _ k ks). subst s2.
        f_equal. apply start_frames_ext.
        intros j Hj. cbn. rewrite Hsub1. apply lookup_insert_ne.
        intros ->. done.
      * by apply Forall_app.
    + destruct (IH s c Hc Hok Hnd)
        as (s' & evs & Hrun & Hc' & Hcfg' & Hr' & Hctx' & Hsub' & Ht' & Hf' & Hn').
      exists s', evs. repeat (split; [done|]). split; [|split; [done|split; [|done]]].
      * intros j. rewrite Hsub'. destruct (decide (j = k)) as [->|Hne].
        -- rewrite decide_False by done. rewrite decide_True by constructor.
           by rewrite Hv.
        -- destruct (decide (j ∈ ks)).
           ++ rewrite decide_True; [done|by constructor].
           ++ rewrite decide_False; [done|].
              intros [?|?]%elem_of_cons; done.
      * rewrite Hf'. unfold start_frames. cbn. by rewrite Hv.
Qed.

Lemma startAll_ok s c :
  conn s = Some c -> starts_succeed E -> range_ok E ->
  exists s' evs ks,
    startAll E s = Ok None s'
    /\ conn s' = Some c /\ cfg s' = cfg s /\ isRunning s' = isRunning s
    /\ context s' = context s
    /\ (forall k, subscriptions s' !! k = mark_started <$> subscriptions s !! k)
    /\ trace s' = trace s ++ evs
    /\ ks ≡ₚ elements (dom (subscriptions s))
    /\ frames evs = start_frames E c (subscriptions s) ks
    /\ Forall (fun e => e <> EvNewContext) evs.
Proof.
  intros Hc Hok Hr. unfold startAll, range_keys. munfold. cbn beta iota.
  set (ks := e_range E (tick s) (elements (dom (subscriptions s)))).
  assert (Hp : ks ≡ₚ elements (dom (subscriptions s))) by apply Hr.
  assert (Hnd : NoDup ks) by (rewrite Hp; apply NoDup_elements).
  destruct (startAll_loop_ok ks (after_interaction E s) c Hc Hok Hnd)
    as (s' & evs & Hrun & Hc' & Hcfg' & Hr' & Hctx' & Hsub' & Ht' & Hf' & Hn').
  exists s', evs, ks. unfold after_interaction in *. cbn in *.
  split; [exact Hrun|]. repeat (split; [done|]).
  split; [|done]. intros k. rewrite Hsub'. destruct (decide (k ∈ ks)) as [|Hk]; [done|].
  rewrite Hp, elem_of_elements, elem_of_dom in Hk.
  destruct (subscriptions s !! k) eqn:Hl; [|done]. destruct Hk. eauto.
Qed.

End Registration.

(** C5. [createSubscription] takes its id from the uuid generator.  On an
    engine that is running and connected it sends the start frame at once:
    if that fails (the payload cannot be marshalled or the write fails) the
    error is returned with the empty id and the registry is unchanged; if
    it succeeds the record is inserted under the new id, marked started.
    On an engine that is not running (or has no connection) no frame is
    written and the record is inserted under the new id, not started; the
    loop that opens [Run] then sends its start frame, before the engine is
    marked running, provided no start frame fails. *)
Theorem createSubscription_register {Variables} (E : @Env Variables) (s : State)
    (q : string) (vars : Variables) (h : OperationMessage -> option GoError) :
  let id := e_uuid E (tick s) in
  (forall c, isRunning s = true -> conn s = Some c ->
     match start_result E q vars (S (tick s)) c id with
     | Some e =>
         exists s',
           createSubscription E q vars h s = Ok (""%string, Some e) s'
           /\ subscriptions s' = subscriptions s
     | None =>
         exists s' p,
           e_marshal_start E q vars = inr p
           /\ createSubscription E q vars h s = Ok (id, None) s'
           /\ subscriptions s'
              = <[id := set_started true false (new_sub q vars h)]> (subscriptions s)
           /\ frames (trace s') = frames (trace s) ++ [(c, start_frame id p)]
     end)
  /\ (isRunning s = false \/ conn s = None ->
      exists s',
        createSubscription E q vars h s = Ok (id, None) s'
        /\ subscriptions s' = <[id := new_sub q vars h]> (subscriptions s)
        /\ trace s' = trace s /\ conn s' = conn s /\ isRunning s' = isRunning s)
  /\ (forall s2 c sub,
        subscriptions s2 !! id = Some sub -> started sub = false ->
        conn s2 = Some c -> starts_succeed E -> range_ok E ->
        exists s3 evs p,
          startAll E s2 = Ok None s3
          /\ trace s3 = trace s2 ++ evs
          /\ e_marshal_start E (query sub) (variables sub) = inr p
          /\ (c, start_frame id p) ∈ frames evs
          /\ subscriptions s3 !! id = Some (set_started true false sub)
          /\ isRunning s3 = isRunning s2).
Proof.
  intros id. split; [|split].
  - intros c Hr Hc. unfold createSubscription, start_result. munfold.
    cbn beta iota. psimpl. rewrite Hr, Hc, bool_decide_true by done. cbn [andb].
    fold id. fold (new_sub q vars h).
    destruct (e_marshal_start E q vars) as [e|p] eqn:Hm.
    + rewrite (startSubscription_marshal_error E id _ _ e) by done. cbn.
      eexists. split; reflexivity.
    + rewrite (startSubscription_send E id _ _ c p) by done. psimpl.
      destruct (e_write E (S (tick s)) c (start_frame id p)) as [e|]; cbn.
      * eexists. split; [reflexivity|]. cbn. by rewrite log_to_subscriptions.
      * eexists. exists p. split; [done|]. split; [reflexivity|]. cbn.
        rewrite log_to_subscriptions. split; [done|].
        by rewrite frames_app, log_to_frames.
  - intros Hnr. unfold createSubscription. munfold. cbn beta iota. psimpl. fold id.
    assert (isRunning s && bool_decide (conn s ≠ None) = false) as ->.
    { destruct Hnr as [-> | ->]; [done|]. by rewrite andb_false_r. }
    cbn. eexists. split; [reflexivity|]. done.
  - intros s2 c sub Hs Hst Hc Hok Hr.
    destruct (startAll_ok E s2 c Hc Hok Hr)
      as (s3 & evs & ks & Hrun & _ & _ & Hr3 & _ & Hsub & Ht & Hp & Hf & _).
    destruct Hok as [Hm Hw]. destruct (Hm (query sub) (variables sub)) as [p Hp'].
    exists s3, evs, p. repeat (split; [done|]). split; [|split; [|done]].
    + rewrite Hf. unfold start_frames. apply list_elem_of_In, in_flat_map.
      exists id. split.
      * apply list_elem_of_In. rewrite Hp, elem_of_elements, elem_of_dom. eauto.
      * rewrite Hs, Hst, Hp'. by left.
    + rewrite Hsub, Hs. cbn. unfold mark_started. by rewrite Hst.
Qed.

Lemma env_ok_starts_succeed : starts_succeed env_ok.
Proof. split; [intros; by exists []|done]. Qed.

Lemma env_ok_range_ok : range_ok env_ok.
Proof. intros n l. reflexivity. Qed.

Lemma createSubscription_register_witness :
  let id := "6ba7b810-9dad-11d1-80b4-00c04fd430c8"%string in
  (exists s',
     createSubscription env_start_fails "subscription { tick }" tt handler_ok
       (st_running ∅) = Ok (""%string, Some write_failed) s'
     /\ subscriptions s' = ∅)
  /\ (exists s',
        createSubscription env_ok "subscription { tick }" tt handler_ok (st_new ∅)
        = Ok (id, None) s'
        /\ subscriptions s' = <[id := sub0 false false]> ∅
        /\ trace s' = [])
  /\ (exists s3 evs,
        startAll env_ok (st_running (<[id := sub0 false false]> ∅)) = Ok None s3
        /\ trace s3 = evs
        /\ (0, start_frame id []) ∈ frames evs
        /\ subscriptions s3 !! id = Some (sub0 true false)).
Proof.
  intros id. split; [|split].
  - destruct (createSubscription_register env_start_fails (st_running ∅)
                "subscription { tick }" tt handler_ok) as (H & _ & _).
    exact (H 0 eq_refl eq_refl).
  - destruct (createSubscription_register env_ok (st_new ∅)
                "subscription { tick }" tt handler_ok) as (_ & H & _).
    destruct H as (s' & H1 & H2 & H3 & _); [by left|].
    exists s'. split; [exact H1|]. split; [exact H2|exact H3].
  - destruct (createSubscription_register env_ok (st_new ∅)
                "subscription { tick }" tt handler_ok) as (_ & _ & H).
    destruct (H (st_running (<[id := sub0 false false]> ∅)) 0 (sub0 false false))
      as (s3 & evs & p & H1 & H2 & H3 & H4 & H5 & _).
    + reflexivity.
    + reflexivity.
    + reflexivity.
    + exact env_ok_starts_succeed.
    + exact env_ok_range_ok.
    + exists s3, evs. split; [exact H1|]. split; [exact H2|].
      injection H3 as <-. split; [exact H4|exact H5].
Defined.

(** ** The pump: read errors and the select *)

Section Pump.

Context {Variables : Type} (E : @Env Variables).
Implicit Types (s : @State Variables).

Lemma read_case_error reset s c err :
  conn s = Some c -> e_read E (tick s) c = inl err ->
  read_case E reset s
  = (if is_EOF err then returning reset
     else if bool_decide (err_close err = StatusNormalClosure) then mret (Some None)
     else if negb (bool_decide (err_close err = (-1)%Z)) then
       fun s1 => returning reset
                   (log_to (LogStr (err_text err +:+ ". Retry connecting...")) GqlInternal s1)
     else apply_onError err)
      (add_event (EvRead c (inl err)) (after_interaction E s)).
Proof.
  intros Hc Hr. unfold read_case. munfold. cbn beta iota.
  rewrite (conn_ReadJSON_eq E s c Hc), Hr. fold (is_EOF err).
  destruct (is_EOF err); [done|].
  destruct (bool_decide (err_close err = StatusNormalClosure)); [done|].
  destruct (negb _); [|done]. by rewrite printLog_eq.
Qed.

Lemma apply_onError_eq e s :
  apply_onError e s
  = match onError (cfg s) with
    | None => Ok None s
    | Some f =>
        match f e with
        | Some err => Ok (Some (Some err)) (add_event (EvOnError e (Some err)) s)
        | None => Ok None (add_event (EvOnError e None) s)
        end
    end.
Proof.
  unfold apply_onError. munfold. cbn beta iota.
  destruct (onError (cfg s)) as [f|]; [|done]. by destruct (f e).
Qed.

Lemma Run_iteration_default reset s :
  context s = Some false -> errorChan s = [] ->
  Run_iteration E reset s = read_case E reset s.
Proof.
  intros Hctx Hq. unfold Run_iteration, select_case. munfold. cbn beta iota.
  by rewrite Hctx, Hq.
Qed.

End Pump.

(** C4, as stated, fails: a close frame with the normal-closure status
    whose reason contains EOF is taken by the end-of-stream test, which
    comes first, and the pass calls [Reset] (here the server is gone, and
    the re-entered [Run] gives up with the retry-timeout error). *)
Lemma graceful_closure_counterexample :
  let env := env_gone normal_closure_EOF in
  err_close normal_closure_EOF = StatusNormalClosure
  /\ (exists s',
        read_case env (Reset env 6) (st_running two_subs)
        = Ok (Some (Some (errorf "retry timeout. exiting"))) s'
        /\ conn s' = None /\ trace s' !! 7 = Some EvNewContext)
  /\ ~ graceful_closure_is_clean env.
Proof.
  intros env. split; [reflexivity|]. split.
  - eexists. split; [vm_compute; reflexivity|]. split; reflexivity.
  - intros H.
    specialize (H (Reset env 6) (st_running two_subs) 0
                  normal_closure_EOF eq_refl eq_refl eq_refl).
    vm_compute in H. discriminate H.
Qed.

(** C4, amended. A read error inside the loop is handled by the first test
    that matches, in this order: (1) the error is io.EOF or its text
    contains EOF: the pass returns what [Reset] returns; (2) otherwise,
    its close status is the normal closure: the pass returns nil and
    nothing else happens; (3) otherwise, it has a close status (not -1):
    the error is logged and the pass returns what [Reset] returns;
    (4) otherwise the error goes to the error policy, if there is one: the
    pass returns the verdict of the policy when it is not nil, and the loop
    goes on when it is nil or when there is no policy. *)
Theorem read_error_handling {Variables} (E : @Env Variables)
    (reset : M (option GoError)) (s : State) (c : ConnId) (err : GoError) :
  context s = Some false -> errorChan s = [] ->
  conn s = Some c -> e_read E (tick s) c = inl err ->
  let s1 := add_event (EvRead c (inl err)) (after_interaction E s) in
  (is_EOF err = true -> Run_iteration E reset s = returning reset s1)
  /\ (is_EOF err = false -> err_close err = StatusNormalClosure ->
      Run_iteration E reset s = Ok (Some None) s1)
  /\ (is_EOF err = false -> err_close err <> StatusNormalClosure ->
      err_close err <> (-1)%Z ->
      Run_iteration E reset s
      = returning reset
          (log_to (LogStr (err_text err +:+ ". Retry connecting...")) GqlInternal s1))
  /\ (is_EOF err = false -> err_close err = (-1)%Z ->
      Run_iteration E reset s
      = match onError (cfg s) with
        | None => Ok None s1
        | Some policy =>
            match policy err with
            | Some verdict =>
                Ok (Some (Some verdict)) (add_event (EvOnError err (Some verdict)) s1)
            | None => Ok None (add_event (EvOnError err None) s1)
            end
        end).
Proof.
  intros Hctx Hq Hc Hr s1.
  rewrite (Run_iteration_default E reset s Hctx Hq).
  rewrite (read_case_error E reset s c err Hc Hr). fold s1.
  split; [by intros ->|]. split; [|split].
  - intros -> H. by rewrite bool_decide_true.
  - intros -> H1 H2. rewrite bool_decide_false by done.
    by rewrite bool_decide_false.
  - intros -> H. rewrite bool_decide_false by (by rewrite H).
    rewrite bool_decide_true by done. cbn [negb]. by rewrite apply_onError_eq.
Qed.

Lemma read_error_handling_witness :
  let env := env_gone normal_closure in
  let s := st_running two_subs in
  Run_iteration env (Reset env 6) s
  = Ok (Some None) (add_event (EvRead 0 (inl normal_closure)) (after_interaction env s)).
Proof.
  intros env s.
  destruct (read_error_handling env (Reset env 6) s 0 normal_closure
              eq_refl eq_refl eq_refl eq_refl) as (_ & H & _).
  apply H; reflexivity.
Defined.

Section Select.

Context {Variables : Type} (E : @Env Variables).
Implicit Types (s : @State Variables).

Lemma select_case_eq s done :
  context s = Some done ->
  select_case E s
  = match done, errorChan s with
    | true, e :: q =>
        if e_select E (tick s) then Ok CaseDone (after_interaction E s)
        else Ok (CaseError e) (set_errorChan q (after_interaction E s))
    | true, [] => Ok CaseDone s
    | false, e :: q => Ok (CaseError e) (set_errorChan q s)
    | false, [] => Ok CaseDefault s
    end.
Proof.
  intros H. unfold select_case. munfold. cbn beta iota. rewrite H.
  destruct done, (errorChan s) as [|e q]; try done.
  by destruct (e_select E (tick s)).
Qed.

End Select.

(** C8, as stated, fails: with the context cancelled and a handler error
    pending, a select that picks the receive consumes the error; with an
    error policy that returns the error, the pass returns that error
    where the cancellation would have returned nil. *)
Lemma select_priority_counterexample :
  ~ cancellation_first env_pick_error
  /\ select_case env_pick_error st_cancelled_with_error
     = Ok (CaseError handler_failed)
          (set_errorChan [] (after_interaction env_pick_error st_cancelled_with_error))
  /\ forall reset,
       Run_iteration env_pick_error reset st_cancelled_with_error
       = Ok (Some (Some handler_failed))
            (add_event (EvOnError handler_failed (Some handler_failed))
               (set_errorChan []
                  (after_interaction env_pick_error st_cancelled_with_error))).
Proof.
  split; [|split; [reflexivity|intros reset; reflexivity]]. intros H.
  destruct (H st_cancelled_with_error handler_failed [] eq_refl eq_refl)
    as (s' & Hs & _).
  vm_compute in Hs. discriminate Hs.
Qed.

(** C8, amended. The select of one pass takes exactly one case and
    consumes at most the head of the error channel: with nothing ready it
    takes the default case, the socket read; with only the context
    cancelled it takes the cancellation; with only an error pending it
    receives that error; with both ready it takes either of the two, as
    the scheduler decides.  So the socket is read only when the context
    is not cancelled and no error is pending: a pass that finds a
    cancelled context or a pending error returns or goes on without any
    read. *)
Theorem select_case_priority {Variables} (E : @Env Variables)
    (s : State) (done : bool) :
  context s = Some done ->
  exists k s',
    select_case E s = Ok k s'
    /\ trace s' = trace s /\ conn s' = conn s
    /\ subscriptions s' = subscriptions s /\ context s' = context s
    /\ match k with
       | CaseDone => done = true /\ errorChan s' = errorChan s
       | CaseError e => errorChan s = e :: errorChan s'
       | CaseDefault => done = false /\ errorChan s = [] /\ s' = s
       end
    /\ (done = false -> errorChan s = [] -> k = CaseDefault)
    /\ (done = true -> errorChan s = [] -> k = CaseDone)
    /\ (done = false -> forall e q, errorChan s = e :: q -> k = CaseError e)
    /\ (done = true -> forall e q, errorChan s = e :: q ->
        k = if e_select E (tick s) then CaseDone else CaseError e)
    /\ (k <> CaseDefault -> forall reset,
        exists r s'' evs,
          Run_iteration E reset s = Ok r s''
          /\ trace s'' = trace s ++ evs
          /\ Forall (fun e => is_read e = false) evs).
Proof.
  intros Hctx. rewrite (select_case_eq E s done Hctx).
  assert (Hit : forall reset, Run_iteration E reset s
            = match select_case E s with
              | Ok CaseDone s' => Ok (Some None) s'
              | Ok (CaseError e) s' => apply_onError e s'
              | Ok CaseDefault s' => read_case E reset s'
              | Panic s' => Panic s'
              | OutOfFuel => OutOfFuel
              end).
  { intros reset. unfold Run_iteration. munfold.
    destruct (select_case E s) as [[| |]| |]; reflexivity. }
  assert (Hpol : forall e (s0 : @State Variables), trace s0 = trace s ->
            exists r s'' evs, apply_onError e s0 = Ok r s''
              /\ trace s'' = trace s ++ evs
              /\ Forall (fun e => is_read e = false) evs).
  { intros e s0 Ht. rewrite apply_onError_eq.
    destruct (onError (cfg s0)) as [f|].
    - destruct (f e) as [g|].
      + exists (Some (Some g)), (add_event (EvOnError e (Some g)) s0),
          [EvOnError e (Some g)].
        psimpl. rewrite Ht. by repeat constructor.
      + exists None, (add_event (EvOnError e None) s0), [EvOnError e None].
        psimpl. rewrite Ht. by repeat constructor.
    - exists None, s0, []. rewrite app_nil_r. by repeat split. }
  destruct done, (errorChan s) as [|e q] eqn:Hq.
  - exists CaseDone, s. split_and!; try done.
    intros _ reset. rewrite Hit, (select_case_eq E s true Hctx), Hq.
    exists (Some None), s, []. rewrite app_nil_r. by repeat split.
  - destruct (e_select E (tick s)) eqn:Hsel.
    + exists CaseDone, (after_interaction E s). psimpl. rewrite Hq.
      split_and!; try done;
        try (intros _ ? ? ?; simplify_eq; by rewrite ?Hsel).
      intros _ reset. rewrite Hit, (select_case_eq E s true Hctx), Hq, Hsel.
      exists (Some None), (after_interaction E s), []. psimpl.
      rewrite app_nil_r. by repeat split.
    + exists (CaseError e), (set_errorChan q (after_interaction E s)). psimpl.
      split_and!; try done;
        try (intros _ ? ? ?; simplify_eq; by rewrite ?Hsel).
      intros _ reset. rewrite Hit, (select_case_eq E s true Hctx), Hq, Hsel.
      by apply Hpol.
  - exists CaseDefault, s. split_and!; done.
  - exists (CaseError e), (set_errorChan q s). psimpl.
    split_and!; try done;
        try (intros _ ? ? ?; simplify_eq; by rewrite ?Hsel).
    intros _ reset. rewrite Hit, (select_case_eq E s false Hctx), Hq.
    by apply Hpol.
Qed.

Lemma select_case_priority_witness :
  exists s',
    select_case env_ok st_cancelled_with_error = Ok CaseDone s'
    /\ errorChan s' = [handler_failed] /\ trace s' = [].
Proof.
  destruct (select_case_priority env_ok st_cancelled_with_error true eq_refl)
    as (k & s' & Hs & Ht & _ & _ & _ & Hk & _ & _ & _ & Hboth & _).
  specialize (Hboth eq_refl handler_failed [] eq_refl). cbn in Hboth. subst k.
  exists s'. split; [exact Hs|]. destruct Hk as [_ Hk]. split; [exact Hk|exact Ht].
Defined.

(** ** Close *)

Section Teardown.

Context {Variables : Type} (E : @Env Variables).
Implicit Types (s : @State Variables) (id : string).

Lemma terminate_conn s c :
  conn s = Some c ->
  terminate E s
  = Ok (e_write E (tick s) c terminate_frame)
       (add_event (EvWrite c terminate_frame (e_write E (tick s) c terminate_frame))
          (after_interaction E
             (log_to (LogMsg terminate_frame) GqlConnectionTerminate s))).
Proof.
  intros Hc. unfold terminate. munfold. cbn beta iota. rewrite Hc.
  rewrite printLog_eq, (conn_WriteJSON_eq _ _ _ c) by (by rewrite log_to_conn).
  by rewrite log_to_tick.
Qed.

Lemma conn_Close_conn s c :
  conn s = Some c ->
  conn_Close E s
  = Ok (e_close E (tick s) c)
       (add_event (EvClose c (e_close E (tick s) c)) (after_interaction E s)).
Proof. intros Hc. unfold conn_Close. munfold. cbn beta iota. by rewrite Hc. Qed.

Lemma Close_loop_spec ks : forall s,
  is_Some (context s) -> NoDup ks ->
  (forall k, k ∈ ks -> is_Some (subscriptions s !! k)) ->
  exists r s' evs,
    Close_loop E ks s = Ok r s'
    /\ cfg s' = cfg s /\ isRunning s' = isRunning s /\ conn s' = conn s
    /\ trace s' = trace s ++ evs
    /\ Forall (fun e => e <> EvNewContext) evs
    /\ subscriptions s' ⊆ subscriptions s
    /\ match r with
       | None =>
           context s' = context s
           /\ (forall k, subscriptions s' !! k
                         = if decide (k ∈ ks) then None else subscriptions s !! k)
           /\ frames evs = match conn s with
                           | Some c => (fun k => (c, stop_frame k)) <$> ks
                           | None => []
                           end
           /\ (conn s = None -> evs = [])
       | Some e =>
           context s' = Some true
           /\ exists c id t,
                conn s = Some c /\ is_Some (subscriptions s !! id)
                /\ subscriptions s' !! id = None
                /\ e_write E t c (stop_frame id) = Some e
                /\ EvWrite c (stop_frame id) (Some e) ∈ evs
       end.
Proof.
  induction ks as [|k ks IH]; intros s Hctx Hnd Hin.
  - exists None, s, []. cbn. rewrite app_nil_r. split_and!; try done.
    by destruct (conn s).
  - apply NoDup_cons in Hnd as [Hk Hnd].
    assert (Hsk : is_Some (subscriptions s !! k)) by (apply Hin; constructor).
    cbn [Close_loop]. munfold. cbn beta iota.
    destruct Hsk as [v Hv]. rewrite Hv.
    assert (Hin' : forall s1 : State,
              subscriptions s1 = delete k (subscriptions s) ->
              forall j, j ∈ ks -> is_Some (subscriptions s1 !! j)).
    { intros s1 Hs1 j Hj. rewrite Hs1, lookup_delete_ne by (by intros ->).
      apply Hin. by constructor. }
    assert (Hlook : forall (s1 s' : State),
              subscriptions s1 = delete k (subscriptions s) ->
              (forall j, subscriptions s' !! j
                         = if decide (j ∈ ks) then None else subscriptions s1 !! j) ->
              forall j, subscriptions s' !! j
                        = if decide (j ∈ k :: ks) then None else subscriptions s !! j).
    { intros s1 s' Hs1 Hl j. rewrite Hl, Hs1. destruct (decide (j = k)) as [->|Hne].
      - rewrite decide_False by done. rewrite decide_True by constructor.
        apply lookup_delete_eq.
      - rewrite lookup_delete_ne by done. destruct (decide (j ∈ ks)).
        + rewrite decide_True; [done|by constructor].
        + rewrite decide_False; [done|]. intros [?|?]%elem_of_cons; done. }
    destruct (conn s) as [c|] eqn:Hc.
    + rewrite (Unsubscribe_conn E k s c) by eauto.
      set (s1 := set_subscriptions _ _).
      assert (Hs1 : subscriptions s1 = delete k (subscriptions s))
        by (subst s1; psimpl; by rewrite ?log_to_subscriptions).
      assert (Ht1 : trace s1
                = trace s ++ (if should_log (cfg s) GqlStop
                              then [EvLog (LogMsg (stop_frame k)) GqlStop] else [])
                    ++ [EvWrite c (stop_frame k) (e_write E (tick s) c (stop_frame k))])
        by (subst s1; psimpl; by rewrite log_to_trace, <- app_assoc).
      assert (Hc1 : conn s1 = Some c)
        by (subst s1; psimpl; by rewrite log_to_conn).
      assert (Hctx1 : context s1 = context s)
        by (subst s1; psimpl; by rewrite log_to_context).
      assert (Hcfg1 : cfg s1 = cfg s) by (subst s1; psimpl; by rewrite log_to_cfg).
      assert (Hr1 : isRunning s1 = isRunning s)
        by (subst s1; psimpl; by rewrite log_to_isRunning).
      assert (Hn1 : Forall (fun e => e <> EvNewContext)
                ((if should_log (cfg s) GqlStop
                  then [EvLog (LogMsg (stop_frame k)) GqlStop] else [])
                 ++ [EvWrite c (stop_frame k) (e_write E (tick s) c (stop_frame k))])).
      { apply Forall_app. split; [destruct (should_log _ _)|]; by repeat constructor. }
      destruct (e_write E (tick s) c (stop_frame k)) as [e|] eqn:Hw.
      * (* the stop frame fails: cancel and return *)
        destruct Hctx as [d Hd]. rewrite (cancel_eq s1 d) by (by rewrite Hctx1).
        eexists (Some e), _, (_ ++ [EvCancel]). split; [reflexivity|]. psimpl.
        rewrite Ht1, Hs1, <- app_assoc.
        split_and!; try done.
        -- apply Forall_app. split; [done|by repeat constructor].
        -- apply delete_subseteq.
        -- exists c, k, (tick s). split_and!; eauto.
           ++ apply lookup_delete_eq.
           ++ rewrite !elem_of_app. left. right. by constructor.
      * destruct (IH s1) as (r & s' & evs & Hrun & Hcfg' & Hr' & Hc' & Ht' & Hn' & Hsub' & Hres);
          [by rewrite Hctx1|done|by apply Hin'|].
        exists r, s', (((if should_log (cfg s) GqlStop
                         then [EvLog (LogMsg (stop_frame k)) GqlStop] else [])
                        ++ [EvWrite c (stop_frame k) None]) ++ evs).
        rewrite Hrun, Hcfg', Hr', Hc', Ht', Ht1, <- !app_assoc.
        split_and!; try done.
        -- rewrite app_assoc. by apply Forall_app.
        -- etrans; [exact Hsub'|]. rewrite Hs1. apply delete_subseteq.
        -- destruct r as [e|].
           ++ destruct Hres as (Hctx' & c' & id & t & Hc2 & Hid & Hgone & Hwf & Hev).
              split; [done|]. exists c', id, t. split_and!; try done.
              ** by rewrite <- Hc1.
              ** destruct Hid as [x Hx]. rewrite Hs1 in Hx.
                 apply lookup_delete_Some in Hx as [_ Hx]. eauto.
              ** rewrite !elem_of_app. by right; right.
           ++ destruct Hres as (Hctx' & Hl & Hf & _).
              split_and!.
              ** by rewrite Hctx'.
              ** by apply (Hlook s1).
              ** rewrite !frames_app, Hf, Hc1. cbn.
                 by destruct (should_log _ _).
              ** done.
    + rewrite Unsubscribe_no_conn by eauto.
      set (s1 := set_subscriptions _ _).
      destruct (IH s1) as (r & s' & evs & Hrun & Hcfg' & Hr' & Hc' & Ht' & Hn' & Hsub' & Hres);
        [done|done|by apply Hin'|].
      exists r, s', evs. rewrite Hrun. subst s1. psimpl. rewrite Hc in *.
      split_and!; try done.
      * etrans; [exact Hsub'|]. apply delete_subseteq.
      * destruct r as [e|].
        -- by destruct Hres as (_ & c' & id & t & ? & _).
        -- destruct Hres as (Hctx' & Hl & Hf & He). split_and!; try done.
           by apply (Hlook (set_subscriptions (delete k (subscriptions s)) s)).
Qed.

(** The loop of [Close] on a connection, stop frame by stop frame: the
    write for the key at position [i] is the interaction [tick s + i], and
    the first write that fails ends the loop. *)
Lemma Close_loop_exact ks : forall s c r s',
  conn s = Some c -> NoDup ks ->
  (forall k, k ∈ ks -> is_Some (subscriptions s !! k)) ->
  Close_loop E ks s = Ok r s' ->
  exists evs,
    trace s' = trace s ++ evs
    /\ ((forall i k, ks !! i = Some k ->
           e_write E (tick s + i) c (stop_frame k) = None) ->
        r = None /\ tick s' = tick s + length ks)
    /\ (forall visited k rest e,
          ks = visited ++ k :: rest ->
          (forall i j, visited !! i = Some j ->
             e_write E (tick s + i) c (stop_frame j) = None) ->
          e_write E (tick s + length visited) c (stop_frame k) = Some e ->
          r = Some e
          /\ (forall j, subscriptions s' !! j
                        = if decide (j ∈ visited ++ [k]) then None
                          else subscriptions s !! j)
          /\ frames evs = (fun j => (c, stop_frame j)) <$> (visited ++ [k])
          /\ Forall (fun ev => is_close ev = false) evs).
Proof.
  induction ks as [|k0 ks IH]; intros s c r s' Hc Hnd Hin.
  - cbn [Close_loop]. munfold. intros [= <- <-]. exists []. rewrite app_nil_r.
    split; [done|]. split.
    + intros _. split; [done|]. cbn. lia.
    + intros visited k rest e Hks. by destruct visited.
  - apply NoDup_cons in Hnd as [Hk0 Hnd].
    destruct (Hin k0) as [v Hv]; [constructor|].
    cbn [Close_loop]. munfold. cbn beta iota. rewrite Hv.
    rewrite (Unsubscribe_conn E k0 s c) by eauto.
    set (s1 := set_subscriptions _ _).
    assert (Hs1 : subscriptions s1 = delete k0 (subscriptions s))
      by (subst s1; psimpl; by rewrite ?log_to_subscriptions).
    assert (Ht1 : trace s1
              = trace s ++ (if should_log (cfg s) GqlStop
                            then [EvLog (LogMsg (stop_frame k0)) GqlStop] else [])
                  ++ [EvWrite c (stop_frame k0) (e_write E (tick s) c (stop_frame k0))])
      by (subst s1; psimpl; by rewrite log_to_trace, <- app_assoc).
    assert (Hc1 : conn s1 = Some c) by (subst s1; psimpl; by rewrite log_to_conn).
    assert (Htk1 : tick s1 = S (tick s)) by (subst s1; psimpl; by rewrite log_to_tick).
    assert (Hlog : Forall (fun ev => is_close ev = false)
              (if should_log (cfg s) GqlStop
               then [EvLog (LogMsg (stop_frame k0)) GqlStop] else []))
      by (destruct (should_log _ _); by repeat constructor).
    destruct (e_write E (tick s) c (stop_frame k0)) as [e0|] eqn:Hw; cbn beta iota.
    + (* the stop frame fails *)
      destruct (context s1) as [d|] eqn:Hd; [|by rewrite cancel_nil].
      rewrite (cancel_eq s1 d) by done. intros [= <- <-].
      eexists. split; [psimpl; rewrite Ht1, <- !app_assoc; reflexivity|]. split.
      * intros Hall. specialize (Hall 0 k0 eq_refl).
        rewrite Nat.add_0_r in Hall. congruence.
      * intros visited k rest e Hks Hvis Hk. destruct visited as [|j0 v'].
        -- cbn in Hks. injection Hks as <- <-. cbn in Hk.
           rewrite Nat.add_0_r, Hw in Hk. injection Hk as <-.
           split; [done|]. psimpl. rewrite Hs1. split; [|split].
           ++ intros j. cbn. destruct (decide (j = k0)) as [->|Hne].
              ** rewrite decide_True by constructor. apply lookup_delete_eq.
              ** rewrite decide_False by (by intros ?%list_elem_of_singleton).
                 by rewrite lookup_delete_ne.
           ++ rewrite !frames_app. cbn. by destruct (should_log _ _).
           ++ apply Forall_app. split; [done|]. by repeat constructor.
        -- cbn in Hks. injection Hks as Hj _. subst j0.
           specialize (Hvis 0 k0 eq_refl). rewrite Nat.add_0_r, Hw in Hvis. done.
    + (* the stop frame is written: on to the next key *)
      intros Hrun.
      destruct (IH s1 c r s' Hc1 Hnd) as (evs & Ht & Hall & Hstop); [|exact Hrun|].
      { intros j Hj. rewrite Hs1, lookup_delete_ne by (by intros ->).
        apply Hin. by constructor. }
      exists (((if should_log (cfg s) GqlStop
                then [EvLog (LogMsg (stop_frame k0)) GqlStop] else [])
               ++ [EvWrite c (stop_frame k0) None]) ++ evs).
      split; [by rewrite Ht, Ht1, <- !app_assoc|]. split.
      * intros Hok. destruct Hall as [-> Htk].
        { intros i k Hik. rewrite Htk1.
          replace (S (tick s) + i) with (tick s + S i) by lia. by apply Hok. }
        split; [done|]. rewrite Htk, Htk1. cbn. lia.
      * intros visited k rest e Hks Hvis Hk. destruct visited as [|j0 v'].
        -- cbn in Hks. injection Hks as <- _. cbn in Hk.
           rewrite Nat.add_0_r, Hw in Hk. done.
        -- cbn in Hks. injection Hks as Hj Hks. subst j0.
           destruct (Hstop v' k rest e Hks) as (Hr & Hl & Hf & Hcl).
           { intros i j Hij. rewrite Htk1.
             replace (S (tick s) + i) with (tick s + S i) by lia. by apply Hvis. }
           { rewrite Htk1.
             replace (S (tick s) + length v') with (tick s + length (k0 :: v'))
               by (cbn; lia).
             done. }
           split; [done|]. split; [|split].
           ++ intros j. rewrite Hl, Hs1. cbn. destruct (decide (j = k0)) as [->|Hne].
              ** rewrite lookup_delete_eq.
                 rewrite (decide_True (P := k0 ∈ k0 :: v' ++ [k])) by constructor.
                 by destruct (decide _).
              ** rewrite lookup_delete_ne by done.
                 destruct (decide (j ∈ v' ++ [k])) as [Hj|Hj].
                 --- rewrite decide_True; [done|by constructor].
                 --- rewrite decide_False; [done|].
                     intros [?|?]%elem_of_cons; done.
           ++ rewrite !frames_app, Hf. cbn. by destruct (should_log _ _).
           ++ apply Forall_app. split; [|done].
              apply Forall_app. split; [done|]. by repeat constructor.
Qed.

End Teardown.

(** C1, as stated, fails: when the write of a stop frame fails, [Close]
    cancels the context and returns the error at once; the subscriptions
    it has not visited stay registered and the connection stays open. *)
Lemma Close_counterexample :
  ~ close_tears_down env_stop_fails
  /\ exists s',
       Close env_stop_fails (st_running two_subs) = Ok (Some write_failed) s'
       /\ subscriptions s' = delete "A" two_subs /\ conn s' = Some 0.
Proof.
  split.
  - intros H. destruct (H (st_running two_subs)) as (r & s' & Hs & _ & _ & Hc & _).
    vm_compute in Hs. injection Hs as _ <-. discriminate Hc.
  - eexists. split; [vm_compute; reflexivity|]. split; reflexivity.
Qed.

(** C1, amended. On an engine whose lifecycle context exists ([Run] has
    been entered before), [Close] returns, leaves the engine not running
    and the context cancelled, and never enters [Run].  It writes a stop
    frame for a subscription only if a connection exists.  Either it
    completes: the registry is empty and the connection reference absent,
    after a stop frame for every subscription, a terminate frame and the
    close of the transport if there was a connection; or the write of a
    stop frame failed: that subscription is removed, the error is
    returned, and the connection is kept.  It completes whenever no
    stop-frame write fails.

    Which of the two happens is decided by the stop-frame writes, in the
    order [ks] in which the range statement visits the registry; the
    write for the key at position [i] is the interaction after the one of
    the range statement and the [i] writes before it.  With no
    connection nothing is written and [Close] completes.  With a
    connection, if every one of these writes succeeds, [Close] completes
    and returns what closing the transport returns.  If the writes for the
    keys [visited] succeed and the write for the next key [k] fails with
    [e], [Close] returns [e] at once: exactly the subscriptions [visited]
    and [k] are removed, every other one stays registered as it was, the
    stop frames of [visited] and [k] are the only frames written (no
    terminate frame), the transport is not closed and the connection
    reference is kept. *)
Theorem Close_teardown {Variables} (E : @Env Variables) (s : State) :
  is_Some (context s) -> range_ok E ->
  exists r s' evs,
    Close E s = Ok r s'
    /\ isRunning s' = false /\ context s' = Some true /\ cfg s' = cfg s
    /\ trace s' = trace s ++ evs
    /\ Forall (fun e => e <> EvNewContext) evs
    /\ subscriptions s' ⊆ subscriptions s
    /\ ((subscriptions s' = ∅ /\ conn s' = None
         /\ match conn s with
            | Some c =>
                exists ks,
                  ks ≡ₚ elements (dom (subscriptions s))
                  /\ frames evs
                     = ((fun k => (c, stop_frame k)) <$> ks) ++ [(c, terminate_frame)]
                  /\ EvClose c r ∈ evs
            | None => evs = [EvCancel] /\ r = None
            end)
        \/ (exists c id e t,
              conn s = Some c /\ conn s' = Some c /\ r = Some e
              /\ is_Some (subscriptions s !! id) /\ subscriptions s' !! id = None
              /\ e_write E t c (stop_frame id) = Some e
              /\ EvWrite c (stop_frame id) (Some e) ∈ evs))
    /\ ((forall t c id, e_write E t c (stop_frame id) = None) ->
        subscriptions s' = ∅ /\ conn s' = None)
    /\ match conn s with
       | None =>
           r = None /\ subscriptions s' = ∅ /\ conn s' = None /\ evs = [EvCancel]
       | Some c =>
           let ks := e_range E (tick s) (elements (dom (subscriptions s))) in
           ((forall i k, ks !! i = Some k ->
               e_write E (S (tick s + i)) c (stop_frame k) = None) ->
            subscriptions s' = ∅ /\ conn s' = None
            /\ frames evs
               = ((fun k => (c, stop_frame k)) <$> ks) ++ [(c, terminate_frame)]
            /\ r = e_close E (S (S (tick s + length ks))) c
            /\ EvClose c r ∈ evs)
           /\ (forall visited k rest e,
                 ks = visited ++ k :: rest ->
                 (forall i j, visited !! i = Some j ->
                    e_write E (S (tick s + i)) c (stop_frame j) = None) ->
                 e_write E (S (tick s + length visited)) c (stop_frame k) = Some e ->
                 r = Some e /\ conn s' = Some c
                 /\ (forall j, subscriptions s' !! j
                               = if decide (j ∈ visited ++ [k]) then None
                                 else subscriptions s !! j)
                 /\ frames evs = (fun j => (c, stop_frame j)) <$> (visited ++ [k])
                 /\ Forall (fun ev => is_close ev = false) evs)
       end.
Proof.
  intros Hctx Hrange.
  set (s0 := after_interaction E (set_isRunning false s)).
  set (ks := e_range E (tick s) (elements (dom (subscriptions s)))).
  assert (Hp : ks ≡ₚ elements (dom (subscriptions s))) by apply Hrange.
  assert (Hnd : NoDup ks) by (rewrite Hp; apply NoDup_elements).
  assert (Hin : forall k, k ∈ ks -> is_Some (subscriptions s0 !! k)).
  { intros k. rewrite Hp, elem_of_elements, elem_of_dom. done. }
  destruct (Close_loop_spec E ks s0 Hctx Hnd Hin)
    as (r & s1 & evs & Hrun & Hcfg1 & Hr1 & Hc1 & Ht1 & Hn1 & Hsub1 & Hres).
  assert (Hexact : forall c, conn s = Some c ->
            ((forall i k, ks !! i = Some k ->
                e_write E (S (tick s + i)) c (stop_frame k) = None) ->
             r = None /\ tick s1 = S (tick s + length ks))
            /\ (forall visited k rest e,
                  ks = visited ++ k :: rest ->
                  (forall i j, visited !! i = Some j ->
                     e_write E (S (tick s + i)) c (stop_frame j) = None) ->
                  e_write E (S (tick s + length visited)) c (stop_frame k) = Some e ->
                  r = Some e
                  /\ (forall j, subscriptions s1 !! j
                                = if decide (j ∈ visited ++ [k]) then None
                                  else subscriptions s !! j)
                  /\ frames evs = (fun j => (c, stop_frame j)) <$> (visited ++ [k])
                  /\ Forall (fun ev => is_close ev = false) evs)).
  { intros c Hc.
    destruct (Close_loop_exact E ks s0 c r s1 Hc Hnd Hin Hrun)
      as (evs' & Ht' & Hall & Hstop).
    rewrite Ht1 in Ht'. apply app_inv_head in Ht'. subst evs'.
    exact (conj Hall Hstop). }
  assert (Hclose : Close E s
            = match r with
              | Some e => Ok (Some e) s1
              | None =>
                  match (match conn s1 with
                         | Some _ =>
                             fun s2 =>
                               match terminate E s2 with
                               | Ok _ s3 =>
                                   match conn_Close E s3 with
                                   | Ok err s4 => Ok err (set_conn None s4)
                                   | Panic s4 => Panic s4
                                   | OutOfFuel => OutOfFuel
                                   end
                               | Panic s3 => Panic s3
                               | OutOfFuel => OutOfFuel
                               end
                         | None => fun s2 => Ok None s2
                         end) s1 with
                  | Ok err s5 =>
                      match cancel s5 with
                      | Ok _ s6 => Ok err s6
                      | Panic s6 => Panic s6
                      | OutOfFuel => OutOfFuel
                      end
                  | Panic s5 => Panic s5
                  | OutOfFuel => OutOfFuel
                  end
              end).
  { unfold Close, range_keys. munfold. cbn beta iota. psimpl.
    fold ks. change (next_tick (advance (e_lat E (tick s)) (set_isRunning false s)))
      with s0. rewrite Hrun. by destruct r. }
  rewrite Hclose. subst s0. psimpl.
  destruct r as [e|].
  - (* aborted *)
    destruct Hres as (Hctx1 & c & id & t & Hc & Hid & Hgone & Hw & Hev).
    exists (Some e), s1, evs. split_and!; try done.
    + right. exists c, id, e, t. split_and!; try done. by rewrite Hc1.
    + intros Hok. by rewrite Hok in Hw.
    + rewrite Hc. destruct (Hexact c Hc) as [Hall Hstop]. split.
      * intros Hok. by destruct (Hall Hok).
      * intros visited k rest e0 Hks Hvis Hk.
        destruct (Hstop visited k rest e0 Hks Hvis Hk) as (Hr & Hl & Hf & Hcl).
        split_and!; try done. by rewrite Hc1.
  - destruct Hres as (Hctx1 & Hl & Hf & He).
    assert (Hempty : subscriptions s1 = ∅).
    { apply map_eq. intros k. rewrite Hl, lookup_empty.
      destruct (decide (k ∈ ks)) as [|Hk]; [done|].
      rewrite Hp, elem_of_elements, elem_of_dom in Hk.
      destruct (subscriptions s !! k) eqn:Hlk; [|done]. destruct Hk. eauto. }
    destruct Hctx as [d Hd].
    destruct (conn s) as [c|] eqn:Hc.
    + rewrite Hc1. rewrite (terminate_conn E s1 c Hc1).
      rewrite (conn_Close_conn E _ c) by (psimpl; by rewrite log_to_conn).
      psimpl. rewrite log_to_tick.
      rewrite (cancel_eq _ d) by (psimpl; by rewrite log_to_context, Hctx1).
      eexists _, _, (evs ++ (if should_log (cfg s1) GqlConnectionTerminate
                             then [EvLog (LogMsg terminate_frame) GqlConnectionTerminate]
                             else [])
                         ++ [EvWrite c terminate_frame (e_write E (tick s1) c terminate_frame);
                             EvClose c (e_close E (S (tick s1)) c); EvCancel]).
      split; [reflexivity|]. psimpl.
      rewrite log_to_isRunning, log_to_cfg, log_to_trace, log_to_subscriptions,
        Ht1, Hempty, <- !app_assoc.
      assert (Hfr : frames (evs ++ (if should_log (cfg s1) GqlConnectionTerminate
                                    then [EvLog (LogMsg terminate_frame) GqlConnectionTerminate]
                                    else [])
                              ++ [EvWrite c terminate_frame
                                    (e_write E (tick s1) c terminate_frame);
                                  EvClose c (e_close E (S (tick s1)) c); EvCancel])
                    = ((fun k => (c, stop_frame k)) <$> ks) ++ [(c, terminate_frame)]).
      { rewrite !frames_app, Hf. f_equal. by destruct (should_log _ _). }
      assert (Hcl : EvClose c (e_close E (S (tick s1)) c)
                    ∈ evs ++ (if should_log (cfg s1) GqlConnectionTerminate
                              then [EvLog (LogMsg terminate_frame) GqlConnectionTerminate]
                              else [])
                        ++ [EvWrite c terminate_frame
                              (e_write E (tick s1) c terminate_frame);
                            EvClose c (e_close E (S (tick s1)) c); EvCancel]).
      { rewrite !elem_of_app. right. right. right. left. }
      split_and!; try done.
      * apply Forall_app. split; [done|]. apply Forall_app.
        split; [destruct (should_log _ _)|]; by repeat constructor.
      * apply map_empty_subseteq.
      * left. split_and!; try done. by exists ks.
      * intros Hok. destruct (Hexact c eq_refl) as [Hall _].
        destruct (Hall Hok) as [_ Htk]. rewrite Htk in *. split_and!; done.
      * intros visited k rest e0 Hks Hvis Hk.
        destruct (Hexact c eq_refl) as [_ Hstop].
        by destruct (Hstop visited k rest e0 Hks Hvis Hk).
    + rewrite Hc1. rewrite (cancel_eq s1 d) by (by rewrite Hctx1).
      exists None, (add_event EvCancel (set_context (Some true) s1)), [EvCancel].
      psimpl. rewrite Ht1, (He eq_refl), app_nil_r, Hempty.
      split_and!; try done.
      * by repeat constructor.
      * apply map_empty_subseteq.
      * left. done.
Qed.

Lemma Close_teardown_witness :
  exists s',
    Close env_stop_fails (st_running two_subs) = Ok (Some write_failed) s'
    /\ isRunning s' = false /\ context s' = Some true
    /\ conn s' = Some 0
    /\ subscriptions s' !! "A" = None
    /\ subscriptions s' !! "B" = Some (sub0 true false).
Proof.
  destruct (Close_teardown env_stop_fails (st_running two_subs))
    as (r & s' & evs & H1 & H2 & H3 & _ & _ & _ & _ & _ & _ & H4).
  - by eexists.
  - exact env_ok_range_ok.
  - cbn [conn st_running] in H4. destruct H4 as [_ H4].
    destruct (H4 [] "A" ["B"] write_failed) as (Hr & Hc & Hl & _).
    + vm_compute. reflexivity.
    + intros i j Hij. destruct i; discriminate Hij.
    + reflexivity.
    + subst r. exists s'.
      pose proof (Hl "A") as HA. pose proof (Hl "B") as HB.
      vm_compute in HA. vm_compute in HB.
      split; [exact H1|]. split; [exact H2|]. split; [exact H3|].
      split; [exact Hc|]. split; [exact HA|exact HB].
Defined.

(** ** Connecting *)

Section Connect.

Context {Variables : Type} (E : @Env Variables).
Implicit Types (s : @State Variables).

Hypothesis Hlat : forall n, (0 <= e_lat E n)%Z.

Lemma keeps_engine_refl s : keeps_engine s s.
Proof. by repeat split. Qed.

Lemma keeps_engine_trans s1 s2 s3 :
  keeps_engine s1 s2 -> keeps_engine s2 s3 -> keeps_engine s1 s3.
Proof.
  intros (?&?&?&?&?&?) (?&?&?&?&?&?). repeat split; congruence.
Qed.

Lemma sendConnectionInit_spec s c :
  conn s = Some c ->
  exists r s' evs,
    sendConnectionInit E s = Ok r s'
    /\ keeps_engine s s' /\ conn s' = Some c
    /\ (clock s <= clock s')%Z
    /\ trace s' = trace s ++ evs
    /\ Forall (fun e => is_schedule_event e = false) evs
    /\ ((forall t c m, e_write E t c m <> None) -> r <> None).
Proof.
  intros Hc. unfold sendConnectionInit. munfold. cbn beta iota.
  destruct (match connectionParams (cfg s) with
            | Some p => e_marshal_params E p
            | None => inr []
            end) as [e|bParams].
  - exists (Some e), s, []. rewrite app_nil_r.
    split_and!; try done; try apply keeps_engine_refl; try lia.
  - rewrite printLog_eq, (conn_WriteJSON_eq _ _ _ c) by (by rewrite log_to_conn).
    eexists _, _, ((if should_log (cfg s) GqlConnectionInit then [_] else []) ++ [_]).
    split; [reflexivity|]. psimpl.
    rewrite log_to_conn, log_to_clock, log_to_tick, log_to_trace, <- app_assoc.
    split_and!; try done.
    + unfold keeps_engine. psimpl.
      by rewrite log_to_cfg, log_to_subscriptions, log_to_isRunning,
        log_to_context, log_to_errorChan, log_to_goroutines.
    + specialize (Hlat (tick s)). lia.
    + apply Forall_app. split; [destruct (should_log _ _)|]; by repeat constructor.
Qed.

Lemma connect_attempt_spec s :
  exists r s' evs,
    connect_attempt E s = Ok r s'
    /\ keeps_engine s s'
    /\ (clock s <= clock s')%Z
    /\ trace s' = trace s ++ evs
    /\ Forall (fun e => is_schedule_event e = false) evs
    /\ (r = None -> is_Some (conn s'))
    /\ (attempts_fail E s -> r <> None /\ attempts_fail E s').
Proof.
  unfold connect_attempt. munfold. cbn beta iota.
  destruct (conn s) as [c|] eqn:Hc.
  - (* a connection is already there *)
    unfold conn_SetReadLimit. munfold. cbn beta iota. rewrite Hc.
    destruct (sendConnectionInit_spec (add_event (EvSetReadLimit c (readLimit (cfg s))) s) c)
      as (r & s' & evs & Hrun & Hk & Hc' & Hclk & Ht & Hq & Hw); [done|].
    exists r, s', (EvSetReadLimit c (readLimit (cfg s)) :: evs). rewrite Hrun.
    psimpl. rewrite Ht, <- app_assoc.
    split_and!; try done.
    + by constructor.
    + intros [Hf|[? _]]; [|congruence]. split; [by apply Hw|by left].
  - unfold newWebsocketConn. munfold. cbn beta iota.
    destruct (e_dial E (tick s)) as [e|] eqn:Hd.
    + (* the dial fails *)
      eexists (Some e), _, [_]. split; [reflexivity|]. psimpl.
      split_and!; try done.
      * specialize (Hlat (tick s)). lia.
      * by repeat constructor.
    + psimpl. unfold conn_SetReadLimit. munfold. cbn beta iota. psimpl.
      match goal with |- context [sendConnectionInit E ?s0] =>
        destruct (sendConnectionInit_spec s0 (tick s))
          as (r & s' & evs & Hrun & Hk & Hc' & Hclk & Ht & Hq & Hw); [done|];
        exists r, s', (EvDial (inr (tick s)) :: EvSetReadLimit (tick s) (readLimit (cfg s)) :: evs);
        rewrite Hrun
      end.
      psimpl. rewrite Ht, <- !app_assoc.
      split_and!; try done.
      * specialize (Hlat (tick s)). lia.
      * by repeat constructor.
      * intros [Hf|[_ Hf]]; [|by specialize (Hf (tick s))].
        split; [by apply Hw|by left].
Qed.

Lemma schedule_of_app l1 l2 : schedule_of (l1 ++ l2) = schedule_of l1 ++ schedule_of l2.
Proof. apply List.filter_app. Qed.

Lemma schedule_of_quiet l :
  Forall (fun e => is_schedule_event e = false) l -> schedule_of l = [].
Proof.
  induction 1 as [|e l He _ IH]; [done|]. unfold schedule_of in *. cbn.
  by rewrite He.
Qed.

Lemma schedule_of_log a ty (c : @Config Variables) :
  schedule_of (if should_log c ty then [EvLog a ty] else []) = [].
Proof. by destruct (should_log c ty). Qed.

Lemma count_disconnected_app l1 l2 :
  count_disconnected (l1 ++ l2) = count_disconnected l1 + count_disconnected l2.
Proof. unfold count_disconnected. by rewrite List.filter_app, length_app. Qed.

Lemma count_disconnected_schedule l :
  count_disconnected (schedule_of l) = count_disconnected l.
Proof.
  unfold count_disconnected, schedule_of.
  induction l as [|e l IH]; [done|]. destruct e; cbn; try done; by rewrite IH.
Qed.

Lemma retry_schedule_disconnected deadline cb r l :
  retry_schedule deadline cb r l ->
  count_disconnected l = match r with
                         | Some _ => if cb then 1 else 0
                         | None => 0
                         end.
Proof.
  induction 1 as [|t e Ht|t r l Ht Hs IH]; [done|by destruct cb|done].
Qed.

Lemma init_loop_spec fuel : forall now s,
  Z.to_nat ((now + retryTimeout (cfg s) - clock s) / time_Second + 1) < fuel ->
  exists r s' evs,
    init_loop E fuel now s = Ok r s'
    /\ keeps_engine s s'
    /\ trace s' = trace s ++ evs
    /\ retry_schedule (now + retryTimeout (cfg s)) (onDisconnected (cfg s)) r
         (schedule_of evs)
    /\ (r = None -> is_Some (conn s'))
    /\ (attempts_fail E s -> r <> None).
Proof.
  induction fuel as [|fuel IH]; intros now s Hfuel; [lia|].
  cbn [init_loop]. unfold time_Now, time_Sleep. munfold. cbn beta iota.
  destruct (connect_attempt_spec s)
    as (r1 & s1 & evs1 & Hrun & Hk1 & Hclk1 & Ht1 & Hq1 & Hconn1 & Hfail1).
  rewrite Hrun.
  pose proof Hk1 as (Hcfg1 & _).
  destruct r1 as [e|].
  - psimpl. rewrite Hcfg1.
    destruct (now + retryTimeout (cfg s) <? clock s1)%Z eqn:Hlate.
    + (* the budget is spent *)
      apply Z.ltb_lt in Hlate. psimpl. rewrite Hcfg1.
      destruct (onDisconnected (cfg s)) eqn:Hcb.
      * eexists (Some e), _, (evs1 ++ [EvNow (clock s1); EvDisconnected]).
        split; [reflexivity|]. psimpl. rewrite Ht1, <- !app_assoc.
        split_and!; try done.
        rewrite schedule_of_app, schedule_of_quiet by done. by constructor.
      * eexists (Some e), _, (evs1 ++ [EvNow (clock s1)]).
        split; [reflexivity|]. psimpl. rewrite Ht1, <- !app_assoc.
        split_and!; try done.
        rewrite schedule_of_app, schedule_of_quiet by done. by constructor.
    + (* one more attempt after a second *)
      apply Z.ltb_ge in Hlate. rewrite printLog_eq. psimpl.
      match goal with |- context [init_loop E fuel now ?s0] => set (s3 := s0) end.
      assert (Hcfg3 : cfg s3 = cfg s)
        by (subst s3; psimpl; by rewrite log_to_cfg).
      assert (Hclk3 : (clock s + time_Second <= clock s3)%Z).
      { subst s3. psimpl. rewrite log_to_clock, log_to_tick. psimpl.
        specialize (Hlat (tick s1)). lia. }
      destruct (IH now s3)
        as (r & s' & evs & Hrun3 & Hk3 & Ht3 & Hs3 & Hconn3 & Hfail3).
      { rewrite Hcfg3.
        assert (H1 : (0 <= (now + retryTimeout (cfg s) - clock s) / time_Second)%Z)
          by (apply Z.div_pos; [lia|done]).
        assert (H2 : ((now + retryTimeout (cfg s) - clock s3) / time_Second
                      <= (now + retryTimeout (cfg s) - clock s) / time_Second - 1)%Z).
        { replace ((now + retryTimeout (cfg s) - clock s) / time_Second - 1)%Z
            with ((now + retryTimeout (cfg s) - clock s + (-1) * time_Second)
                  / time_Second)%Z
            by (by rewrite Z.div_add).
          apply Z.div_le_mono; [done|lia]. }
        lia. }
      exists r, s',
        (evs1 ++ [EvNow (clock s1)]
         ++ (if should_log (cfg s) GqlInternal
             then [EvLog (LogStr (err_text e +:+ ". retry in second....")) GqlInternal]
             else [])
         ++ [EvSleep time_Second] ++ evs).
      rewrite Hrun3. split; [done|]. split; [|split; [|split; [|split]]].
      * eapply keeps_engine_trans; [exact Hk1|]. eapply keeps_engine_trans; [|exact Hk3].
        subst s3. unfold keeps_engine. psimpl.
        by rewrite log_to_cfg, log_to_subscriptions, log_to_isRunning,
          log_to_context, log_to_errorChan, log_to_goroutines.
      * rewrite Ht3. subst s3. psimpl. rewrite log_to_trace. psimpl.
        rewrite Ht1, Hcfg1, <- !app_assoc. done.
      * rewrite !schedule_of_app, schedule_of_quiet, schedule_of_log by done.
        cbn. constructor; [done|]. by rewrite <- Hcfg3.
      * done.
      * intros Hf. apply Hfail3. destruct (Hfail1 Hf) as [_ Hf1].
        destruct Hf1 as [Hw|[Hc Hd]]; [by left|right]. split; [|done].
        subst s3. psimpl. by rewrite log_to_conn.
  - exists None, s1, evs1. split_and!; try done.
    + rewrite schedule_of_quiet by done. constructor.
    + intros Hf. by destruct (Hfail1 Hf).
Qed.

Lemma init_spec fuel s :
  Z.to_nat (retryTimeout (cfg s) / time_Second + 1) < fuel ->
  exists r s' evs,
    init E fuel s = Ok r s'
    /\ cfg s' = cfg s /\ subscriptions s' = subscriptions s
    /\ isRunning s' = isRunning s /\ context s' = Some false
    /\ trace s' = trace s ++ EvNow (clock s) :: EvNewContext :: evs
    /\ retry_schedule (clock s + retryTimeout (cfg s)) (onDisconnected (cfg s)) r
         (schedule_of evs)
    /\ (r = None -> is_Some (conn s'))
    /\ (attempts_fail E s -> r <> None).
Proof.
  intros Hfuel. unfold init, time_Now. munfold. cbn beta iota.
  match goal with |- context [init_loop E fuel (clock s) ?s0] => set (s0' := s0) end.
  destruct (init_loop_spec fuel (clock s) s0')
    as (r & s' & evs & Hrun & Hk & Ht & Hs & Hconn & Hfail).
  { subst s0'. psimpl.
    replace (clock s + retryTimeout (cfg s) - clock s)%Z with (retryTimeout (cfg s)) by lia.
    done. }
  destruct Hk as (Hcfg & Hsub & Hr & Hctx & _).
  exists r, s', evs. rewrite Hrun. subst s0'. psimpl.
  rewrite Ht, <- !app_assoc. split_and!; try done.
Qed.

End Connect.

(** The same loop, event by event. *)
Section ConnectTrace.

Context {Variables : Type} (E : @Env Variables).
Implicit Types (s : @State Variables).

Lemma sendConnectionInit_trace s c :
  conn s = Some c ->
  exists r s' evs,
    sendConnectionInit E s = Ok r s'
    /\ cfg s' = cfg s /\ conn s' = Some c
    /\ trace s' = trace s ++ evs
    /\ handshake_events E (cfg s) c (tick s) evs r (tick s').
Proof.
  intros Hc. unfold sendConnectionInit. munfold. cbn beta iota.
  destruct (connectionParams (cfg s)) as [p|] eqn:Hp.
  - destruct (e_marshal_params E p) as [e|bParams] eqn:Hm.
    + exists (Some e), s, []. rewrite app_nil_r. split_and!; try done.
      by apply (he_not_marshalled E (cfg s) c (tick s) p).
    + rewrite printLog_eq, (conn_WriteJSON_eq _ _ _ c) by (by rewrite log_to_conn).
      eexists _, _, ((if should_log (cfg s) GqlConnectionInit then [_] else []) ++ [_]).
      split; [reflexivity|]. psimpl.
      rewrite log_to_cfg, log_to_conn, log_to_tick, log_to_trace, <- app_assoc.
      split_and!; try done.
      apply (he_written E (cfg s) c (tick s) bParams). by rewrite Hp.
  - rewrite printLog_eq, (conn_WriteJSON_eq _ _ _ c) by (by rewrite log_to_conn).
    eexists _, _, ((if should_log (cfg s) GqlConnectionInit then [_] else []) ++ [_]).
    split; [reflexivity|]. psimpl.
    rewrite log_to_cfg, log_to_conn, log_to_tick, log_to_trace, <- app_assoc.
    split_and!; try done.
    apply (he_written E (cfg s) c (tick s) []). by rewrite Hp.
Qed.

Lemma connect_attempt_trace s :
  exists r s' evs,
    connect_attempt E s = Ok r s'
    /\ cfg s' = cfg s
    /\ trace s' = trace s ++ evs
    /\ attempt_events E (cfg s) (conn s) (tick s) evs r (conn s') (tick s').
Proof.
  unfold connect_attempt. munfold. cbn beta iota.
  destruct (conn s) as [c|] eqn:Hc.
  - unfold conn_SetReadLimit. munfold. cbn beta iota. rewrite Hc.
    destruct (sendConnectionInit_trace
                (add_event (EvSetReadLimit c (readLimit (cfg s))) s) c)
      as (r & s' & evs & Hrun & Hcfg & Hc' & Ht & Hh); [done|].
    exists r, s', (EvSetReadLimit c (readLimit (cfg s)) :: evs). rewrite Hrun.
    psimpl. rewrite Ht, Hc', <- app_assoc.
    split_and!; try done. by constructor.
  - unfold newWebsocketConn. munfold. cbn beta iota.
    destruct (e_dial E (tick s)) as [e|] eqn:Hd.
    + eexists (Some e), _, [_]. split; [reflexivity|]. psimpl. rewrite Hc.
      split_and!; try done. by constructor.
    + psimpl. unfold conn_SetReadLimit. munfold. cbn beta iota. psimpl.
      match goal with |- context [sendConnectionInit E ?s0] =>
        destruct (sendConnectionInit_trace s0 (tick s))
          as (r & s' & evs & Hrun & Hcfg & Hc' & Ht & Hh); [done|];
        exists r, s', (EvDial (inr (tick s))
                         :: EvSetReadLimit (tick s) (readLimit (cfg s)) :: evs);
        rewrite Hrun
      end.
      psimpl. rewrite Ht, Hc', <- !app_assoc.
      split_and!; try done. by constructor.
Qed.

Lemma init_loop_trace fuel : forall now s r s',
  init_loop E fuel now s = Ok r s' ->
  exists evs,
    trace s' = trace s ++ evs
    /\ retry_trace E (cfg s) (now + retryTimeout (cfg s)) (conn s) (tick s)
         evs r (conn s').
Proof.
  induction fuel as [|fuel IH]; intros now s r s'; [done|].
  cbn [init_loop]. unfold time_Now, time_Sleep. munfold. cbn beta iota.
  destruct (connect_attempt_trace s) as (r1 & s1 & evs1 & Hrun & Hcfg1 & Ht1 & Ha).
  rewrite Hrun. destruct r1 as [e|].
  - psimpl. rewrite Hcfg1.
    destruct (now + retryTimeout (cfg s) <? clock s1)%Z eqn:Hlate.
    + apply Z.ltb_lt in Hlate. psimpl. rewrite Hcfg1.
      assert (Hg : retry_trace E (cfg s) (now + retryTimeout (cfg s)) (conn s)
                     (tick s)
                     (evs1 ++ EvNow (clock s1)
                        :: if onDisconnected (cfg s) then [EvDisconnected] else [])
                     (Some e) (conn s1))
        by (eapply rt_give_up; [exact Ha|exact Hlate]).
      destruct (onDisconnected (cfg s)) eqn:Hcb; intros [= <- <-]; psimpl;
        rewrite Ht1, <- !app_assoc; eexists; (split; [reflexivity|exact Hg]).
    + apply Z.ltb_ge in Hlate. rewrite printLog_eq. psimpl.
      match goal with |- context [init_loop E fuel now ?s0] => set (s3 := s0) end.
      intros Hloop. destruct (IH now s3 r s' Hloop) as (evs & Ht & Hr).
      assert (Hcfg3 : cfg s3 = cfg s) by (subst s3; psimpl; by rewrite log_to_cfg).
      assert (Hc3 : conn s3 = conn s1) by (subst s3; psimpl; by rewrite log_to_conn).
      assert (Htk3 : tick s3 = S (tick s1))
        by (subst s3; psimpl; by rewrite log_to_tick).
      assert (Ht3 : trace s3
                = trace s ++ evs1 ++ EvNow (clock s1)
                    :: (if should_log (cfg s) GqlInternal
                        then [EvLog (LogStr (err_text e +:+ ". retry in second...."))
                                GqlInternal]
                        else [])
                    ++ [EvSleep time_Second]).
      { subst s3. psimpl. rewrite log_to_trace. psimpl.
        by rewrite Ht1, Hcfg1, <- !app_assoc. }
      rewrite Hcfg3, Hc3, Htk3 in Hr.
      exists (evs1 ++ EvNow (clock s1)
                :: (if should_log (cfg s) GqlInternal
                    then [EvLog (LogStr (err_text e +:+ ". retry in second...."))
                            GqlInternal]
                    else [])
                ++ EvSleep time_Second :: evs).
      split.
      * rewrite Ht, Ht3, <- !app_assoc. cbn. by rewrite <- !app_assoc.
      * eapply rt_retry; [exact Ha|exact Hlate|exact Hr].
  - intros [= <- <-]. exists evs1. split; [done|].
    eapply rt_success. exact Ha.
Qed.

Lemma init_trace fuel s r s' :
  init E fuel s = Ok r s' ->
  exists evs,
    trace s' = trace s ++ EvNow (clock s) :: EvNewContext :: evs
    /\ retry_trace E (cfg s) (clock s + retryTimeout (cfg s)) (conn s) (tick s)
         evs r (conn s').
Proof.
  unfold init, time_Now. munfold. cbn beta iota. intros H.
  destruct (init_loop_trace _ _ _ _ _ H) as (evs & Ht & Hr).
  exists evs. psimpl. rewrite Ht, <- !app_assoc. done.
Qed.

End ConnectTrace.

(** C3. Provided time does not run backwards and [init] is given room
    for its loop, [init] returns, and its schedule is this: after every
    failed attempt it reads the clock; while the time since its start is
    within the retry budget it sleeps one second and tries again; at the
    first reading beyond the budget it calls the disconnect callback, once
    and only if one is registered, and returns the error of the last
    attempt; an attempt that succeeds ends it with nil and a connection.
    When [init] returns an error, [Run] returns the (non-nil) retry-timeout
    error; and when every attempt fails, [init] does return an error.

    Every pass of the loop makes an attempt ([retry_trace]): with no
    connection it dials, and a refused dial is the error of the attempt;
    with a connection, dialled in this attempt or held from before, it
    sets the read limit and writes the connection_init frame, unless the
    connection parameters cannot be marshalled; the result of the attempt
    is the answer of the world to that dial or write.  The loop ends at
    the first attempt whose result is nil, and goes round or gives up
    only after an attempt whose result is an error. *)
Theorem init_retry_until_budget {Variables} (E : @Env Variables)
    (s : State) (fuel : nat) :
  (forall n, (0 <= e_lat E n)%Z) ->
  Z.to_nat (retryTimeout (cfg s) / time_Second + 1) < fuel ->
  exists r s' evs,
    init E fuel s = Ok r s'
    /\ trace s' = trace s ++ EvNow (clock s) :: EvNewContext :: evs
    /\ retry_schedule (clock s + retryTimeout (cfg s)) (onDisconnected (cfg s)) r
         (schedule_of evs)
    /\ count_disconnected evs
       = match r with
         | Some _ => if onDisconnected (cfg s) then 1 else 0
         | None => 0
         end
    /\ (r = None -> is_Some (conn s'))
    /\ (forall e, r = Some e ->
        Run E (S fuel) s = Ok (Some (errorf "retry timeout. exiting")) s')
    /\ (attempts_fail E s -> exists e, r = Some e)
    /\ retry_trace E (cfg s) (clock s + retryTimeout (cfg s)) (conn s) (tick s)
         evs r (conn s').
Proof.
  intros Hlat Hfuel.
  destruct (init_spec E Hlat fuel s Hfuel)
    as (r & s' & evs & Hrun & _ & _ & _ & _ & Ht & Hs & Hconn & Hfail).
  destruct (init_trace E fuel s r s' Hrun) as (evs' & Ht' & Htr).
  rewrite Ht in Ht'. apply app_inv_head in Ht'. injection Ht' as <-.
  exists r, s', evs. split_and!; try done.
  - rewrite <- count_disconnected_schedule.
    by rewrite (retry_schedule_disconnected _ _ _ _ Hs).
  - intros e ->. cbn [Run]. munfold. cbn beta iota. by rewrite Hrun.
  - intros Hf. specialize (Hfail Hf). destruct r; [eauto|done].
Qed.

Lemma init_retry_until_budget_witness :
  let env := env_gone io_EOF in
  exists s' evs,
    Run env 6 (st_new two_subs) = Ok (Some (errorf "retry timeout. exiting")) s'
    /\ trace s' = EvNow 0 :: EvNewContext :: evs
    /\ count_disconnected evs = 1
    /\ dials_of evs
       = [inl dial_failed; inl dial_failed; inl dial_failed; inl dial_failed].
Proof.
  intros env.
  destruct (init_retry_until_budget env (st_new two_subs) 5)
    as (r & s' & evs & Hinit & Ht & _ & Hc & _ & Hrun & Hfail & _).
  - intros n. cbn. lia.
  - vm_compute. lia.
  - destruct Hfail as [e ->]; [right; by split|].
    exists s', evs. split; [exact (Hrun e eq_refl)|]. split; [exact Ht|].
    split; [exact Hc|].
    vm_compute in Hinit. injection Hinit as _ <-.
    vm_compute in Ht. injection Ht as <-. reflexivity.
Defined.

(** ** Reset *)

Section ResetProofs.

Context {Variables : Type} (E : @Env Variables).
Implicit Types (s : @State Variables) (id : string).

Lemma Reset_loop_spec ks : forall s,
  NoDup ks -> (forall k, k ∈ ks -> is_Some (subscriptions s !! k)) ->
  exists s' evs,
    Reset_loop E ks s = Ok tt s'
    /\ cfg s' = cfg s /\ isRunning s' = isRunning s /\ conn s' = conn s
    /\ context s' = context s
    /\ (forall k, subscriptions s' !! k
                  = if decide (k ∈ ks)
                    then set_started false true <$> subscriptions s !! k
                    else subscriptions s !! k)
    /\ trace s' = trace s ++ evs
    /\ Forall (fun e => e <> EvNewContext) evs
    /\ frames evs = match conn s with
                    | Some c => (fun k => (c, stop_frame k)) <$> ks
                    | None => []
                    end
    /\ (conn s = None -> evs = []).
Proof.
  induction ks as [|k ks IH]; intros s Hnd Hin.
  - exists s, []. cbn. rewrite app_nil_r. split_and!; try done. by destruct (conn s).
  - apply NoDup_cons in Hnd as [Hk Hnd].
    destruct (Hin k) as [v Hv]; [constructor|].
    cbn [Reset_loop]. munfold. cbn beta iota. rewrite Hv.
    assert (exists s1 evs1 r1,
      stopSubscription E k s = Ok r1 s1
      /\ cfg s1 = cfg s /\ isRunning s1 = isRunning s /\ conn s1 = conn s
      /\ context s1 = context s /\ subscriptions s1 = subscriptions s
      /\ trace s1 = trace s ++ evs1
      /\ Forall (fun e => e <> EvNewContext) evs1
      /\ frames evs1 = match conn s with
                       | Some c => [(c, stop_frame k)]
                       | None => []
                       end
      /\ (conn s = None -> evs1 = []))
      as (s1 & evs1 & r1 & Hstop & Hcfg1 & Hr1 & Hc1 & Hctx1 & Hsub1 & Ht1 & Hn1 & Hf1 & He1).
    { destruct (conn s) as [c|] eqn:Hc.
      - rewrite (stopSubscription_some E k s c Hc).
        eexists _, ((if should_log (cfg s) GqlStop then [_] else []) ++ [_]), _.
        split; [reflexivity|]. psimpl.
        rewrite log_to_cfg, log_to_isRunning, log_to_conn, log_to_context,
          log_to_subscriptions, log_to_trace, frames_app, <- app_assoc.
        split_and!; try done.
        + apply Forall_app. split; [destruct (should_log _ _)|]; by repeat constructor.
        + by destruct (should_log _ _).
      - rewrite (stopSubscription_none E k s Hc). exists s, [], None.
        rewrite app_nil_r. split_and!; done. }
    rewrite Hstop.
    set (s2 := set_subscriptions (alter (set_started false true) k (subscriptions s1)) s1).
    destruct (IH s2) as (s' & evs & Hrun & Hcfg' & Hr' & Hc' & Hctx' & Hsub' & Ht' & Hn' & Hf' & He');
      [done| |].
    { intros j Hj. subst s2. psimpl. rewrite Hsub1.
      apply lookup_alter_is_Some, Hin. by constructor. }
    exists s', (evs1 ++ evs). rewrite Hrun. subst s2. psimpl.
    rewrite Hcfg', Hr', Hc', Hctx', Ht', Ht1, Hc1, <- app_assoc.
    split_and!; try done.
    + intros j. rewrite Hsub', Hsub1. destruct (decide (j = k)) as [->|Hne].
      * rewrite decide_False by done. rewrite decide_True by constructor.
        apply lookup_alter_eq.
      * rewrite lookup_alter_ne by done. destruct (decide (j ∈ ks)).
        -- rewrite decide_True; [done|by constructor].
        -- rewrite decide_False; [done|]. intros [?|?]%elem_of_cons; done.
    + by apply Forall_app.
    + rewrite frames_app, Hf1, Hf'. rewrite Hc1. by destruct (conn s).
    + intros Hc. rewrite (He1 Hc). apply He'. by rewrite Hc1.
Qed.

Lemma Reset_teardown_spec s :
  is_Some (context s) -> range_ok E ->
  exists s1 evs,
    Reset_teardown E s = Ok tt s1
    /\ (forall k, subscriptions s1 !! k = set_started false true <$> subscriptions s !! k)
    /\ conn s1 = None /\ context s1 = Some true
    /\ isRunning s1 = isRunning s /\ cfg s1 = cfg s
    /\ trace s1 = trace s ++ evs
    /\ Forall (fun e => e <> EvNewContext) evs
    /\ match conn s with
       | Some c =>
           exists ks r,
             ks ≡ₚ elements (dom (subscriptions s))
             /\ frames evs
                = ((fun k => (c, stop_frame k)) <$> ks) ++ [(c, terminate_frame)]
             /\ EvClose c r ∈ evs
       | None => evs = [EvCancel]
       end.
Proof.
  intros [d Hd] Hrange. unfold Reset_teardown, range_keys. munfold. cbn beta iota. psimpl.
  set (ks := e_range E (tick s) (elements (dom (subscriptions s)))).
  assert (Hp : ks ≡ₚ elements (dom (subscriptions s))) by apply Hrange.
  assert (Hnd : NoDup ks) by (rewrite Hp; apply NoDup_elements).
  match goal with |- context [Reset_loop E ks ?s0] => set (s0' := s0) end.
  destruct (Reset_loop_spec ks s0' Hnd)
    as (s1 & evs & Hrun & Hcfg1 & Hr1 & Hc1 & Hctx1 & Hsub1 & Ht1 & Hn1 & Hf1 & He1).
  { intros k. rewrite Hp, elem_of_elements, elem_of_dom. done. }
  rewrite Hrun. subst s0'. psimpl.
  assert (Hsub : forall k, subscriptions s1 !! k
                           = set_started false true <$> subscriptions s !! k).
  { intros k. rewrite Hsub1. destruct (decide (k ∈ ks)) as [|Hk]; [done|].
    rewrite Hp, elem_of_elements, elem_of_dom in Hk.
    destruct (subscriptions s !! k) eqn:Hl; [|done]. destruct Hk. eauto. }
  destruct (conn s) as [c|] eqn:Hc.
  - rewrite Hc1. rewrite (terminate_conn E s1 c Hc1).
    rewrite (conn_Close_conn E _ c) by (psimpl; by rewrite log_to_conn).
    psimpl. rewrite log_to_tick.
    rewrite (cancel_eq _ d) by (psimpl; by rewrite log_to_context, Hctx1).
    eexists _, (evs ++ (if should_log (cfg s1) GqlConnectionTerminate
                        then [EvLog (LogMsg terminate_frame) GqlConnectionTerminate]
                        else [])
                    ++ [EvWrite c terminate_frame (e_write E (tick s1) c terminate_frame);
                        EvClose c (e_close E (S (tick s1)) c); EvCancel]).
    split; [reflexivity|]. psimpl.
    rewrite log_to_isRunning, log_to_cfg, log_to_trace, log_to_subscriptions,
      Ht1, <- !app_assoc.
    split_and!; try done.
    + apply Forall_app. split; [done|]. apply Forall_app.
      split; [destruct (should_log _ _)|]; by repeat constructor.
    + exists ks, (e_close E (S (tick s1)) c). split_and!; try done.
      * rewrite !frames_app, Hf1. f_equal. by destruct (should_log _ _).
      * rewrite !elem_of_app. right. right. right. left.
  - rewrite Hc1. rewrite (cancel_eq s1 d) by (by rewrite Hctx1).
    exists (add_event EvCancel (set_context (Some true) s1)), [EvCancel].
    psimpl. rewrite Ht1, (He1 eq_refl), app_nil_r.
    split_and!; try done. by repeat constructor.
Qed.

End ResetProofs.

(** C2, as stated, fails: when the re-entered [Run] has reconnected and
    the first start frame fails to be written, [Run] cancels that
    subscription (removing it from the registry) and returns the error;
    the other subscription stays registered and is never replayed. *)
Lemma Reset_counterexample :
  ~ reset_replays_all env_start_fails
  /\ exists s',
       Reset env_start_fails 6 (st_running two_subs) = Ok (Some write_failed) s'
       /\ subscriptions s' !! "A" = None
       /\ subscriptions s' !! "B" = Some (sub0 false true)
       /\ frames (trace s')
          = [(0, stop_frame "A"); (0, stop_frame "B"); (0, terminate_frame);
             (6, {| ID := ""; Type_ := GqlConnectionInit; Payload := [] |});
             (6, start_frame "A" []); (6, stop_frame "A")].
Proof.
  split.
  - intros H.
    destruct (Reset env_start_fails 6 (st_running two_subs)) as [r s'| |] eqn:Hr;
      [|vm_compute in Hr; discriminate Hr..].
    destruct (H 6 (st_running two_subs) r s' eq_refl Hr "B") as (c & p & Hin).
    + vm_compute. eauto.
    + vm_compute in Hr. injection Hr as _ <-. vm_compute. eauto.
    + vm_compute in Hr. injection Hr as _ <-.
      apply list_elem_of_In in Hin. vm_compute in Hin.
      repeat (destruct Hin as [Hin|Hin]; [discriminate Hin|]). exact Hin.
  - eexists. split; [vm_compute; reflexivity|]. split_and!; reflexivity.
Qed.

(** C2, amended. On a running engine whose lifecycle context exists,
    [Reset] first tears down: it writes a stop frame for every registry
    entry if a connection exists (the outcome of the write is ignored),
    sets every entry to started = false and restarting = true, and removes
    none; then, if a connection exists, it writes the terminate frame,
    closes the transport and clears the connection reference; it cancels
    the lifecycle context.  All this happens before [Run] is entered again,
    which [Reset] then does, returning what [Run] returns.  In that [Run],
    if connecting fails until the retry budget is spent nothing is
    replayed and the retry-timeout error is returned; if it succeeds and
    no start frame fails, a start frame is written on the new connection
    for every registered subscription, each is started and no longer
    restarting, and the pump loop begins. *)
Theorem Reset_teardown_and_replay {Variables} (E : @Env Variables)
    (fuel : nat) (s : State) :
  isRunning s = true -> is_Some (context s) -> range_ok E ->
  exists s1 evs,
    Reset_teardown E s = Ok tt s1
    /\ Reset E fuel s = Run E fuel s1
    /\ (forall k, subscriptions s1 !! k = set_started false true <$> subscriptions s !! k)
    /\ conn s1 = None /\ context s1 = Some true /\ isRunning s1 = true
    /\ trace s1 = trace s ++ evs
    /\ Forall (fun e => e <> EvNewContext) evs
    /\ match conn s with
       | Some c =>
           exists ks r,
             ks ≡ₚ elements (dom (subscriptions s))
             /\ frames evs
                = ((fun k => (c, stop_frame k)) <$> ks) ++ [(c, terminate_frame)]
             /\ EvClose c r ∈ evs
       | None => evs = [EvCancel]
       end
    /\ (forall fuel',
          fuel = S fuel' ->
          (forall n, (0 <= e_lat E n)%Z) ->
          Z.to_nat (retryTimeout (cfg s) / time_Second + 1) < fuel' ->
          starts_succeed E ->
          exists r s2,
            init E fuel' s1 = Ok r s2
            /\ match r with
               | Some _ =>
                   Run E fuel s1 = Ok (Some (errorf "retry timeout. exiting")) s2
                   /\ subscriptions s2 = subscriptions s1
               | None =>
                   exists c s3 evs3 ks,
                     conn s2 = Some c
                     /\ startAll E s2 = Ok None s3
                     /\ Run E fuel s1
                        = Run_loop E (Reset E fuel') fuel' (set_isRunning true s3)
                     /\ (forall k, subscriptions s3 !! k
                                   = set_started true false <$> subscriptions s !! k)
                     /\ trace s3 = trace s2 ++ evs3
                     /\ ks ≡ₚ elements (dom (subscriptions s))
                     /\ frames evs3 = start_frames E c (subscriptions s1) ks
                     /\ (forall k, is_Some (subscriptions s !! k) ->
                         exists p, (c, start_frame k p) ∈ frames evs3)
               end).
Proof.
  intros Hrunning Hctx Hrange.
  destruct (Reset_teardown_spec E s Hctx Hrange)
    as (s1 & evs & Htd & Hsub1 & Hc1 & Hctx1 & Hr1 & Hcfg1 & Ht1 & Hn1 & Hfr).
  exists s1, evs. split; [done|]. split.
  { unfold Reset, Reset_with. munfold. cbn beta iota. rewrite Hrunning. cbn [negb].
    by rewrite Htd. }
  split; [done|]. split; [done|]. split; [done|]. split; [congruence|].
  split; [done|]. split; [done|]. split; [done|].
  intros fuel' -> Hlat Hfuel Hok.
  destruct (init_spec E Hlat fuel' s1) as
    (r & s2 & evs2 & Hinit & Hcfg2 & Hsub2 & Hr2 & Hctx2 & Ht2 & _ & Hconn2 & _).
  { by rewrite Hcfg1. }
  exists r, s2. split; [done|].
  assert (HRun : Run E (S fuel') s1
            = match r with
              | Some _ => Ok (Some (errorf "retry timeout. exiting")) s2
              | None =>
                  match startAll E s2 with
                  | Ok (Some e) s3 => Ok (Some e) s3
                  | Ok None s3 =>
                      Run_loop E (Reset E fuel') fuel' (set_isRunning true s3)
                  | Panic s3 => Panic s3
                  | OutOfFuel => OutOfFuel
                  end
              end).
  { cbn [Run]. munfold. cbn beta iota. rewrite Hinit. destruct r; [done|].
    by destruct (startAll E s2) as [[e|] s3| |]. }
  destruct r as [e|]; [done|].
  destruct (Hconn2 eq_refl) as [c Hc2].
  destruct (startAll_ok E s2 c Hc2 Hok Hrange)
    as (s3 & evs3 & ks & Hstart & Hc3 & Hcfg3 & Hr3 & Hctx3 & Hsub3 & Ht3 & Hp & Hf3 & _).
  assert (Hdom : dom (subscriptions s2) = dom (subscriptions s)).
  { apply set_eq. intros k. rewrite !elem_of_dom, Hsub2, Hsub1.
    by rewrite fmap_is_Some. }
  exists c, s3, evs3, ks. split; [done|]. split; [done|].
  split; [by rewrite HRun, Hstart|]. split; [|split; [done|split; [|split]]].
  - intros k. rewrite Hsub3, Hsub2, Hsub1. by destruct (subscriptions s !! k).
  - by rewrite Hp, Hdom.
  - by rewrite Hf3, Hsub2.
  - intros k [sub Hk]. destruct Hok as [Hm _].
    destruct (Hm (query sub) (variables sub)) as [p Hp'].
    exists p. rewrite Hf3. unfold start_frames. apply list_elem_of_In, in_flat_map.
    exists k. split.
    + apply list_elem_of_In. rewrite Hp, Hdom, elem_of_elements, elem_of_dom. eauto.
    + rewrite Hsub2, Hsub1, Hk. cbn. rewrite Hp'. by left.
Qed.

Lemma Reset_teardown_and_replay_witness :
  exists s1 s3,
    Reset_teardown env_ok (st_running two_subs) = Ok tt s1
    /\ conn s1 = None
    /\ subscriptions s1 !! "A" = Some (sub0 false true)
    /\ Run env_ok 6 s1 = Run_loop env_ok (Reset env_ok 5) 5 (set_isRunning true s3)
    /\ subscriptions s3 !! "A" = Some (sub0 true false)
    /\ subscriptions s3 !! "B" = Some (sub0 true false).
Proof.
  destruct (Reset_teardown_and_replay env_ok 6 (st_running two_subs))
    as (s1 & evs & Htd & _ & Hsub1 & Hc1 & _ & _ & _ & _ & _ & Hreplay).
  - reflexivity.
  - by eexists.
  - exact env_ok_range_ok.
  - destruct (Hreplay 5 eq_refl) as (r & s2 & Hinit & Hr).
    + intros n. cbn. lia.
    + vm_compute. lia.
    + exact env_ok_starts_succeed.
    + destruct r as [e|].
      * exfalso. vm_compute in Htd. injection Htd as <-.
        vm_compute in Hinit. discriminate Hinit.
      * destruct Hr as (c & s3 & evs3 & ks & _ & _ & HRun & Hsub3 & _).
        exists s1, s3. split; [exact Htd|]. split; [exact Hc1|].
        split; [exact (Hsub1 "A")|]. split; [exact HRun|].
        split; [exact (Hsub3 "A")|exact (Hsub3 "B")].
Defined.

(** * Further properties of the engine *)

(** ** Cancellation and dispatch *)

Section MoreDispatch.

Context {Variables : Type} (E : @Env Variables).
Implicit Types (s : @State Variables) (id : string) (message : OperationMessage).

Lemma Unsubscribe_result id s :
  exists r s' evs,
    Unsubscribe E id s = Ok r s'
    /\ subscriptions s' = delete id (subscriptions s)
    /\ cfg s' = cfg s /\ conn s' = conn s /\ context s' = context s
    /\ isRunning s' = isRunning s /\ errorChan s' = errorChan s
    /\ goroutines s' = goroutines s
    /\ trace s' = trace s ++ evs
    /\ Forall (fun e => e <> EvNewContext) evs.
Proof.
  destruct (subscriptions s !! id) as [sub|] eqn:Hs.
  - destruct (conn s) as [c|] eqn:Hc.
    + rewrite (Unsubscribe_conn E id s c) by eauto.
      eexists _, _, ((if should_log (cfg s) GqlStop then [_] else []) ++ [_]).
      split; [reflexivity|]. psimpl.
      rewrite log_to_cfg, log_to_conn, log_to_context, log_to_isRunning,
        log_to_errorChan, log_to_goroutines, log_to_trace, <- app_assoc.
      split_and!; try done.
      apply Forall_app. split; [destruct (should_log _ _)|]; by repeat constructor.
    + rewrite Unsubscribe_no_conn by eauto. eexists _, _, []. split; [reflexivity|].
      psimpl. rewrite app_nil_r. split_and!; done.
  - rewrite Unsubscribe_absent by done. exists (Some (not_found id)), s, [].
    rewrite app_nil_r, delete_id by done. split_and!; done.
Qed.

Lemma runSubHandler_eq message s :
  runSubHandler E message s
  = match e_uuid_parse E (ID message) with
    | Some id =>
        match subscriptions s !! id with
        | Some sub => Ok tt (spawned (handler sub) message s)
        | None => Ok tt s
        end
    | None => Ok tt s
    end.
Proof.
  unfold runSubHandler. munfold. cbn beta iota. rewrite findSubscription_eq.
  destruct (e_uuid_parse E (ID message)) as [id|]; [|done].
  by destruct (subscriptions s !! id).
Qed.

Lemma createSubscription_inserted q vars h s id s1 :
  createSubscription E q vars h s = Ok (id, None) s1 ->
  id = e_uuid E (tick s)
  /\ exists sub,
       subscriptions s1 = <[id := sub]> (subscriptions s)
       /\ handler sub = h /\ query sub = q /\ variables sub = vars.
Proof.
  unfold createSubscription. munfold. cbn beta iota. psimpl.
  fold (new_sub q vars h).
  destruct (isRunning s && bool_decide (conn s ≠ None)) eqn:Hrc.
  - apply andb_true_iff in Hrc as [_ Hc]. apply bool_decide_eq_true in Hc.
    destruct (conn s) as [c|] eqn:Hconn; [|done].
    destruct (e_marshal_start E q vars) as [e|p] eqn:Hm.
    + rewrite (startSubscription_marshal_error E _ _ _ e) by done. cbn. done.
    + rewrite (startSubscription_send E _ _ _ c p) by done. psimpl.
      destruct (e_write E (S (tick s)) c _) as [e|]; cbn; [done|].
      intros [= <- <-]. split; [done|]. eexists. psimpl.
      rewrite log_to_subscriptions. split; [reflexivity|]. done.
  - cbn. intros [= <- <-]. split; [done|]. eexists. split; [reflexivity|]. done.
Qed.

End MoreDispatch.

(** X1. Cancelling the same id twice: whatever the first [Unsubscribe]
    returned, the second one returns the not-found error and changes
    nothing. *)
Theorem Unsubscribe_twice {Variables} (E : @Env Variables) (s : State)
    (id : string) (r : option GoError) (s1 : State) :
  Unsubscribe E id s = Ok r s1 ->
  Unsubscribe E id s1 = Ok (Some (not_found id)) s1.
Proof.
  intros H. destruct (Unsubscribe_result E id s) as (r' & s' & evs & Hu & Hsub & _).
  rewrite H in Hu. injection Hu as <- <-.
  apply Unsubscribe_absent. rewrite Hsub. apply lookup_delete_eq.
Qed.

Lemma Unsubscribe_twice_witness :
  exists s1,
    Unsubscribe env_stop_fails "A" (st_running two_subs) = Ok (Some write_failed) s1
    /\ Unsubscribe env_stop_fails "A" s1 = Ok (Some (not_found "A")) s1.
Proof.
  eexists. split; [vm_compute; reflexivity|].
  eapply (Unsubscribe_twice env_stop_fails (st_running two_subs) "A").
  vm_compute. reflexivity.
Defined.

(** X2. What a frame can do to the engine, by its type.  A frame of a
    type the switch has no case for (keep-alive, conn_err, anything else)
    changes nothing at all: it is not even logged.  A connection_ack
    frame calls the connected callback, once, if one is registered, and
    does nothing else.  Only a complete frame can change the registry or
    write to the socket. *)
Theorem dispatch_effects {Variables} (E : @Env Variables)
    (s : State) (message : OperationMessage) :
  (~ handled_type (Type_ message) -> dispatch E message s = Ok tt s)
  /\ (Type_ message = GqlConnectionAck ->
      dispatch E message s
      = Ok tt (if onConnected (cfg s) then add_event EvConnected s else s))
  /\ (Type_ message <> GqlComplete ->
      exists s',
        dispatch E message s = Ok tt s'
        /\ subscriptions s' = subscriptions s
        /\ frames (trace s') = frames (trace s)
        /\ conn s' = conn s /\ context s' = context s
        /\ isRunning s' = isRunning s).
Proof.
  assert (Hack : Type_ message = GqlConnectionAck ->
            dispatch E message s
            = Ok tt (if onConnected (cfg s) then add_event EvConnected s else s)).
  { intros Hty. unfold dispatch. rewrite Hty.
    rewrite (bool_decide_false (GqlConnectionAck = GqlError)) by done.
    rewrite (bool_decide_false (GqlConnectionAck = GqlData)) by done.
    rewrite (bool_decide_false (GqlConnectionAck = GqlComplete)) by done.
    rewrite bool_decide_true by done. cbn [orb]. munfold.
    by destruct (onConnected (cfg s)). }
  assert (Hother : ~ handled_type (Type_ message) -> dispatch E message s = Ok tt s).
  { intros Hn. unfold dispatch, handled_type in *.
    rewrite !bool_decide_false by tauto. done. }
  split; [done|]. split; [done|].
  intros Hnc.
  destruct (decide (Type_ message = GqlError \/ Type_ message = GqlData)) as [Hd|Hd].
  - rewrite dispatch_data by tauto. rewrite runSubHandler_eq.
    destruct (e_uuid_parse E (ID message)) as [id|]; [|by exists s].
    destruct (subscriptions s !! id) as [sub|]; [|by exists s].
    eexists. split; [reflexivity|]. unfold spawned. psimpl.
    rewrite frames_app. cbn. by rewrite app_nil_r.
  - destruct (decide (Type_ message = GqlConnectionAck)) as [Ha|Ha].
    + rewrite (Hack Ha). destruct (onConnected (cfg s)); eexists;
        (split; [reflexivity|]); psimpl; [|done].
      rewrite frames_app. cbn. by rewrite app_nil_r.
    + rewrite Hother; [by exists s|]. unfold handled_type. tauto.
Qed.

Lemma dispatch_effects_witness :
  let m := {| ID := ""; Type_ := GqlConnectionError; Payload := [] |} in
  dispatch env_ok m (st_running two_subs) = Ok tt (st_running two_subs).
Proof.
  intros m.
  destruct (dispatch_effects env_ok (st_running two_subs) m) as (H & _ & _).
  apply H. unfold handled_type. cbn.
  intros [H1|[H1|[H1|H1]]]; discriminate H1.
Defined.

(** X3. A data (or error) frame reaches the handler registered under the
    canonical form of its id, even when the frame spells the id in
    another form that is no key of the registry; a complete frame with
    that same spelling does not cancel the subscription, because
    [Unsubscribe] looks up the raw string: the registry stays as it is. *)
Theorem noncanonical_id_asymmetry {Variables} (E : @Env Variables)
    (s : State) (message : OperationMessage) (id : string) (sub : subscription) :
  e_uuid_parse E (ID message) = Some id ->
  subscriptions s !! id = Some sub ->
  subscriptions s !! ID message = None ->
  (Type_ message = GqlData \/ Type_ message = GqlError ->
   dispatch E message s = Ok tt (spawned (handler sub) message s))
  /\ (Type_ message = GqlComplete -> dispatch E message s = Ok tt s).
Proof.
  intros Hp Hs Hraw. split.
  - intros Hty. rewrite dispatch_data by done. by rewrite runSubHandler_eq, Hp, Hs.
  - intros Hty. rewrite dispatch_complete by done. by rewrite Unsubscribe_absent.
Qed.

Lemma noncanonical_id_asymmetry_witness :
  let upper := "6BA7B810-9DAD-11D1-80B4-00C04FD430C8"%string in
  dispatch env_upper {| ID := upper; Type_ := GqlData; Payload := [] |}
    (st_running one_sub)
  = Ok tt (spawned handler_ok {| ID := upper; Type_ := GqlData; Payload := [] |}
             (st_running one_sub))
  /\ dispatch env_upper {| ID := upper; Type_ := GqlComplete; Payload := [] |}
       (st_running one_sub)
     = Ok tt (st_running one_sub).
Proof.
  intros upper. split.
  - destruct (noncanonical_id_asymmetry env_upper (st_running one_sub)
                {| ID := upper; Type_ := GqlData; Payload := [] |}
                "6ba7b810-9dad-11d1-80b4-00c04fd430c8" (sub0 true false)
                eq_refl eq_refl eq_refl) as [H _].
    apply H. by left.
  - destruct (noncanonical_id_asymmetry env_upper (st_running one_sub)
                {| ID := upper; Type_ := GqlComplete; Payload := [] |}
                "6ba7b810-9dad-11d1-80b4-00c04fd430c8" (sub0 true false)
                eq_refl eq_refl eq_refl) as [_ H].
    by apply H.
Defined.

(** ** Registration, dispatch and cancellation together *)

Section RoundTrips.

Context {Variables : Type} (E : @Env Variables).
Implicit Types (s : @State Variables) (id : string) (message : OperationMessage).

Lemma createSubscription_not_running q vars h s :
  isRunning s = false ->
  createSubscription E q vars h s
  = Ok (e_uuid E (tick s), None)
       (set_subscriptions
          (<[e_uuid E (tick s) := new_sub q vars h]> (subscriptions s))
          (after_interaction E s)).
Proof.
  intros Hr. unfold createSubscription. munfold. cbn beta iota. psimpl.
  by rewrite Hr.
Qed.

Lemma createSubscription_frames q vars h s id s1 :
  createSubscription E q vars h s = Ok (id, None) s1 ->
  conn s1 = conn s
  /\ frames (trace s1)
     = frames (trace s)
       ++ (if isRunning s
           then match conn s, e_marshal_start E q vars with
                | Some c, inr p => [(c, start_frame id p)]
                | _, _ => []
                end
           else []).
Proof.
  unfold createSubscription. munfold. cbn beta iota. psimpl.
  fold (new_sub q vars h).
  destruct (isRunning s) eqn:Hr; cbn [andb].
  - destruct (conn s) as [c|] eqn:Hconn.
    + rewrite bool_decide_true by done.
      destruct (e_marshal_start E q vars) as [e|p] eqn:Hm.
      * rewrite (startSubscription_marshal_error E _ _ _ e) by done. cbn. done.
      * rewrite (startSubscription_send E _ _ _ c p) by done. psimpl.
        destruct (e_write E (S (tick s)) c _) as [e|]; cbn; [done|].
        intros [= <- <-]. psimpl.
        by rewrite log_to_conn, frames_app, log_to_frames.
    + rewrite bool_decide_false by (by intros []). cbn. intros [= <- <-]. psimpl.
      by rewrite app_nil_r.
  - cbn. intros [= <- <-]. psimpl. by rewrite app_nil_r.
Qed.

Lemma new_ids_S t n : new_ids E t (S n) = e_uuid E t :: new_ids E (S t) n.
Proof.
  unfold new_ids. cbn [seq fmap list_fmap]. rewrite Nat.add_0_r. f_equal.
  rewrite <- fmap_S_seq, <- list_fmap_compose. apply list_fmap_ext.
  intros _ i _. cbn. f_equal. lia.
Qed.

End RoundTrips.

(** X4. Registration and dispatch: once [createSubscription] has
    returned an id (one that [uuid.Parse] maps to itself, as the ids of
    the generator are), a data or error frame addressed to that id spawns
    the handler that was registered, with that frame. *)
Theorem register_then_dispatch {Variables} (E : @Env Variables) (s s1 : State)
    (q : string) (vars : Variables) (h : OperationMessage -> option GoError)
    (id : string) (message : OperationMessage) :
  createSubscription E q vars h s = Ok (id, None) s1 ->
  e_uuid_parse E id = Some id ->
  ID message = id ->
  Type_ message = GqlData \/ Type_ message = GqlError ->
  dispatch E message s1 = Ok tt (spawned h message s1).
Proof.
  intros Hc Hp Hid Hty.
  destruct (createSubscription_inserted E q vars h s id s1 Hc)
    as (_ & sub & Hsub & Hh & _).
  rewrite dispatch_data by done. rewrite runSubHandler_eq, Hid, Hp, Hsub.
  by rewrite lookup_insert_eq, Hh.
Qed.

Lemma register_then_dispatch_witness :
  let id := "6ba7b810-9dad-11d1-80b4-00c04fd430c8"%string in
  let m := {| ID := id; Type_ := GqlData; Payload := [] |} in
  exists s1,
    createSubscription env_ok "subscription { tick }" tt handler_ok
      (st_running two_subs) = Ok (id, None) s1
    /\ dispatch env_ok m s1 = Ok tt (spawned handler_ok m s1).
Proof.
  intros id m. eexists. split; [vm_compute; reflexivity|].
  eapply (register_then_dispatch env_ok (st_running two_subs) _
            "subscription { tick }" tt handler_ok id m).
  - vm_compute. reflexivity.
  - reflexivity.
  - reflexivity.
  - by left.
Defined.

(** X5. Cancellation removes a subscription from dispatch: after
    [Unsubscribe id] has returned, whatever it returned, a data or error
    frame whose id has the canonical form [id] spawns no handler and
    changes nothing. *)
Theorem cancel_then_no_dispatch {Variables} (E : @Env Variables) (s s1 : State)
    (id : string) (r : option GoError) (message : OperationMessage) :
  Unsubscribe E id s = Ok r s1 ->
  e_uuid_parse E (ID message) = Some id ->
  Type_ message = GqlData \/ Type_ message = GqlError ->
  dispatch E message s1 = Ok tt s1.
Proof.
  intros Hu Hp Hty.
  destruct (Unsubscribe_result E id s) as (r' & s' & evs & Hu' & Hsub & _).
  rewrite Hu in Hu'. injection Hu' as <- <-.
  rewrite dispatch_data by done. rewrite runSubHandler_eq, Hp, Hsub.
  by rewrite lookup_delete_eq.
Qed.

Lemma cancel_then_no_dispatch_witness :
  let id := "6ba7b810-9dad-11d1-80b4-00c04fd430c8"%string in
  let m := {| ID := id; Type_ := GqlData; Payload := [] |} in
  exists s1,
    Unsubscribe env_ok id (st_running one_sub) = Ok None s1
    /\ dispatch env_ok m s1 = Ok tt s1.
Proof.
  intros id m. eexists. split; [vm_compute; reflexivity|].
  eapply (cancel_then_no_dispatch env_ok (st_running one_sub) _ id None m).
  - vm_compute. reflexivity.
  - reflexivity.
  - by left.
Defined.

(** X6. Registering and then cancelling with the id that was returned
    gives the registry back as it was, provided the id was not in use.
    On the wire this leaves the start frame, if the engine was running and
    connected, followed by a stop frame, if there is a connection: an
    engine that is connected but not running sends a stop frame for a
    subscription it never started. *)
Theorem register_cancel_round_trip {Variables} (E : @Env Variables) (s s1 : State)
    (q : string) (vars : Variables) (h : OperationMessage -> option GoError)
    (id : string) :
  createSubscription E q vars h s = Ok (id, None) s1 ->
  subscriptions s !! id = None ->
  exists r s2,
    Unsubscribe E id s1 = Ok r s2
    /\ subscriptions s2 = subscriptions s
    /\ frames (trace s2)
       = frames (trace s)
         ++ (if isRunning s
             then match conn s, e_marshal_start E q vars with
                  | Some c, inr p => [(c, start_frame id p)]
                  | _, _ => []
                  end
             else [])
         ++ match conn s with
            | Some c => [(c, stop_frame id)]
            | None => []
            end.
Proof.
  intros Hc Hfresh.
  destruct (createSubscription_inserted E q vars h s id s1 Hc)
    as (_ & sub & Hsub & _).
  destruct (createSubscription_frames E q vars h s id s1 Hc) as [Hconn Hf].
  assert (Hin : is_Some (subscriptions s1 !! id))
    by (rewrite Hsub, lookup_insert_eq; eauto).
  assert (Hdel : delete id (subscriptions s1) = subscriptions s)
    by (rewrite Hsub, delete_insert_eq; by apply delete_id).
  destruct (conn s) as [c|] eqn:Hcs.
  - rewrite (Unsubscribe_conn E id s1 c Hin Hconn). eexists _, _.
    split; [reflexivity|]. psimpl. split; [done|].
    by rewrite frames_app, log_to_frames, Hf, <- app_assoc.
  - rewrite (Unsubscribe_no_conn E id s1 Hin Hconn). eexists _, _.
    split; [reflexivity|]. psimpl. split; [done|]. by rewrite Hf, app_nil_r.
Qed.

Lemma register_cancel_round_trip_witness :
  let id := "6ba7b810-9dad-11d1-80b4-00c04fd430c8"%string in
  exists s1 r s2,
    createSubscription env_ok "subscription { tick }" tt handler_ok
      (st_running two_subs) = Ok (id, None) s1
    /\ Unsubscribe env_ok id s1 = Ok r s2
    /\ subscriptions s2 = two_subs
    /\ frames (trace s2) = [(0, start_frame id []); (0, stop_frame id)].
Proof.
  intros id.
  destruct (createSubscription env_ok "subscription { tick }" tt handler_ok
              (st_running two_subs)) as [[id' [e|]] s1| |] eqn:Hc;
    try (vm_compute in Hc; discriminate Hc).
  assert (id' = id) as -> by (vm_compute in Hc; by injection Hc as <- _).
  destruct (register_cancel_round_trip env_ok (st_running two_subs) s1
              "subscription { tick }" tt handler_ok id Hc)
    as (r & s2 & Hu & Hsub & Hf); [reflexivity|].
  exists s1, r, s2. split; [reflexivity|]. split; [exact Hu|].
  split; [exact Hsub|exact Hf].
Defined.

(** X7. Registrations made in a row on an engine that is not running
    write nothing to the socket and all succeed; when the generator hands
    out ids that differ from each other and from the registered ones, the
    registry grows by one entry per call, each new id holds the record of
    its call, not started, and the entries that were there are kept. *)
Theorem Subscribe_many_not_running {Variables} (E : @Env Variables)
    (l : list (string * Variables * (OperationMessage -> option GoError))) :
  forall s : State,
    isRunning s = false ->
    NoDup (new_ids E (tick s) (length l)) ->
    (forall id, id ∈ new_ids E (tick s) (length l) -> subscriptions s !! id = None) ->
    exists s',
      Subscribe_many E l s
      = Ok ((fun id => (id, None)) <$> new_ids E (tick s) (length l)) s'
      /\ trace s' = trace s /\ conn s' = conn s /\ isRunning s' = false
      /\ size (subscriptions s') = size (subscriptions s) + length l
      /\ (forall i id c,
            new_ids E (tick s) (length l) !! i = Some id -> l !! i = Some c ->
            subscriptions s' !! id = Some (new_sub c.1.1 c.1.2 c.2))
      /\ (forall k, k ∉ new_ids E (tick s) (length l) ->
            subscriptions s' !! k = subscriptions s !! k).
Proof.
  induction l as [|[[q vars] h] l IH]; intros s Hr Hnd Hfresh.
  - exists s. cbn. split_and!; try done; try lia.
  - cbn [length] in *. rewrite new_ids_S in *.
    apply NoDup_cons in Hnd as [Hhd Hnd].
    cbn [Subscribe_many]. munfold. cbn beta iota.
    rewrite (createSubscription_not_running E q vars h s Hr).
    set (s1 := set_subscriptions _ (after_interaction E s)).
    destruct (IH s1) as (s' & Hrun & Ht & Hc & Hr' & Hsize & Hnew & Hold).
    + done.
    + done.
    + intros id Hid. subst s1. psimpl. rewrite lookup_insert_ne.
      * apply Hfresh. by constructor.
      * intros <-. done.
    + subst s1. psimpl. exists s'. rewrite Hrun. cbn [fmap list_fmap].
      split_and!; try done.
      * rewrite Hsize, map_size_insert_None; [lia|]. apply Hfresh. constructor.
      * intros i id c Hi Hl. destruct i as [|i]; cbn in Hi, Hl.
        -- injection Hi as <-. injection Hl as <-. rewrite Hold by done.
           cbn. apply lookup_insert_eq.
        -- by apply (Hnew i).
      * intros k Hk. rewrite Hold.
        -- apply lookup_insert_ne. intros <-. apply Hk. constructor.
        -- intros Hin. apply Hk. by constructor.
Qed.

Lemma Subscribe_many_not_running_witness :
  exists s',
    Subscribe_many env_count
      [("subscription { a }"%string, tt, handler_ok);
       ("subscription { b }"%string, tt, handler_ok)]
      (NewSubscriptionClient "ws://localhost:8080/graphql" 0)
    = Ok [("a"%string, None); ("aa"%string, None)] s'
    /\ trace s' = [] /\ size (subscriptions s') = 2.
Proof.
  destruct (Subscribe_many_not_running env_count
              [("subscription { a }"%string, tt, handler_ok);
               ("subscription { b }"%string, tt, handler_ok)]
              (NewSubscriptionClient "ws://localhost:8080/graphql" 0))
    as (s' & Hrun & Ht & _ & _ & Hsize & _).
  - reflexivity.
  - vm_compute. repeat constructor; rewrite ?elem_of_cons, ?elem_of_nil;
      intros H; repeat destruct H as [H|H]; try discriminate H; done.
  - intros id _. apply lookup_empty.
  - exists s'. split; [exact Hrun|]. split; [exact Ht|exact Hsize].
Defined.

(** ** Close at the edges *)

Section CloseEdges.

Context {Variables : Type} (E : @Env Variables).
Implicit Types (s : @State Variables) (id : string).

Lemma Close_loop_nil_context ks : forall s,
  context s = None ->
  (exists s1, Close_loop E ks s = Ok None s1
              /\ context s1 = None /\ isRunning s1 = isRunning s)
  \/ (exists s1, Close_loop E ks s = Panic s1 /\ isRunning s1 = isRunning s).
Proof.
  induction ks as [|k ks IH]; intros s Hctx.
  - left. by exists s.
  - cbn [Close_loop]. munfold. cbn beta iota.
    destruct (subscriptions s !! k) as [v|] eqn:Hv; [|by apply IH].
    destruct (Unsubscribe_result E k s)
      as (r & s1 & evs & Hu & _ & _ & _ & Hctx1 & Hr1 & _).
    rewrite Hu. destruct r as [e|].
    + right. exists s1. rewrite cancel_nil by (by rewrite Hctx1). done.
    + destruct (IH s1) as [(s2 & H2 & Hc2 & Hr2)|(s2 & H2 & Hr2)];
        [by rewrite Hctx1| |].
      * left. exists s2. rewrite H2. split_and!; congruence.
      * right. exists s2. rewrite H2. split; congruence.
Qed.

Lemma Close_loop_empty ks s :
  subscriptions s = ∅ -> Close_loop E ks s = Ok None s.
Proof.
  intros He. induction ks as [|k ks IH]; [done|].
  cbn [Close_loop]. munfold. cbn beta iota. by rewrite He, lookup_empty.
Qed.

End CloseEdges.

(** X8. [Close] on an engine whose [Run] has never been entered does not
    return: [sc.cancel] is still nil and calling it panics, on every
    path, after the engine has been marked not running. *)
Theorem Close_before_Run_panics {Variables} (E : @Env Variables) (s : State) :
  context s = None ->
  exists s', Close E s = Panic s' /\ isRunning s' = false.
Proof.
  intros Hctx. unfold Close, range_keys. munfold. cbn beta iota. psimpl.
  match goal with |- context [Close_loop E ?ks ?s0] =>
    destruct (Close_loop_nil_context E ks s0 Hctx)
      as [(s1 & H1 & Hc1 & Hr1)|(s1 & H1 & Hr1)]; rewrite H1
  end.
  - psimpl. destruct (conn s1) as [c|] eqn:Hconn.
    + rewrite (terminate_conn E s1 c Hconn).
      rewrite (conn_Close_conn E _ c) by (psimpl; by rewrite log_to_conn).
      rewrite cancel_nil by (psimpl; by rewrite log_to_context).
      eexists. split; [reflexivity|]. psimpl. by rewrite log_to_isRunning.
    + rewrite cancel_nil by done. by exists s1.
  - by exists s1.
Qed.

Lemma Close_before_Run_panics_witness :
  exists s',
    Close env_ok (NewSubscriptionClient "ws://localhost:8080/graphql" 0) = Panic s'
    /\ isRunning s' = false.
Proof.
  apply (Close_before_Run_panics env_ok
           (NewSubscriptionClient "ws://localhost:8080/graphql" 0)).
  reflexivity.
Defined.

(** X9. [Close] may be called again: on an engine with no connection
    and an empty registry whose context exists (as a [Close] that went
    through leaves it) it returns nil, writes nothing to the socket, and
    leaves the registry empty and the connection absent. *)
Theorem Close_again {Variables} (E : @Env Variables) (s : State) :
  conn s = None -> subscriptions s = ∅ -> is_Some (context s) ->
  exists s',
    Close E s = Ok None s'
    /\ trace s' = trace s ++ [EvCancel]
    /\ subscriptions s' = ∅ /\ conn s' = None
    /\ context s' = Some true /\ isRunning s' = false.
Proof.
  intros Hc He [d Hd]. unfold Close, range_keys. munfold. cbn beta iota. psimpl.
  rewrite Close_loop_empty by done. psimpl. rewrite Hc.
  rewrite (cancel_eq _ d) by done. eexists. split; [reflexivity|]. done.
Qed.

Lemma Close_again_witness :
  exists s',
    Close env_ok (set_context (Some true) (st_new ∅)) = Ok None s'
    /\ trace s' = [EvCancel] /\ conn s' = None.
Proof.
  destruct (Close_again env_ok (set_context (Some true) (st_new ∅)))
    as (s' & H & Ht & _ & Hc & _); [reflexivity|reflexivity|by eexists|].
  exists s'. split; [exact H|]. split; [exact Ht|exact Hc].
Defined.

(** ** The start loop of Run *)

Section StartLoop.

Context {Variables : Type} (E : @Env Variables).
Implicit Types (s : @State Variables) (id : string).

Lemma frames_for_app k l1 l2 :
  frames_for k (l1 ++ l2) = frames_for k l1 ++ frames_for k l2.
Proof. apply List.filter_app. Qed.

Lemma frames_for_start_one c (m : gmap string subscription) k j :
  frames_for k (start_frames E c m [j])
  = if decide (j = k) then start_frames E c m [j] else [].
Proof.
  unfold start_frames, frames_for. cbn. rewrite app_nil_r.
  destruct (m !! j) as [sub|]; [|by destruct (decide _)].
  destruct (started sub); [by destruct (decide _)|].
  destruct (e_marshal_start E _ _); [by destruct (decide _)|]. cbn.
  destruct (decide (j = k)) as [->|Hne].
  - by rewrite String.eqb_refl.
  - apply String.eqb_neq in Hne. by rewrite Hne.
Qed.

Lemma frames_for_start_frames c (m : gmap string subscription) k ks :
  NoDup ks ->
  frames_for k (start_frames E c m ks)
  = if decide (k ∈ ks) then start_frames E c m [k] else [].
Proof.
  induction ks as [|j ks IH]; intros Hnd; [done|].
  apply NoDup_cons in Hnd as [Hj Hnd].
  rewrite start_frames_cons, frames_for_app, frames_for_start_one, IH by done.
  destruct (decide (j = k)) as [->|Hne].
  - rewrite (decide_False (P := k ∈ ks)) by done.
    rewrite (decide_True (P := k ∈ k :: ks)) by constructor.
    by rewrite app_nil_r.
  - destruct (decide (k ∈ ks)).
    + rewrite (decide_True (P := k ∈ j :: ks)); [done|by constructor].
    + rewrite (decide_False (P := k ∈ j :: ks)); [done|].
      intros [?|?]%elem_of_cons; done.
Qed.

Lemma start_frames_all_started c (m : gmap string subscription) ks :
  (forall k sub, m !! k = Some sub -> started sub = true) ->
  start_frames E c m ks = [].
Proof.
  intros H. induction ks as [|k ks IH]; [done|].
  rewrite start_frames_cons, IH, app_nil_r. unfold start_frames. cbn.
  destruct (m !! k) as [sub|] eqn:Hk; [|done]. by rewrite (H k sub Hk).
Qed.

End StartLoop.

(** X10. The loop that opens [Run], when no start frame fails: it writes
    exactly one start frame for every subscription that is not started,
    none for one that is, and no other frame; afterwards every
    subscription is started and none has been added or removed.  Running
    the loop once more writes nothing and changes no subscription. *)
Theorem startAll_exactly_once {Variables} (E : @Env Variables) (s : State)
    (c : ConnId) :
  conn s = Some c -> starts_succeed E -> range_ok E ->
  exists s1 evs,
    startAll E s = Ok None s1
    /\ trace s1 = trace s ++ evs
    /\ (forall k,
          frames_for k (frames evs)
          = match subscriptions s !! k with
            | Some sub =>
                if started sub then []
                else match e_marshal_start E (query sub) (variables sub) with
                     | inr p => [(c, start_frame k p)]
                     | inl _ => []
                     end
            | None => []
            end)
    /\ Forall (fun f => Type_ f.2 = GqlStart) (frames evs)
    /\ (forall k sub, subscriptions s1 !! k = Some sub -> started sub = true)
    /\ dom (subscriptions s1) = dom (subscriptions s)
    /\ exists s2,
         startAll E s1 = Ok None s2
         /\ frames (trace s2) = frames (trace s1)
         /\ subscriptions s2 = subscriptions s1.
Proof.
  intros Hc Hok Hrange.
  destruct (startAll_ok E s c Hc Hok Hrange)
    as (s1 & evs & ks & Hrun & Hc1 & _ & _ & _ & Hsub & Ht & Hp & Hf & _).
  assert (Hnd : NoDup ks) by (rewrite Hp; apply NoDup_elements).
  assert (Hstarted : forall k sub, subscriptions s1 !! k = Some sub -> started sub = true).
  { intros k sub. rewrite Hsub. destruct (subscriptions s !! k) as [v|]; [|done].
    cbn. intros [= <-]. unfold mark_started. by destruct (started v) eqn:Hv. }
  exists s1, evs. split; [done|]. split; [done|]. split; [|split; [|split; [|split]]].
  - intros k. rewrite Hf, frames_for_start_frames by done.
    destruct (decide (k ∈ ks)) as [Hk|Hk].
    + unfold start_frames. cbn. rewrite app_nil_r.
      destruct (subscriptions s !! k) as [sub|]; [|done].
      destruct (started sub); [done|]. by destruct (e_marshal_start E _ _).
    + rewrite Hp, elem_of_elements, elem_of_dom in Hk.
      destruct (subscriptions s !! k) eqn:Hl; [|done]. destruct Hk. eauto.
  - rewrite Hf. unfold start_frames. apply Forall_forall. intros f Hin.
    apply list_elem_of_In, in_flat_map in Hin as (k & _ & Hin).
    destruct (subscriptions s !! k) as [sub|]; [|done].
    destruct (started sub); [done|].
    destruct (e_marshal_start E _ _); [done|]. by destruct Hin as [<-|[]].
  - done.
  - apply set_eq. intros k. rewrite !elem_of_dom, Hsub. by rewrite fmap_is_Some.
  - destruct (startAll_ok E s1 c Hc1 Hok Hrange)
      as (s2 & evs2 & ks2 & Hrun2 & _ & _ & _ & _ & Hsub2 & Ht2 & _ & Hf2 & _).
    exists s2. split; [done|]. split.
    + rewrite Ht2, frames_app, Hf2, start_frames_all_started by done.
      by rewrite app_nil_r.
    + apply map_eq. intros k. rewrite Hsub2.
      destruct (subscriptions s1 !! k) as [sub|] eqn:Hk; [|done]. cbn.
      unfold mark_started. by rewrite (Hstarted k sub Hk).
Qed.

Lemma startAll_exactly_once_witness :
  exists s1 evs,
    startAll env_ok (st_running (<["A" := sub0 false true]> (<["B" := sub0 true false]> ∅)))
    = Ok None s1
    /\ trace s1 = evs
    /\ frames_for "A" (frames evs) = [(0, start_frame "A" [])]
    /\ frames_for "B" (frames evs) = [].
Proof.
  destruct (startAll_exactly_once env_ok
              (st_running (<["A" := sub0 false true]> (<["B" := sub0 true false]> ∅))) 0
              eq_refl env_ok_starts_succeed env_ok_range_ok)
    as (s1 & evs & Hrun & Ht & Hf & _).
  exists s1, evs. split; [exact Hrun|]. split; [exact Ht|].
  split; [exact (Hf "A")|exact (Hf "B")].
Defined.

(** ** More on connecting *)

Section ConnectMore.

Context {Variables : Type} (E : @Env Variables).
Implicit Types (s : @State Variables).

Lemma dials_of_app l1 l2 : dials_of (l1 ++ l2) = dials_of l1 ++ dials_of l2.
Proof. apply omap_app. Qed.

Lemma dials_of_none l :
  Forall (fun e => is_dial e = false) l -> dials_of l = [].
Proof.
  induction 1 as [|e l He _ IH]; [done|]. unfold dials_of in *. cbn.
  destruct e; try done.
Qed.

Lemma dials_of_log a ty (c : @Config Variables) :
  dials_of (if should_log c ty then [EvLog a ty] else []) = [].
Proof. by destruct (should_log c ty). Qed.

Lemma sendConnectionInit_inv s c :
  conn s = Some c ->
  exists r s' evs,
    sendConnectionInit E s = Ok r s'
    /\ keeps_engine s s' /\ conn s' = Some c
    /\ trace s' = trace s ++ evs
    /\ Forall (fun e => is_dial e = false) evs
    /\ Forall (fun e => is_schedule_event e = false) evs
    /\ (forall p e, connectionParams (cfg s) = Some p ->
          e_marshal_params E p = inl e -> evs = [] /\ r = Some e).
Proof.
  intros Hc. unfold sendConnectionInit. munfold. cbn beta iota.
  destruct (connectionParams (cfg s)) as [p|] eqn:Hp.
  - destruct (e_marshal_params E p) as [e|bParams] eqn:Hm.
    + exists (Some e), s, []. rewrite app_nil_r.
      split_and!; try done; try apply keeps_engine_refl.
      intros ? ? [= <-]. rewrite Hm. by intros [= <-].
    + rewrite printLog_eq, (conn_WriteJSON_eq _ _ _ c) by (by rewrite log_to_conn).
      eexists _, _, ((if should_log (cfg s) GqlConnectionInit then [_] else []) ++ [_]).
      split; [reflexivity|]. psimpl.
      rewrite log_to_conn, log_to_trace, <- app_assoc.
      split_and!; try done.
      * unfold keeps_engine. psimpl.
        by rewrite log_to_cfg, log_to_subscriptions, log_to_isRunning,
          log_to_context, log_to_errorChan, log_to_goroutines.
      * apply Forall_app. split; [destruct (should_log _ _)|]; by repeat constructor.
      * apply Forall_app. split; [destruct (should_log _ _)|]; by repeat constructor.
      * intros ? ? [= <-]. by rewrite Hm.
  - rewrite printLog_eq, (conn_WriteJSON_eq _ _ _ c) by (by rewrite log_to_conn).
    eexists _, _, ((if should_log (cfg s) GqlConnectionInit then [_] else []) ++ [_]).
    split; [reflexivity|]. psimpl.
    rewrite log_to_conn, log_to_trace, <- app_assoc.
    split_and!; try done.
    * unfold keeps_engine. psimpl.
      by rewrite log_to_cfg, log_to_subscriptions, log_to_isRunning,
        log_to_context, log_to_errorChan, log_to_goroutines.
    * apply Forall_app. split; [destruct (should_log _ _)|]; by repeat constructor.
    * apply Forall_app. split; [destruct (should_log _ _)|]; by repeat constructor.
Qed.

(** One attempt: what it does to the connection, which dials it makes
    and what it writes. *)
Lemma connect_attempt_inv s :
  exists r s' evs,
    connect_attempt E s = Ok r s'
    /\ keeps_engine s s'
    /\ trace s' = trace s ++ evs
    /\ Forall (fun e => is_schedule_event e = false) evs
    /\ (r = None -> is_Some (conn s'))
    /\ (forall c, conn s = Some c -> conn s' = Some c /\ dials_of evs = [])
    /\ (conn s = None ->
        (conn s' = None /\ exists e, dials_of evs = [inl e])
        \/ (exists c, conn s' = Some c /\ dials_of evs = [inr c]))
    /\ (forall p e, connectionParams (cfg s) = Some p ->
          e_marshal_params E p = inl e ->
          Forall (fun ev => is_write ev = false) evs /\ r <> None).
Proof.
  unfold connect_attempt. munfold. cbn beta iota.
  destruct (conn s) as [c|] eqn:Hc.
  - unfold conn_SetReadLimit. munfold. cbn beta iota. rewrite Hc.
    destruct (sendConnectionInit_inv (add_event (EvSetReadLimit c (readLimit (cfg s))) s) c)
      as (r & s' & evs & Hrun & Hk & Hc' & Ht & Hd & Hq & Hm); [done|].
    exists r, s', (EvSetReadLimit c (readLimit (cfg s)) :: evs). rewrite Hrun.
    psimpl. rewrite Ht, <- app_assoc.
    split_and!; try done.
    + by constructor.
    + intros c0 [= <-]. split; [done|]. apply dials_of_none. by constructor.
    + intros p e Hp He. destruct (Hm p e Hp He) as [-> ->].
      split; [by repeat constructor|done].
  - unfold newWebsocketConn. munfold. cbn beta iota.
    destruct (e_dial E (tick s)) as [e|] eqn:Hd.
    + eexists (Some e), _, [_]. split; [reflexivity|]. psimpl.
      split_and!; try done.
      * by repeat constructor.
      * intros _. left. split; [done|]. by exists e.
      * intros p e0 _ _. split; [by repeat constructor|done].
    + psimpl. unfold conn_SetReadLimit. munfold. cbn beta iota. psimpl.
      match goal with |- context [sendConnectionInit E ?s0] =>
        destruct (sendConnectionInit_inv s0 (tick s))
          as (r & s' & evs & Hrun & Hk & Hc' & Ht & Hdl & Hq & Hm); [done|];
        exists r, s', (EvDial (inr (tick s)) :: EvSetReadLimit (tick s) (readLimit (cfg s)) :: evs);
        rewrite Hrun
      end.
      psimpl. rewrite Ht, <- !app_assoc.
      split_and!; try done.
      * by repeat constructor.
      * intros _. right. exists (tick s). split; [done|].
        change (dials_of (EvDial (inr (tick s)) :: EvSetReadLimit (tick s) (readLimit (cfg s)) :: evs))
          with (inr (tick s) :: dials_of evs).
        by rewrite dials_of_none.
      * intros p e Hp He. destruct (Hm p e Hp He) as [-> ->].
        split; [by repeat constructor|done].
Qed.

Lemma dials_until_success_nil : dials_until_success [].
Proof. exists [], []. split; [done|by left]. Qed.

Lemma dials_until_success_cons e l :
  dials_until_success l -> dials_until_success (inl e :: l).
Proof.
  intros (errs & tl & -> & Htl). exists (e :: errs), tl. by split.
Qed.

Lemma dials_until_success_one c : dials_until_success [inr c].
Proof. exists [], [inr c]. split; [done|right; by exists c]. Qed.

Lemma init_loop_inv fuel : forall now s r s',
  init_loop E fuel now s = Ok r s' ->
  exists evs,
    trace s' = trace s ++ evs
    /\ keeps_engine s s'
    /\ (r = None -> is_Some (conn s'))
    /\ (forall c, conn s = Some c -> conn s' = Some c /\ dials_of evs = [])
    /\ dials_until_success (dials_of evs)
    /\ (forall p e, connectionParams (cfg s) = Some p ->
          e_marshal_params E p = inl e ->
          Forall (fun ev => is_write ev = false) evs /\ r <> None).
Proof.
  induction fuel as [|fuel IH]; intros now s r s'; [done|].
  cbn [init_loop]. unfold time_Now, time_Sleep. munfold. cbn beta iota.
  destruct (connect_attempt_inv s)
    as (r1 & s1 & evs1 & Hrun & Hk1 & Ht1 & Hq1 & Hconn1 & Hkeep1 & Hnone1 & Hm1).
  rewrite Hrun. pose proof Hk1 as (Hcfg1 & _).
  assert (Hd1 : dials_until_success (dials_of evs1)).
  { destruct (conn s) as [c|] eqn:Hc.
    - destruct (Hkeep1 c eq_refl) as [_ ->]. apply dials_until_success_nil.
    - destruct (Hnone1 eq_refl) as [[_ [e ->]]|[c [_ ->]]].
      + apply dials_until_success_cons, dials_until_success_nil.
      + apply dials_until_success_one. }
  destruct r1 as [e|].
  - psimpl. rewrite Hcfg1.
    destruct (now + retryTimeout (cfg s) <? clock s1)%Z.
    + psimpl. rewrite Hcfg1.
      destruct (onDisconnected (cfg s)); intros [= <- <-].
      * exists (evs1 ++ [EvNow (clock s1); EvDisconnected]). psimpl.
        rewrite Ht1, <- !app_assoc. split; [done|]. split; [exact Hk1|].
        split; [done|]. split; [|split].
        -- intros c Hc. destruct (Hkeep1 c Hc) as [Hc1 Hdl]. split; [done|].
           by rewrite dials_of_app, Hdl.
        -- rewrite dials_of_app. cbn. by rewrite app_nil_r.
        -- intros p e0 Hp He. destruct (Hm1 p e0 Hp He) as [Hw _]. split; [|done].
           apply Forall_app. split; [done|by repeat constructor].
      * exists (evs1 ++ [EvNow (clock s1)]). psimpl.
        rewrite Ht1, <- !app_assoc. split; [done|]. split; [exact Hk1|].
        split; [done|]. split; [|split].
        -- intros c Hc. destruct (Hkeep1 c Hc) as [Hc1 Hdl]. split; [done|].
           by rewrite dials_of_app, Hdl.
        -- rewrite dials_of_app. cbn. by rewrite app_nil_r.
        -- intros p e0 Hp He. destruct (Hm1 p e0 Hp He) as [Hw _]. split; [|done].
           apply Forall_app. split; [done|by repeat constructor].
    + rewrite printLog_eq. psimpl.
      match goal with |- context [init_loop E fuel now ?s0] => set (s3 := s0) end.
      intros Hloop. destruct (IH now s3 r s' Hloop)
        as (evs & Ht & Hk & Hconn & Hkeep & Hd & Hm).
      set (mid := [EvNow (clock s1)]
                  ++ (if should_log (cfg s) GqlInternal
                      then [EvLog (LogStr (err_text e +:+ ". retry in second....")) GqlInternal]
                      else [])
                  ++ [EvSleep time_Second]).
      assert (Ht3 : trace s3 = trace s ++ evs1 ++ mid).
      { subst s3 mid. psimpl. rewrite log_to_trace. psimpl.
        by rewrite Ht1, Hcfg1, <- !app_assoc. }
      assert (Hc3 : conn s3 = conn s1) by (subst s3; psimpl; by rewrite log_to_conn).
      assert (Hcfg3 : cfg s3 = cfg s) by (subst s3; psimpl; by rewrite log_to_cfg).
      assert (Hmid : dials_of mid = []) by (subst mid; by destruct (should_log _ _)).
      assert (Hmidw : Forall (fun ev => is_write ev = false) mid).
      { subst mid. apply Forall_app. split; [by repeat constructor|].
        apply Forall_app. split; [destruct (should_log _ _)|]; by repeat constructor. }
      exists (evs1 ++ mid ++ evs). split; [by rewrite Ht, Ht3, <- !app_assoc|].
      split; [|split; [done|split; [|split]]].
      * eapply keeps_engine_trans; [exact Hk1|]. eapply keeps_engine_trans; [|exact Hk].
        subst s3. unfold keeps_engine. psimpl.
        by rewrite log_to_cfg, log_to_subscriptions, log_to_isRunning,
          log_to_context, log_to_errorChan, log_to_goroutines.
      * intros c Hc. destruct (Hkeep1 c Hc) as [Hc1 Hdl].
        destruct (Hkeep c) as [Hc' Hdl']; [by rewrite Hc3|].
        split; [done|]. by rewrite !dials_of_app, Hdl, Hmid, Hdl'.
      * rewrite !dials_of_app, Hmid. cbn [app].
        destruct (conn s) as [c|] eqn:Hc.
        -- destruct (Hkeep1 c eq_refl) as [_ ->]. done.
        -- destruct (Hnone1 eq_refl) as [[_ [e0 ->]]|[c [Hc1 ->]]].
           ++ by apply dials_until_success_cons.
           ++ destruct (Hkeep c) as [_ ->]; [by rewrite Hc3|].
              apply dials_until_success_one.
      * intros p e0 Hp He. destruct (Hm1 p e0 Hp He) as [Hw _].
        destruct (Hm p e0) as [Hw' Hr]; [by rewrite Hcfg3|done|].
        split; [|done]. apply Forall_app. split; [done|]. by apply Forall_app.
  - intros [= <- <-]. exists evs1. split_and!; done.
Qed.

End ConnectMore.

Section ConnectTotal.

Context {Variables : Type} (E : @Env Variables).
Implicit Types (s : @State Variables).

Lemma init_unfold fuel s :
  init E fuel s
  = init_loop E fuel (clock s)
      (add_event EvNewContext (set_context (Some false) (add_event (EvNow (clock s)) s))).
Proof. reflexivity. Qed.

Lemma frames_no_write evs :
  Forall (fun ev => is_write ev = false) evs -> frames evs = [].
Proof.
  induction 1 as [|e l He _ IH]; [done|]. unfold frames in *. cbn.
  destruct e; try done.
Qed.

Lemma init_inv fuel s r s' :
  init E fuel s = Ok r s' ->
  exists evs,
    trace s' = trace s ++ EvNow (clock s) :: EvNewContext :: evs
    /\ subscriptions s' = subscriptions s /\ isRunning s' = isRunning s
    /\ cfg s' = cfg s
    /\ (r = None -> is_Some (conn s'))
    /\ (forall c, conn s = Some c -> conn s' = Some c /\ dials_of evs = [])
    /\ dials_until_success (dials_of evs)
    /\ (forall p e, connectionParams (cfg s) = Some p ->
          e_marshal_params E p = inl e ->
          Forall (fun ev => is_write ev = false) evs /\ r <> None).
Proof.
  rewrite init_unfold. intros H.
  destruct (init_loop_inv E fuel _ _ _ _ H)
    as (evs & Ht & (Hcfg & Hsub & Hr & _) & Hconn & Hkeep & Hd & Hm).
  exists evs. psimpl. rewrite Ht, <- !app_assoc. split_and!; done.
Qed.

End ConnectTotal.

(** X11. [init] dials only while the engine holds no connection.
    Provided time does not run backwards it returns, and in the dials it
    has made every one but the last has failed: after a dial has succeeded
    it makes no other, whatever happens to the handshake.  When a connection is in place from
    the start (as after a [Run] that returned because a start frame
    failed), it keeps that connection and does not dial at all.  Nothing
    is said here of the time [init] takes. *)
Theorem init_dials_until_success {Variables} (E : @Env Variables)
    (s : State) (fuel : nat) :
  (forall n, (0 <= e_lat E n)%Z) ->
  Z.to_nat (retryTimeout (cfg s) / time_Second + 1) < fuel ->
  exists r s' evs,
    init E fuel s = Ok r s'
    /\ trace s' = trace s ++ evs
    /\ dials_until_success (dials_of evs)
    /\ (forall c, conn s = Some c -> conn s' = Some c /\ dials_of evs = []).
Proof.
  intros Hlat Hfuel.
  destruct (init_spec E Hlat fuel s Hfuel) as (r & s' & evs0 & Hrun & _).
  destruct (init_inv E fuel s r s' Hrun) as (evs & Ht & _ & _ & _ & _ & Hkeep & Hd & _).
  exists r, s', (EvNow (clock s) :: EvNewContext :: evs).
  split; [done|]. split; [done|]. split; [done|]. exact Hkeep.
Qed.

Lemma init_dials_until_success_witness :
  exists s' evs,
    init env_dial_later 5 (st_new two_subs) = Ok None s'
    /\ trace s' = evs /\ conn s' = Some 2
    /\ dials_of evs = [inl dial_failed; inr 2]
    /\ dials_until_success (dials_of evs).
Proof.
  destruct (init_dials_until_success env_dial_later (st_new two_subs) 5)
    as (r & s' & evs & Hrun & Ht & Hd & _).
  - intros n. cbn. lia.
  - vm_compute. lia.
  - pose proof Hrun as Hval. vm_compute in Hval. injection Hval as <- <-.
    eexists. exists evs. split; [exact Hrun|].
    split; [exact Ht|]. split; [reflexivity|]. split; [|exact Hd].
    vm_compute in Ht. subst evs. reflexivity.
Defined.

(** X12. When the connection parameters cannot be marshalled, no
    attempt of [init] writes anything to the socket; the attempts are
    repeated all the same until the retry budget is spent, [init] then
    returns an error and [Run] the retry-timeout error. *)
Theorem init_params_not_marshalled {Variables} (E : @Env Variables)
    (s : State) (fuel : nat) (p : Variables) (e : GoError) :
  (forall n, (0 <= e_lat E n)%Z) ->
  Z.to_nat (retryTimeout (cfg s) / time_Second + 1) < fuel ->
  connectionParams (cfg s) = Some p ->
  e_marshal_params E p = inl e ->
  exists err s' evs,
    init E fuel s = Ok (Some err) s'
    /\ trace s' = trace s ++ evs
    /\ frames evs = []
    /\ (clock s + retryTimeout (cfg s) < clock s')%Z
    /\ Run E (S fuel) s = Ok (Some (errorf "retry timeout. exiting")) s'.
Proof.
  intros Hlat Hfuel Hp He.
  destruct (init_spec E Hlat fuel s Hfuel)
    as (r & s' & evs0 & Hrun & _ & _ & _ & _ & Ht0 & Hs0 & _).
  destruct (init_inv E fuel s r s' Hrun) as (evs & Ht & _ & _ & _ & _ & _ & _ & Hm).
  destruct (Hm p e Hp He) as [Hw Hr]. destruct r as [err|]; [|done].
  exists err, s', (EvNow (clock s) :: EvNewContext :: evs).
  split; [done|]. split; [done|]. split; [|split].
  - change (frames (EvNow (clock s) :: EvNewContext :: evs)) with (frames evs).
    by apply frames_no_write.
  - (* the clock at the last reading is the clock at the end *)
    rewrite init_unfold in Hrun.
    assert (Hgen : forall fuel0 now (s0 s1 : State) err0,
              init_loop E fuel0 now s0 = Ok (Some err0) s1 ->
              (now + retryTimeout (cfg s0) < clock s1)%Z).
    { clear. induction fuel0 as [|fuel0 IH]; intros now s0 s1 err0; [done|].
      cbn [init_loop]. unfold time_Now, time_Sleep. munfold. cbn beta iota.
      destruct (connect_attempt_inv E s0)
        as (r1 & s2 & evs1 & Hrun & (Hcfg & _) & _).
      rewrite Hrun. destruct r1 as [e1|]; [|done]. psimpl. rewrite Hcfg.
      destruct (now + retryTimeout (cfg s0) <? clock s2)%Z eqn:Hlate.
      - apply Z.ltb_lt in Hlate. psimpl.
        destruct (onDisconnected (cfg s2)); by intros [= _ <-].
      - rewrite printLog_eq. psimpl. intros H. apply IH in H. psimpl.
        rewrite log_to_cfg in H. psimpl. by rewrite Hcfg in H. }
    apply Hgen in Hrun. by psimpl.
  - cbn [Run]. munfold. cbn beta iota. by rewrite Hrun.
Qed.

Lemma init_params_not_marshalled_witness :
  exists s' evs,
    Run env_bad_params 6 st_params = Ok (Some (errorf "retry timeout. exiting")) s'
    /\ trace s' = evs /\ frames evs = [].
Proof.
  destruct (init_params_not_marshalled env_bad_params st_params 5 tt marshal_failed)
    as (err & s' & evs & _ & Ht & Hf & _ & Hrun).
  - intros n. cbn. lia.
  - vm_compute. lia.
  - reflexivity.
  - reflexivity.
  - exists s', evs. split; [exact Hrun|]. split; [exact Ht|exact Hf].
Defined.

(** ** A start frame that fails *)

Section StartFailure.

Context {Variables : Type} (E : @Env Variables).
Implicit Types (s : @State Variables) (id : string).

Lemma frames_last_snoc (l : list Event) c m r :
  last (frames (l ++ [EvWrite c m r])) = Some (c, m).
Proof. rewrite frames_app. cbn. apply last_snoc. Qed.

Lemma startAll_loop_inv ks : forall s c,
  conn s = Some c ->
  exists r s' evs,
    startAll_loop E ks s = Ok r s'
    /\ conn s' = Some c /\ isRunning s' = isRunning s
    /\ trace s' = trace s ++ evs
    /\ match r with
       | None =>
           forall j, is_Some (subscriptions s' !! j) <-> is_Some (subscriptions s !! j)
       | Some e =>
           exists k sub,
             subscriptions s !! k = Some sub /\ started sub = false
             /\ subscriptions s' !! k = None
             /\ (forall j, j <> k ->
                   is_Some (subscriptions s' !! j) <-> is_Some (subscriptions s !! j))
             /\ last (frames evs) = Some (c, stop_frame k)
             /\ (e_marshal_start E (query sub) (variables sub) = inl e
                 \/ exists t p,
                      e_marshal_start E (query sub) (variables sub) = inr p
                      /\ e_write E t c (start_frame k p) = Some e)
       end.
Proof.
  induction ks as [|k ks IH]; intros s c Hc.
  - exists None, s, []. rewrite app_nil_r. by split_and!.
  - cbn [startAll_loop]. munfold. cbn beta iota.
    destruct (subscriptions s !! k) as [v|] eqn:Hv; [|by apply IH].
    (* the call of startSubscription and the write-back through the pointer *)
    assert (exists r1 s1 evs1,
      startSubscription E k v s = Ok r1 s1
      /\ conn s1 = Some c /\ isRunning s1 = isRunning s
      /\ subscriptions s1 = subscriptions s
      /\ trace s1 = trace s ++ evs1
      /\ match r1.1 with
         | None => started r1.2 = true
         | Some e =>
             r1.2 = v /\ started v = false
             /\ (e_marshal_start E (query v) (variables v) = inl e
                 \/ exists t p,
                      e_marshal_start E (query v) (variables v) = inr p
                      /\ e_write E t c (start_frame k p) = Some e)
         end) as (r1 & s1 & evs1 & Hs & Hc1 & Hr1 & Hsub1 & Ht1 & Hres1).
    { destruct (started v) eqn:Hst.
      - rewrite startSubscription_started by done. exists (None, v), s, [].
        rewrite app_nil_r. by split_and!.
      - destruct (e_marshal_start E (query v) (variables v)) as [e|p] eqn:Hm.
        + rewrite (startSubscription_marshal_error E k v s e) by done.
          exists (Some e, v), s, []. rewrite app_nil_r. split_and!; try done.
          cbn. split_and!; try done. by left.
        + rewrite (startSubscription_send E k v s c p Hst Hm Hc).
          eexists _, _, ((if should_log (cfg s) GqlStart then [_] else []) ++ [_]).
          split; [reflexivity|]. psimpl.
          rewrite log_to_conn, log_to_isRunning, log_to_subscriptions, log_to_trace,
            <- app_assoc.
          split_and!; try done.
          destruct (e_write E (tick s) c (start_frame k p)) as [e|] eqn:Hw; cbn.
          * split_and!; try done. right. by exists (tick s), p.
          * done. }
    rewrite Hs. cbn beta iota.
    set (s2 := set_subscriptions (<[k:=r1.2]> (subscriptions s1)) s1).
    assert (Hdom2 : forall j, is_Some (subscriptions s2 !! j)
                              <-> is_Some (subscriptions s !! j)).
    { intros j. subst s2. psimpl. rewrite Hsub1.
      destruct (decide (j = k)) as [->|Hne].
      - rewrite lookup_insert_eq, Hv. split; eauto.
      - by rewrite lookup_insert_ne. }
    destruct r1 as [[e|] v']; cbn [fst snd] in *.
    + (* the start frame failed: Unsubscribe and return *)
      destruct Hres1 as (-> & Hst & Horigin).
      assert (Hin2 : is_Some (subscriptions s2 !! k)) by (apply Hdom2; eauto).
      rewrite (Unsubscribe_conn E k s2 c Hin2) by done.
      eexists (Some e), _,
        (evs1 ++ (if should_log (cfg s2) GqlStop then [_] else []) ++ [_]).
      split; [reflexivity|]. psimpl. rewrite log_to_conn, log_to_isRunning, log_to_trace.
      subst s2. psimpl. rewrite Ht1, <- !app_assoc.
      split_and!; try done.
      exists k, v. split_and!; try done.
      * apply lookup_delete_eq.
      * intros j Hj. rewrite lookup_delete_ne by done.
        rewrite Hsub1, lookup_insert_ne by done. done.
      * rewrite !app_assoc. apply frames_last_snoc.
    + destruct (IH s2 c) as (r & s' & evs & Hrun & Hc' & Hr' & Ht' & Hres);
        [done|].
      exists r, s', (evs1 ++ evs). rewrite Hrun. subst s2. psimpl.
      rewrite Hr', Ht', Ht1, <- app_assoc. split_and!; try done.
      destruct r as [e|].
      * destruct Hres as (k' & sub' & Hk' & Hst' & Hgone & Hothers & Hlast & Horigin).
        psimpl. rewrite Hsub1 in Hk'.
        assert (Hne : k' <> k).
        { intros ->. rewrite lookup_insert_eq in Hk'. injection Hk' as <-.
          congruence. }
        rewrite lookup_insert_ne in Hk' by done.
        exists k', sub'. split_and!; try done.
        -- intros j Hj. rewrite (Hothers j Hj). apply Hdom2.
        -- rewrite frames_app. destruct (frames evs) as [|f l] eqn:Hfe; [done|].
           rewrite <- Hlast. by rewrite last_app_cons.
      * intros j. rewrite (Hres j). apply Hdom2.
Qed.

End StartFailure.

(** X13. When [Run] has connected and a start frame fails (its payload
    cannot be marshalled or the write fails), [Run] returns that error
    without entering the loop and without marking the engine running.
    The subscription whose start failed has been cancelled: it is gone
    from the registry and a stop frame for it is the last frame written;
    every other subscription stays registered, and the connection is
    kept. *)
Theorem Run_start_failure {Variables} (E : @Env Variables) (fuel : nat)
    (s s2 s3 : State) (e : GoError) :
  init E fuel s = Ok None s2 ->
  startAll E s2 = Ok (Some e) s3 ->
  Run E (S fuel) s = Ok (Some e) s3
  /\ isRunning s3 = isRunning s
  /\ exists c k sub,
       conn s3 = Some c
       /\ subscriptions s !! k = Some sub /\ started sub = false
       /\ subscriptions s3 !! k = None
       /\ (forall j, j <> k ->
             is_Some (subscriptions s3 !! j) <-> is_Some (subscriptions s !! j))
       /\ last (frames (trace s3)) = Some (c, stop_frame k).
Proof.
  intros Hinit Hstart.
  destruct (init_inv E fuel s None s2 Hinit)
    as (evs & Ht & Hsub & Hr & _ & Hconn & _).
  destruct (Hconn eq_refl) as [c Hc].
  split; [cbn [Run]; munfold; cbn beta iota; by rewrite Hinit, Hstart|].
  revert Hstart. unfold startAll, range_keys. munfold. cbn beta iota. psimpl.
  match goal with |- context [startAll_loop E ?ks ?s0] =>
    destruct (startAll_loop_inv E ks s0 c Hc)
      as (r & s' & evs' & Hrun & Hc' & Hr' & Ht' & Hres)
  end.
  rewrite Hrun. intros [= -> ->]. psimpl.
  split; [congruence|].
  destruct Hres as (k & sub & Hk & Hst & Hgone & Hothers & Hlast & _).
  exists c, k, sub. rewrite <- Hsub. split_and!; try done.
  rewrite Ht', frames_app. destruct (frames evs') as [|f l] eqn:Hfe; [done|].
  rewrite <- Hlast. by rewrite last_app_cons.
Qed.

Lemma Run_start_failure_witness :
  exists s3,
    Run env_start_fails 6 (st_new (<["A" := sub0 false false]> (<["B" := sub0 false false]> ∅)))
    = Ok (Some write_failed) s3
    /\ isRunning s3 = false
    /\ subscriptions s3 !! "A" = None
    /\ is_Some (subscriptions s3 !! "B").
Proof.
  set (s := st_new (<["A" := sub0 false false]> (<["B" := sub0 false false]> ∅))).
  destruct (init env_start_fails 5 s) as [[e|] s2| |] eqn:Hinit;
    try (vm_compute in Hinit; discriminate Hinit).
  destruct (startAll env_start_fails s2) as [[e|] s3| |] eqn:Hstart;
    try (vm_compute in Hinit; injection Hinit as <-;
         vm_compute in Hstart; discriminate Hstart).
  destruct (Run_start_failure env_start_fails 5 s s2 s3 e Hinit Hstart)
    as (Hrun & Hr & _).
  assert (He : e = write_failed).
  { vm_compute in Hinit. injection Hinit as <-.
    vm_compute in Hstart. by injection Hstart as <- _. }
  subst e. exists s3. split; [exact Hrun|]. split; [exact Hr|].
  vm_compute in Hinit. injection Hinit as <-.
  vm_compute in Hstart. injection Hstart as <-. split; [reflexivity|].
  vm_compute. eauto.
Defined.

(** ** The loop of Run *)

Section Loop.

Context {Variables : Type} (E : @Env Variables).
Implicit Types (s : @State Variables).

(** [schedule] when no handler is in flight. *)
Lemma schedule_idle s :
  goroutines s = [] ->
  schedule E s
  = Ok tt (set_goroutines [] (set_errorChan (errorChan s) (after_interaction E s))).
Proof.
  intros Hg. unfold schedule. munfold. cbn beta iota. psimpl.
  by rewrite Hg, take_nil, drop_nil.
Qed.

(** One pass of the loop over a frame the switch has no case for. *)
Lemma Run_loop_ignored reset fuel s c m :
  idle s -> conn s = Some c ->
  e_read E (S (tick s)) c = inr m -> ~ handled_type (Type_ m) ->
  exists s1,
    Run_loop E reset (S fuel) s = Run_loop E reset fuel s1
    /\ idle s1 /\ conn s1 = Some c /\ tick s1 = S (S (tick s))
    /\ subscriptions s1 = subscriptions s
    /\ trace s1 = trace s ++ [EvRead c (inr m)].
Proof.
  intros (Hr & Hctx & Hq & Hg) Hc Hread Hty.
  cbn [Run_loop]. munfold. cbn beta iota. rewrite Hr.
  rewrite (schedule_idle s Hg).
  set (sa := set_goroutines [] (set_errorChan (errorChan s) (after_interaction E s))).
  rewrite (Run_iteration_default E reset sa) by (subst sa; by psimpl).
  rewrite (read_case_frame E reset sa c m) by (subst sa; by psimpl).
  assert (Hd : forall s0 : State, dispatch E m s0 = Ok tt s0).
  { intros s0. unfold dispatch, handled_type in *.
    rewrite !bool_decide_false by tauto. done. }
  rewrite Hd. eexists. split; [reflexivity|]. subst sa. unfold idle. psimpl.
  split_and!; done.
Qed.

End Loop.

(** X14. An idle pump that reads [n] frames the switch has no case for
    (keep-alive, conn_err, unknown types) and then a normal closure whose
    error text does not contain EOF returns nil after exactly these
    [n + 1] reads: the frames are skipped one by one, nothing is written,
    no subscription changes, [Reset] is not called, and the connection
    reference and the running flag are left as they were.  (A normal
    closure whose text contains EOF takes the end-of-stream branch
    instead, see C4.) *)
Theorem Run_loop_ignored_then_closed {Variables} (E : @Env Variables)
    (reset : M (option GoError)) (c : ConnId) (err : GoError) (n : nat) :
  forall (fuel : nat) (s : State),
    idle s -> conn s = Some c -> n < fuel ->
    (forall i, i < n ->
       exists m, e_read E (tick s + 2 * i + 1) c = inr m /\ ~ handled_type (Type_ m)) ->
    e_read E (tick s + 2 * n + 1) c = inl err ->
    is_EOF err = false -> err_close err = StatusNormalClosure ->
    exists s' ms,
      Run_loop E reset fuel s = Ok None s'
      /\ length ms = n
      /\ trace s' = trace s ++ ((fun m => EvRead c (inr m)) <$> ms) ++ [EvRead c (inl err)]
      /\ subscriptions s' = subscriptions s
      /\ conn s' = Some c /\ isRunning s' = true.
Proof.
  induction n as [|n IH]; intros fuel s Hidle Hc Hfuel Hframes Hclose Heof Hstatus.
  - destruct fuel as [|fuel]; [lia|].
    destruct Hidle as (Hr & Hctx & Hq & Hg).
    cbn [Run_loop]. munfold. cbn beta iota. rewrite Hr.
    rewrite (schedule_idle E s Hg).
    set (sa := set_goroutines [] (set_errorChan (errorChan s) (after_interaction E s))).
    rewrite (Run_iteration_default E reset sa) by (subst sa; by psimpl).
    rewrite (read_case_error E reset sa c err).
    + rewrite Heof, bool_decide_true by done. eexists _, [].
      split; [reflexivity|]. subst sa. psimpl. by split_and!.
    + subst sa. by psimpl.
    + subst sa. psimpl. rewrite <- Hclose. f_equal. lia.
  - destruct fuel as [|fuel]; [lia|].
    destruct (Hframes 0) as (m & Hm & Hty); [lia|].
    destruct (Run_loop_ignored E reset fuel s c m Hidle Hc)
      as (s1 & Hstep & Hidle1 & Hc1 & Htick1 & Hsub1 & Ht1); [|done|].
    { rewrite <- Hm. f_equal. lia. }
    destruct (IH fuel s1 Hidle1 Hc1) as (s' & ms & Hrun & Hlen & Ht & Hsub & Hc' & Hr');
      [lia| | |done|done|].
    + intros i Hi. destruct (Hframes (S i)) as (m' & Hm' & Hty'); [lia|].
      exists m'. split; [|done]. rewrite <- Hm'. f_equal. lia.
    + rewrite <- Hclose. f_equal. lia.
    + exists s', (m :: ms). rewrite Hstep, Hrun. cbn [length fmap list_fmap].
      rewrite Ht, Ht1, Hsub, Hsub1, <- !app_assoc. by split_and!; try done; f_equal.
Qed.

Lemma Run_loop_ignored_then_closed_witness :
  exists s',
    Run_loop env_two_ka (Reset env_two_ka 3) 5 (st_running two_subs) = Ok None s'
    /\ trace s' = [EvRead 0 (inr keep_alive); EvRead 0 (inr keep_alive);
                   EvRead 0 (inl normal_closure)]
    /\ subscriptions s' = two_subs /\ conn s' = Some 0.
Proof.
  destruct (Run_loop_ignored_then_closed env_two_ka (Reset env_two_ka 3) 0
              normal_closure 2 5 (st_running two_subs))
    as (s' & ms & Hrun & Hlen & Ht & Hsub & Hc & _).
  - by repeat split.
  - reflexivity.
  - lia.
  - intros i Hi. exists keep_alive. split.
    + destruct i as [|[|i]]; [reflexivity|reflexivity|lia].
    + unfold handled_type. cbn. intros [H|[H|[H|H]]]; discriminate H.
  - reflexivity.
  - reflexivity.
  - reflexivity.
  - pose proof Hrun as Hval. vm_compute in Hval. injection Hval as <-.
    eexists. split; [exact Hrun|]. split; [reflexivity|].
    split; [exact Hsub|exact Hc].
Defined.

(** X15. A handler error that is pending when an otherwise idle pump
    starts a pass is received in that pass, before any read of the
    socket.  With no error policy it is dropped and the loop goes on; with
    a policy, the loop goes on when the verdict is nil and [Run] returns
    the verdict when it is not. *)
Theorem Run_loop_handler_error {Variables} (E : @Env Variables)
    (reset : M (option GoError)) (fuel : nat) (s : State)
    (e : GoError) (q : list GoError) :
  isRunning s = true -> context s = Some false ->
  errorChan s = e :: q -> goroutines s = [] ->
  let sa := set_goroutines [] (set_errorChan q (after_interaction E s)) in
  match onError (cfg s) with
  | None => Run_loop E reset (S fuel) s = Run_loop E reset fuel sa
  | Some policy =>
      match policy e with
      | Some verdict =>
          Run_loop E reset (S fuel) s
          = Ok (Some verdict) (add_event (EvOnError e (Some verdict)) sa)
      | None =>
          Run_loop E reset (S fuel) s
          = Run_loop E reset fuel (add_event (EvOnError e None) sa)
      end
  end.
Proof.
  intros Hr Hctx Hq Hg sa.
  assert (Hloop : Run_loop E reset (S fuel) s
            = match apply_onError e sa with
              | Ok (Some res) s' => Ok res s'
              | Ok None s' => Run_loop E reset fuel s'
              | Panic s' => Panic s'
              | OutOfFuel => OutOfFuel
              end).
  { cbn [Run_loop]. munfold. cbn beta iota. rewrite Hr.
    rewrite (schedule_idle E s Hg). unfold Run_iteration. munfold.
    rewrite (select_case_eq E _ false) by (by psimpl). psimpl. rewrite Hq.
    subst sa. destruct (apply_onError e _) as [[res|] s'| |]; reflexivity. }
  rewrite Hloop, apply_onError_eq. subst sa. psimpl.
  destruct (onError (cfg s)) as [policy|]; [|done]. by destruct (policy e).
Qed.

Lemma Run_loop_handler_error_witness :
  Run_loop env_ok (Reset env_ok 3) 4 st_error_pending
  = Ok (Some handler_failed)
       (add_event (EvOnError handler_failed (Some handler_failed))
          (set_goroutines [] (set_errorChan [] (after_interaction env_ok st_error_pending)))).
Proof.
  exact (Run_loop_handler_error env_ok (Reset env_ok 3) 3 st_error_pending
           handler_failed [] eq_refl eq_refl eq_refl eq_refl).
Defined.

(** ** The end-of-stream test *)

Section Substring.

Lemma prefix_iff (p s : string) :
  String.prefix p s = true <-> exists r, s = p +:+ r.
Proof.
  revert p. induction s as [|b s IH]; intros p.
  - destruct p as [|a p]; cbn.
    + split; [by exists ""%string|done].
    + split; [done|]. by intros [r Hr].
  - destruct p as [|a p]; cbn.
    + split; [by eexists|done].
    + destruct (Ascii.ascii_dec a b) as [->|Hne].
      * rewrite IH. split; intros [r Hr]; exists r; [by rewrite Hr|].
        by injection Hr.
      * split; [done|]. intros [r Hr]. injection Hr as -> _. done.
Qed.

Lemma strings_Contains_iff (s sub : string) :
  strings_Contains s sub = true <-> exists l r, s = l +:+ sub +:+ r.
Proof.
  induction s as [|a s IH].
  - cbn [strings_Contains]. destruct (String.prefix sub "") eqn:Hp.
    + apply prefix_iff in Hp as [r Hr]. split; [|done]. intros _.
      by exists ""%string, r.
    + split; [done|]. intros (l & r & Hlr).
      destruct l; [|done]. cbn in Hlr.
      assert (String.prefix sub "" = true) by (apply prefix_iff; eauto).
      congruence.
  - cbn [strings_Contains]. destruct (String.prefix sub (String a s)) eqn:Hp.
    + apply prefix_iff in Hp as [r Hr]. split; [|done]. intros _.
      by exists ""%string, r.
    + rewrite IH. split.
      * intros (l & r & ->). by exists (String a l), r.
      * intros (l & r & Hlr). destruct l as [|a' l].
        -- cbn in Hlr.
           assert (String.prefix sub (String a s) = true)
             by (apply prefix_iff; eauto).
           congruence.
        -- injection Hlr as _ ->. by exists l, r.
Qed.

End Substring.

(** X16. The end-of-stream test of the pump is a substring test: a read
    error counts as end of stream exactly when its text contains EOF
    somewhere (io.EOF itself, but also any error whose message merely
    mentions EOF); comparing with io.EOF adds nothing. *)
Theorem is_EOF_iff_substring (err : GoError) :
  (is_EOF err = true <-> exists l r, err_text err = l +:+ "EOF" +:+ r)
  /\ is_EOF io_EOF = true.
Proof.
  split; [|reflexivity]. unfold is_EOF. rewrite orb_true_iff, strings_Contains_iff.
  split; [|by right]. intros [Heq|H]; [|done].
  apply bool_decide_eq_true in Heq. subst err. by exists ""%string, ""%string.
Qed.

(** * The request/response client *)

Section HttpClientProofs.

Context {Q Variables : Type} (H : HttpEnv Q Variables).

Lemma Client_createRequest_cases (u query : string) (variables : Variables) :
  let r := Client_createRequest H u query variables in
  match r.1 with
  | inl _ => True
  | inr response =>
      exists buf resp,
        h_encode H query variables = inr buf
        /\ h_post H u buf = inr resp
        /\ StatusCode resp = http_StatusOK
        /\ h_decode H (Body resp) = inr response
  end.
Proof.
  unfold Client_createRequest.
  destruct (h_encode H query variables) as [e|buf]; [done|].
  destruct (h_post H u buf) as [e|resp] eqn:Hp; [done|].
  destruct (bool_decide (StatusCode resp = http_StatusOK)) eqn:Hs; cbn [negb]; [|done].
  apply bool_decide_eq_true in Hs.
  destruct (h_decode H (Body resp)) as [e|response] eqn:Hd; [done|].
  cbn. by exists buf, resp.
Qed.

End HttpClientProofs.

(** X17. [do] and [doRaw] on the same inputs make the same request and
    agree on its outcome, up to unmarshalling.  When the request fails
    [doRaw] returns no data and [do] leaves the description untouched,
    both with the same error.  When [do] returns nil, so does [doRaw];
    when [do] returns the errors of the response, so does [doRaw].  The
    converse fails in one way only: [do] unmarshals the data first, and
    an unmarshalling error replaces the errors of the response. *)
Theorem do_doRaw_agree {Q Variables} (H : HttpEnv Q Variables) (u : string)
    (op : operationType) (v : Q) (variables : Variables) (name : string) :
  let d := Client_do H u op v variables name in
  let r := Client_doRaw H u op v variables name in
  d.2 = r.2
  /\ (forall e, r.1.2 = Some (PlainError e) ->
        d.1 = (v, Some (PlainError e)) /\ r.1.1 = None)
  /\ (d.1.2 = None -> r.1.2 = None)
  /\ (forall es, d.1.2 = Some (ResponseErrors es) ->
        r.1.2 = Some (ResponseErrors es))
  /\ (r.1.2 = None \/ (exists es, r.1.2 = Some (ResponseErrors es)) ->
      d.1.2 = r.1.2
      \/ exists data e,
           r.1.1 = Some data
           /\ h_unmarshal H data v = (d.1.1, Some e)
           /\ d.1.2 = Some (PlainError e)).
Proof.
  unfold Client_do, Client_doRaw. cbn zeta.
  destruct (Client_createRequest H u (build_query H op v variables name) variables)
    as [[err|response] evs]; cbn.
  - split_and!; try done.
    + by intros e [= <-].
    + intros [?|[es ?]]; done.
  - destruct (Data response) as [data|] eqn:Hd;
      destruct (Errors response) as [|first rest] eqn:He; cbn.
    + destruct (h_unmarshal H data v) as [v' [e|]] eqn:Hu; cbn;
        split_and!; try done; intros _;
        first [ by left | right; by exists data, e ].
    + destruct (h_unmarshal H data v) as [v' [e|]] eqn:Hu; cbn;
        split_and!; try done; intros _;
        first [ by left | right; by exists data, e ].
    + split_and!; try done; intros _; by left.
    + split_and!; try done; intros _; by left.
Qed.

Lemma do_doRaw_agree_witness :
  (Client_do http_mismatch "http://localhost:8080/graphql" queryOperation 0 tt "").2
  = (Client_doRaw http_mismatch "http://localhost:8080/graphql" queryOperation 0 tt "").2
  /\ exists data e,
       (Client_doRaw http_mismatch "http://localhost:8080/graphql"
          queryOperation 0 tt "").1.1 = Some data
       /\ (Client_do http_mismatch "http://localhost:8080/graphql"
             queryOperation 0 tt "").1.2 = Some (PlainError e).
Proof.
  destruct (do_doRaw_agree http_mismatch "http://localhost:8080/graphql"
              queryOperation 0 tt "") as (Hev & _ & _ & _ & Hmask).
  split; [exact Hev|].
  destruct Hmask as [Heq|(data & e & Hdata & _ & Hd)].
  - right. eexists. reflexivity.
  - vm_compute in Heq. discriminate Heq.
  - by exists data, e.
Defined.

(** X18. The [errors] value that [do] or [doRaw] returns as an error is
    never empty, so its [Error] method, which reads the first element,
    does not panic on it; it is the errors of the decoded response of a
    request that was answered 200. *)
Theorem returned_errors_nonempty {Q Variables} (H : HttpEnv Q Variables)
    (u : string) (op : operationType) (v : Q) (variables : Variables)
    (name : string) (es : errors) :
  (Client_do H u op v variables name).1.2 = Some (ResponseErrors es)
  \/ (Client_doRaw H u op v variables name).1.2 = Some (ResponseErrors es) ->
  (exists first rest,
     es = first :: rest /\ errors_Error es = Some (Message first))
  /\ exists buf resp response,
       h_encode H (build_query H op v variables name) variables = inr buf
       /\ h_post H u buf = inr resp
       /\ StatusCode resp = http_StatusOK
       /\ h_decode H (Body resp) = inr response
       /\ es = Errors response.
Proof.
  pose proof (Client_createRequest_cases H u
                (build_query H op v variables name) variables) as Hreq.
  unfold Client_do, Client_doRaw. cbn zeta in *.
  destruct (Client_createRequest H u (build_query H op v variables name) variables)
    as [[err|response] evs]; cbn in *; [by intros [?|?]|].
  destruct Hreq as (buf & resp & Henc & Hpost & Hst & Hdec).
  destruct (Errors response) as [|first rest] eqn:He; cbn.
  - intros [Hd|Hr]; [|done].
    destruct (Data response) as [data|]; cbn in Hd; [|done].
    by destruct (h_unmarshal H data v) as [v' [e|]].
  - intros Hes.
    assert (es = first :: rest) as ->.
    { destruct Hes as [Hd|Hr]; [|by injection Hr].
      destruct (Data response) as [data|]; cbn in Hd; [|by injection Hd].
      destruct (h_unmarshal H data v) as [v' [e|]]; cbn in Hd; [done|].
      by injection Hd. }
    split; [by exists first, rest|by exists buf, resp, response].
Qed.

Lemma returned_errors_nonempty_witness :
  exists es,
    (Client_doRaw http_partial "http://localhost:8080/graphql" queryOperation
       0 tt "").1
    = (Some [Byte.x7b; Byte.x7d], Some (ResponseErrors es))
    /\ errors_Error es = Some "field deprecated"%string.
Proof.
  eexists. split; [reflexivity|].
  destruct (returned_errors_nonempty http_partial "http://localhost:8080/graphql"
              queryOperation 0 tt ""
              [{| Message := "field deprecated"; Locations := [] |}])
    as [(first & rest & Hes & Herr) _]; [by right|].
  injection Hes as <- _. exact Herr.
Defined.

(** X19. An answer whose status is not 200 is not decoded: [do] and
    [doRaw] return the same plain error, which quotes the status line and
    the body; [do] leaves the description untouched and [doRaw] returns no
    data; the body has been read and closed, after the one post. *)
Theorem non_200_not_decoded {Q Variables} (H : HttpEnv Q Variables)
    (u : string) (op : operationType) (v : Q) (variables : Variables)
    (name : string) (buf : list Byte.byte) :
  h_encode H (build_query H op v variables name) variables = inr buf ->
  forall resp,
    h_post H u buf = inr resp ->
    StatusCode resp <> http_StatusOK ->
    let err := PlainError
                 (errorf ("non-200 OK status code: " +:+ Status resp
                          +:+ " body: " +:+ h_quote H (Body resp))) in
    Client_do H u op v variables name
    = ((v, Some err), [EvPost u buf; EvReadAll; EvBodyClose])
    /\ Client_doRaw H u op v variables name
       = ((None, Some err), [EvPost u buf; EvReadAll; EvBodyClose]).
Proof.
  intros He resp Hp Hs err.
  unfold Client_do, Client_doRaw, Client_createRequest. cbn zeta.
  rewrite He, Hp, bool_decide_false by done. done.
Qed.

Lemma non_200_not_decoded_witness :
  Client_do http_unavailable "http://localhost:8080/graphql" mutationOperation
    7 tt "addTodo"
  = ((7, Some (PlainError
                 (errorf "non-200 OK status code: 503 Service Unavailable body: 'body'"))),
     [EvPost "http://localhost:8080/graphql" []; EvReadAll; EvBodyClose]).
Proof.
  destruct (non_200_not_decoded http_unavailable "http://localhost:8080/graphql"
              mutationOperation 7 tt "addTodo" [] eq_refl
              {| StatusCode := 503; Status := "503 Service Unavailable"; Body := [] |}
              eq_refl) as [Hd _]; [done|].
  exact Hd.
Defined.
